(** * RollWin: the deployment workflow of [src/App.vue]

    A shallow embedding of the script part of [App.vue]: the project
    registry with its two save paths, the per-project in-flight flag,
    build-command validation, the version bump of [deployProject] and the
    version swap of [rollbackVersion], followed by the properties of the
    specification that hold (or fail) on that code.

    The async functions of the script are embedded as programs over the
    calls they await (dialogs, the file system, [npm], the two remote
    transfers) and the values they read from their environment (clock,
    platform).  A program is run against a [world] that answers those
    calls, either on its own or interleaved with other handlers at its
    [await]s.  The texts of messages and status lines are the ones of the
    source file. *)

From Stdlib Require Import ZArith NArith Ascii String List Lia Bool.
From stdpp Require Import base strings gmap list.

Local Open Scope string_scope.
Local Open Scope Z_scope.

(** ** JavaScript values used by the script

    Strings are sequences of code units; the model covers the code units
    below 256.  Numbers that come out of [parseInt] are integers or [NaN];
    they are exact below 2^53, which is the range the theorems quantify
    over. *)

Module Js.

Inductive number : Type :=
| NaN
| Int (z : Z).

Definition isNaN (n : number) : bool :=
  match n with NaN => true | Int _ => false end.

(** [n + 1] *)
Definition succ (n : number) : number :=
  match n with NaN => NaN | Int z => Int (z + 1) end.

Definition MAX_SAFE_INTEGER : Z := 2 ^ 53 - 1.

(** Truthiness of a string, and of an optional string ([undefined] and
    the empty string are falsy). *)
Definition truthy (s : string) : bool :=
  match s with EmptyString => false | String _ _ => true end.

Definition truthy_opt (o : option string) : bool :=
  match o with None => false | Some s => truthy s end.

(** [a || b] on an optional string with a string default. *)
Definition or_default (o : option string) (d : string) : string :=
  match o with
  | Some s => if truthy s then s else d
  | None => d
  end.

(** [s.split(sep)] for a separator of one code unit. *)
Fixpoint split (sep : ascii) (s : string) : list string :=
  match s with
  | EmptyString => [EmptyString]
  | String c s' =>
      if Ascii.eqb c sep then EmptyString :: split sep s'
      else match split sep s' with
           | h :: t => String c h :: t
           | [] => [String c EmptyString]
           end
  end.

(** [s.startsWith(c)] for a prefix of one code unit. *)
Definition startsWith (s : string) (c : ascii) : bool :=
  match s with
  | String d _ => Ascii.eqb d c
  | EmptyString => false
  end.

(** White space skipped by [parseInt]: TAB, LF, VT, FF, CR, SP, NBSP. *)
Definition is_space (c : ascii) : bool :=
  let n := N_of_ascii c in
  ((9 <=? n) && (n <=? 13) || (n =? 32) || (n =? 160))%N.

Fixpoint skip_space (s : string) : string :=
  match s with
  | String c s' => if is_space c then skip_space s' else s
  | EmptyString => EmptyString
  end.

(** The value of a code unit as a digit, in radix 10 or 16. *)
Definition digit_val (radix : N) (c : ascii) : option N :=
  let n := N_of_ascii c in
  (if (48 <=? n) && (n <=? 57) then Some (n - 48)
   else if (radix =? 16) && (97 <=? n) && (n <=? 102) then Some (n - 87)
   else if (radix =? 16) && (65 <=? n) && (n <=? 70) then Some (n - 55)
   else None)%N.

(** The longest prefix of digits and its value; [None] when that prefix
    is empty. *)
Fixpoint scan (radix : N) (s : string) (acc : option N) : option N :=
  match s with
  | String c s' =>
      match digit_val radix c with
      | Some d => scan radix s' (Some (radix * default 0%N acc + d)%N)
      | None => acc
      end
  | EmptyString => acc
  end.

Definition tail (s : string) : string :=
  match s with
  | String _ r => r
  | EmptyString => EmptyString
  end.

(** The input starts with [0x] or [0X]. *)
Definition hex_prefix (s : string) : bool :=
  match s with
  | String a (String b _) => Ascii.eqb a "0" && (Ascii.eqb b "x" || Ascii.eqb b "X")
  | _ => false
  end.

(** [parseInt(s)] with no radix argument: leading white space is
    skipped, a sign is read, [0x] selects radix 16, and the longest
    prefix of digits is the value. *)
Definition parseInt (s : string) : number :=
  let s1 := skip_space s in
  let neg := startsWith s1 "-" in
  let s2 := if neg || startsWith s1 "+" then tail s1 else s1 in
  let radix := if hex_prefix s2 then 16%N else 10%N in
  let s3 := if hex_prefix s2 then tail (tail s2) else s2 in
  match scan radix s3 None with
  | None => NaN
  | Some n => Int (if neg then - Z.of_N n else Z.of_N n)
  end.

(** Decimal digits, least significant first. *)
Fixpoint le_digits (fuel : nat) (n : N) : list N :=
  match fuel with
  | O => []
  | S f => (n mod 10)%N :: (if (n <? 10)%N then [] else le_digits f (n / 10)%N)
  end.

Definition digit_char (d : N) : ascii := ascii_of_N (48 + d).

Definition string_of_digits (ds : list N) : string :=
  fold_right (fun d s => String (digit_char d) s) EmptyString ds.

Definition digits (n : N) : string :=
  string_of_digits (rev (le_digits (S (N.to_nat (N.log2 n))) n)).

(** [String(n)], as a template literal renders a number. *)
Definition toString (n : number) : string :=
  match n with
  | NaN => "NaN"
  | Int z => if z <? 0 then String "-" (digits (Z.to_N (- z))) else digits (Z.to_N z)
  end.

(** [s] without the prefix [pre], when it has it. *)
Fixpoint drop_prefix (pre s : string) : option string :=
  match pre, s with
  | EmptyString, _ => Some s
  | String a pre', String b s' => if Ascii.eqb a b then drop_prefix pre' s' else None
  | String _ _, EmptyString => None
  end.

(** [s.includes(pat)] *)
Fixpoint includes (pat s : string) : bool :=
  match drop_prefix pat s with
  | Some _ => true
  | None => match s with
            | String _ s' => includes pat s'
            | EmptyString => false
            end
  end.

(** [s.replace(pat, '')]: the first occurrence of [pat] is removed. *)
Fixpoint remove_first (pat s : string) : string :=
  match drop_prefix pat s with
  | Some r => r
  | None => match s with
            | String c s' => String c (remove_first pat s')
            | EmptyString => EmptyString
            end
  end.

End Js.


(** ** Data model ([interface ProjectConfig], [interface DeployStatus]) *)

Inductive environment : Type := env_prod | env_test.

Record ServerInfo : Type := {
  host : string;
  username : string;
  password : string;
  remotePath : string
}.

Record ProjectConfig : Type := {
  id : string;
  name : string;
  path : string;
  projectPath : string;
  buildCommand : option string;
  env : environment;
  version : string;
  previousVersion : option string;
  lastDeployTime : option string;
  lastRollbackTime : option string;
  serverInfo : ServerInfo
}.

Record DeployStatus : Type := {
  isDeploying : bool;
  status : string
}.

(** Assignments to the fields the script writes. *)
Definition with_id (v : string) (p : ProjectConfig) : ProjectConfig :=
  {| id := v; name := name p; path := path p; projectPath := projectPath p;
     buildCommand := buildCommand p; env := env p; version := version p;
     previousVersion := previousVersion p; lastDeployTime := lastDeployTime p;
     lastRollbackTime := lastRollbackTime p; serverInfo := serverInfo p |}.

Definition with_version (v : string) (p : ProjectConfig) : ProjectConfig :=
  {| id := id p; name := name p; path := path p; projectPath := projectPath p;
     buildCommand := buildCommand p; env := env p; version := v;
     previousVersion := previousVersion p; lastDeployTime := lastDeployTime p;
     lastRollbackTime := lastRollbackTime p; serverInfo := serverInfo p |}.

Definition with_previousVersion (v : option string) (p : ProjectConfig) : ProjectConfig :=
  {| id := id p; name := name p; path := path p; projectPath := projectPath p;
     buildCommand := buildCommand p; env := env p; version := version p;
     previousVersion := v; lastDeployTime := lastDeployTime p;
     lastRollbackTime := lastRollbackTime p; serverInfo := serverInfo p |}.

Definition with_lastDeployTime (v : option string) (p : ProjectConfig) : ProjectConfig :=
  {| id := id p; name := name p; path := path p; projectPath := projectPath p;
     buildCommand := buildCommand p; env := env p; version := version p;
     previousVersion := previousVersion p; lastDeployTime := v;
     lastRollbackTime := lastRollbackTime p; serverInfo := serverInfo p |}.

Definition with_lastRollbackTime (v : option string) (p : ProjectConfig) : ProjectConfig :=
  {| id := id p; name := name p; path := path p; projectPath := projectPath p;
     buildCommand := buildCommand p; env := env p; version := version p;
     previousVersion := previousVersion p; lastDeployTime := lastDeployTime p;
     lastRollbackTime := v; serverInfo := serverInfo p |}.

(** The initial value of the [newProject] form. *)
Definition blankProject : ProjectConfig :=
  {| id := ""; name := ""; path := ""; projectPath := "";
     buildCommand := None; env := env_prod; version := "1.0.0";
     previousVersion := None; lastDeployTime := None; lastRollbackTime := None;
     serverInfo := {| host := ""; username := ""; password := ""; remotePath := "" |} |}.

(** ** The component state

    Project objects are shared by reference: the template hands
    [deployProject] and [rollbackVersion] an element of [projects.value],
    and the operation mutates that object while [JSON.stringify] reads it
    back through the array.  [heap] holds the objects, [projects] the
    references in array order. *)

Record state : Type := {
  heap : gmap nat ProjectConfig;
  nextRef : nat;
  projects : list nat;
  deployingProjects : gmap string bool;
  deployStatusMap : gmap string DeployStatus;
  newProject : ProjectConfig;
  editingProject : option ProjectConfig;
  showAddDialog : bool;
  showEditDialog : bool
}.

Definition set_heap (f : gmap nat ProjectConfig -> gmap nat ProjectConfig) (s : state) : state :=
  {| heap := f (heap s); nextRef := nextRef s; projects := projects s;
     deployingProjects := deployingProjects s; deployStatusMap := deployStatusMap s;
     newProject := newProject s; editingProject := editingProject s;
     showAddDialog := showAddDialog s; showEditDialog := showEditDialog s |}.

Definition set_projects (f : list nat -> list nat) (s : state) : state :=
  {| heap := heap s; nextRef := nextRef s; projects := f (projects s);
     deployingProjects := deployingProjects s; deployStatusMap := deployStatusMap s;
     newProject := newProject s; editingProject := editingProject s;
     showAddDialog := showAddDialog s; showEditDialog := showEditDialog s |}.

Definition set_deployingProjects (f : gmap string bool -> gmap string bool) (s : state) : state :=
  {| heap := heap s; nextRef := nextRef s; projects := projects s;
     deployingProjects := f (deployingProjects s); deployStatusMap := deployStatusMap s;
     newProject := newProject s; editingProject := editingProject s;
     showAddDialog := showAddDialog s; showEditDialog := showEditDialog s |}.

Definition set_deployStatusMap
    (f : gmap string DeployStatus -> gmap string DeployStatus) (s : state) : state :=
  {| heap := heap s; nextRef := nextRef s; projects := projects s;
     deployingProjects := deployingProjects s; deployStatusMap := f (deployStatusMap s);
     newProject := newProject s; editingProject := editingProject s;
     showAddDialog := showAddDialog s; showEditDialog := showEditDialog s |}.

(** [{ ...obj }] stored as a new object; returns its reference. *)
Definition alloc (p : ProjectConfig) (s : state) : nat * state :=
  (nextRef s,
   {| heap := <[nextRef s := p]> (heap s); nextRef := S (nextRef s); projects := projects s;
      deployingProjects := deployingProjects s; deployStatusMap := deployStatusMap s;
      newProject := newProject s; editingProject := editingProject s;
      showAddDialog := showAddDialog s; showEditDialog := showEditDialog s |}).

Definition set_forms (np : ProjectConfig) (ep : option ProjectConfig) (add edit : bool)
    (s : state) : state :=
  {| heap := heap s; nextRef := nextRef s; projects := projects s;
     deployingProjects := deployingProjects s; deployStatusMap := deployStatusMap s;
     newProject := np; editingProject := ep;
     showAddDialog := add; showEditDialog := edit |}.

(** The objects of [projects.value], in order: what [JSON.stringify]
    serialises. *)
Definition listed (s : state) : list ProjectConfig :=
  omap (fun r => heap s !! r) (projects s).

(** ** Effects

    What the script awaits ([call]) and what it reads synchronously from
    its environment ([query]).  An awaited promise may reject; a
    synchronous read does not throw. *)

Inductive exn : Type :=
| Error (message : string)      (* [new Error(message)] *)
| TypeError (message : string)  (* a property read on [null] or [undefined] *)
| Rejected (reason : string).   (* a promise rejected by the host *)

(** [`${error}`] *)
Definition render (e : exn) : string :=
  match e with
  | Error m => "Error: " ++ m
  | TypeError m => "TypeError: " ++ m
  | Rejected r => r
  end.

Record VersionInfo : Type := {
  vi_version : string;
  vi_previousVersion : option string;
  vi_updateTime : string;
  vi_projectName : string;
  vi_environment : environment
}.

(** [JSON.stringify(..., null, 2)] of the two values the script writes. *)
Inductive json : Type :=
| ProjectsJson (ps : list ProjectConfig)
| VersionJson (info : VersionInfo).

Record Output : Type := {
  code : Z;
  stderr : string
}.

Record TransferArgs : Type := {
  ta_projectName : string;
  ta_path : string;
  ta_env : environment;
  ta_host : string;
  ta_username : string;
  ta_password : string;
  ta_remotePath : string
}.

Inductive call : Type :=
| Message (text kind : string)                  (* [message(text, { type })] *)
| Ask (text title : string)                     (* [ask(text, { title, ... })] *)
| GetAppDir                                     (* [invoke('get_app_dir')] *)
| AppDataDir                                    (* [appDataDir()] *)
| Join (parts : list string)                    (* [join(...)] *)
| Exists (file : string)                        (* [exists(path)] *)
| CreateDir (dir : string)                      (* [createDir(dir, { recursive })] *)
| WriteTextFile (file : string) (data : json)   (* [writeTextFile(path, data)] *)
| Execute (program : string) (args : list string) (cwd : string)
                                                (* [new Command(...).execute()] *)
| DeployRemote (args : TransferArgs)            (* [invoke('deploy_project', ...)] *)
| RollbackRemote (args : TransferArgs).         (* [invoke('rollback_project', ...)] *)

Definition reply (c : call) : Type :=
  match c with
  | Message _ _ => unit
  | Ask _ _ => bool
  | GetAppDir => string
  | AppDataDir => string
  | Join _ => string
  | Exists _ => bool
  | CreateDir _ => unit
  | WriteTextFile _ _ => unit
  | Execute _ _ _ => Output
  | DeployRemote _ => unit
  | RollbackRemote _ => unit
  end.

Inductive query : Type :=
| Platform                                      (* [navigator.platform] *)
| NowISO                                        (* [new Date().toISOString()] *)
| DateNow                                       (* [Date.now().toString()] *)
| ConsoleError (label : string) (e : exn).      (* [console.error(label, e)] *)

Definition answer (q : query) : Type :=
  match q with
  | Platform => string
  | NowISO => string
  | DateNow => string
  | ConsoleError _ _ => unit
  end.

(** ** Programs

    An async function is a tree of synchronous state accesses, synchronous
    environment reads and awaited calls; [Throw] is a raised exception. *)

Inductive prog (A : Type) : Type :=
| Ret (a : A)
| Throw (e : exn)
| Get (k : state -> prog A)
| Put (s : state) (k : prog A)
| Env (q : query) (k : answer q -> prog A)
| Await (c : call) (k : reply c + exn -> prog A).

Arguments Ret {A} a.
Arguments Throw {A} e.
Arguments Get {A} k.
Arguments Put {A} s k.
Arguments Env {A} q k.
Arguments Await {A} c k.

Fixpoint bind {A B : Type} (p : prog A) (f : A -> prog B) : prog B :=
  match p with
  | Ret a => f a
  | Throw e => Throw e
  | Get k => Get (fun s => bind (k s) f)
  | Put s k => Put s (bind k f)
  | Env q k => Env q (fun x => bind (k x) f)
  | Await c k => Await c (fun r => bind (k r) f)
  end.

(** [try { p } catch (e) { h e }] *)
Fixpoint catch {A : Type} (p : prog A) (h : exn -> prog A) : prog A :=
  match p with
  | Ret a => Ret a
  | Throw e => h e
  | Get k => Get (fun s => catch (k s) h)
  | Put s k => Put s (catch k h)
  | Env q k => Env q (fun x => catch (k x) h)
  | Await c k => Await c (fun r => catch (k r) h)
  end.

(** [try { p } finally { f }]: [f] runs on both exits; an exception of [p]
    is raised again after it, unless [f] itself throws. *)
Fixpoint finally {A : Type} (p : prog A) (f : prog unit) : prog A :=
  match p with
  | Ret a => bind f (fun _ => Ret a)
  | Throw e => bind f (fun _ => Throw e)
  | Get k => Get (fun s => finally (k s) f)
  | Put s k => Put s (finally k f)
  | Env q k => Env q (fun x => finally (k x) f)
  | Await c k => Await c (fun r => finally (k r) f)
  end.

Declare Scope prog_scope.
Delimit Scope prog_scope with prog.
Bind Scope prog_scope with prog.

Notation "x <- p ;; q" := (bind p (fun x => q))
  (at level 100, p at next level, right associativity) : prog_scope.
Notation "p ;; q" := (bind p (fun _ => q))
  (at level 100, right associativity) : prog_scope.

Local Open Scope prog_scope.

(** [await c] *)
Definition await (c : call) : prog (reply c) :=
  Await c (fun r => match r with inl x => Ret x | inr e => Throw e end).

Definition ask (q : query) : prog (answer q) := Env q Ret.

Definition modify (f : state -> state) : prog unit :=
  Get (fun s => Put (f s) (Ret tt)).

(** Reading and writing through a project reference.  A reference handed
    to an operation always has its object; the [None] case only makes
    [deref] total. *)
Definition deref (r : nat) : prog ProjectConfig :=
  Get (fun s => match heap s !! r with
                | Some p => Ret p
                | None => Throw (TypeError "dangling reference")
                end).

Definition assign (r : nat) (f : ProjectConfig -> ProjectConfig) : prog unit :=
  p <- deref r ;; modify (set_heap <[r := f p]>).

(** ** The in-flight flag ([setProjectDeploying], [isProjectDeploying]) *)

Definition setProjectDeploying (projectId : string) (deploying : bool) : prog unit :=
  modify (set_deployingProjects <[projectId := deploying]>) ;;
  if negb deploying then modify (set_deployStatusMap (delete projectId)) else Ret tt.

Definition isProjectDeploying (s : state) (projectId : string) : bool :=
  default false (deployingProjects s !! projectId).

(** [deployStatusMap.value.set(project.id, { isDeploying: true, status })] *)
Definition setStatus (r : nat) (text : string) : prog unit :=
  p <- deref r ;;
  modify (set_deployStatusMap <[id p := {| isDeploying := true; status := text |}]>).

(** ** Build-command validation ([validateBuildCommand]) *)

(** [\w] *)
Definition is_word (c : ascii) : bool :=
  let n := N_of_ascii c in
  ((48 <=? n) && (n <=? 57) || (65 <=? n) && (n <=? 90) ||
   (97 <=? n) && (n <=? 122) || (n =? 95))%N.

(** [[\w:\-]] *)
Definition is_script_char (c : ascii) : bool :=
  is_word c || Ascii.eqb c ":" || Ascii.eqb c "-".

Fixpoint all_chars (f : ascii -> bool) (s : string) : bool :=
  match s with
  | String c s' => f c && all_chars f s'
  | EmptyString => true
  end.

(** [/^npm run [\w:\-]+$/.test(s)]: the literal prefix, then one or more
    class characters up to the end of the input. *)
Definition regex_test (s : string) : bool :=
  match Js.drop_prefix "npm run " s with
  | Some r => Js.truthy r && all_chars is_script_char r
  | None => false
  end.

Definition validateBuildCommand (command : option string) : bool :=
  if negb (Js.truthy_opt command) then true
  else regex_test (default "" command).

(** ** Saving a configuration ([saveProject], [saveEdit]) *)

(** [projects.value.findIndex(p => f p)] *)
Fixpoint findIndex (f : ProjectConfig -> bool) (h : gmap nat ProjectConfig)
    (refs : list nat) (i : nat) : option nat :=
  match refs with
  | [] => None
  | r :: refs' =>
      match h !! r with
      | Some p => if f p then Some i else findIndex f h refs' (S i)
      | None => findIndex f h refs' (S i)
      end
  end.

Definition persist (configPath : string) : prog unit :=
  Get (fun s => await (WriteTextFile configPath (ProjectsJson (listed s)))).

Definition saveProject : prog unit :=
  Get (fun s =>
  if negb (Js.truthy (name (newProject s))) || negb (Js.truthy (path (newProject s))) then
    await (Message "请填写项目名称并选择目录" "error")
  else if Js.truthy_opt (buildCommand (newProject s))
          && negb (validateBuildCommand (buildCommand (newProject s))) then
    await (Message "打包命令格式不正确，请使用 npm run xxx 格式" "error")
  else
    catch
      (appDir <- await GetAppDir ;;
       configPath <- await (Join [appDir; "config"; "projects.json"]) ;;
       configDir <- await (Join [appDir; "config"]) ;;
       dirExists <- await (Exists configDir) ;;
       (if negb dirExists then await (CreateDir configDir) else Ret tt) ;;
       stamp <- ask DateNow ;;
       modify (fun s => set_forms (with_id stamp (newProject s)) (editingProject s)
                          (showAddDialog s) (showEditDialog s) s) ;;
       Get (fun s =>
         let '(r, s') := alloc (newProject s) s in
         Put (set_projects (fun l => (l ++ [r])%list) s') (Ret tt)) ;;
       persist configPath ;;
       modify (fun s => set_forms blankProject (editingProject s) false (showEditDialog s) s) ;;
       await (Message "保存成功！" "info"))
      (fun error => await (Message ("保存失败：" ++ render error) "error"))).

Definition saveEdit : prog unit :=
  Get (fun s =>
  match editingProject s with
  | None => Ret tt
  | Some _ =>
    catch
      (appDir <- await GetAppDir ;;
       configPath <- await (Join [appDir; "config"; "projects.json"]) ;;
       Get (fun s =>
         match editingProject s with
         | Some ep =>
             match findIndex (fun p => String.eqb (id p) (id ep)) (heap s) (projects s) 0 with
             | Some index =>
                 let '(r, s') := alloc ep s in
                 Put (set_projects <[index := r]> s') (Ret tt)
             | None => Ret tt
             end
         | None =>
             match projects s with
             | [] => Ret tt
             | _ :: _ => Throw (TypeError "editingProject.value is null")
             end
         end) ;;
       persist configPath ;;
       modify (fun s => set_forms (newProject s) None (showAddDialog s) false s) ;;
       await (Message "修改成功！" "info"))
      (fun error => await (Message ("修改失败：" ++ render error) "error"))
  end).

(** ** Version bookkeeping *)

(** [`${major}.${minor}.${patch}`] *)
Definition triple (major minor patch : Js.number) : string :=
  Js.toString major ++ "." ++ Js.toString minor ++ "." ++ Js.toString patch.

(** The new version computed by [deployProject] from [project.version]. *)
Definition bumpPatch (v : string) : string :=
  let versionParts := Js.split "." v in
  let major := Js.parseInt (Js.or_default (versionParts !! 0%nat) "1") in
  let minor := Js.parseInt (Js.or_default (versionParts !! 1%nat) "0") in
  let patch := Js.succ (Js.parseInt (Js.or_default (versionParts !! 2%nat) "0")) in
  triple major minor patch.

(** The check and the re-rendering that [rollbackVersion] applies to
    [project.previousVersion]: [inr] carries the message of the error
    thrown. *)
Definition restoredVersion (prev : string) : string + string :=
  let prevVersionParts := Js.split "." prev in
  if negb (length prevVersionParts =? 3)%nat then inr "版本号格式错误"
  else
    let major := Js.parseInt (Js.or_default (prevVersionParts !! 0%nat) "1") in
    let minor := Js.parseInt (Js.or_default (prevVersionParts !! 1%nat) "0") in
    let patch := Js.parseInt (Js.or_default (prevVersionParts !! 2%nat) "0") in
    if Js.isNaN major || Js.isNaN minor || Js.isNaN patch then inr "版本号格式错误"
    else inl (triple major minor patch).

Definition versionInfo (p : ProjectConfig) (now : string) : VersionInfo :=
  {| vi_version := version p; vi_previousVersion := previousVersion p;
     vi_updateTime := now; vi_projectName := name p; vi_environment := env p |}.

(** The remote path is made to start with [/]. *)
Definition normalizedRemotePath (p : ProjectConfig) : string :=
  if Js.startsWith (remotePath (serverInfo p)) "/" then remotePath (serverInfo p)
  else "/" ++ remotePath (serverInfo p).

Definition transferArgs (p : ProjectConfig) : TransferArgs :=
  {| ta_projectName := name p; ta_path := path p; ta_env := env p;
     ta_host := host (serverInfo p); ta_username := username (serverInfo p);
     ta_password := password (serverInfo p); ta_remotePath := normalizedRemotePath p |}.

(** [version.json] next to the build output, then [projects.json] under
    the application data directory; a failure is logged and swallowed. *)
Definition writeManifest (r : nat) (info : VersionInfo) (label : string) : prog unit :=
  catch
    (p <- deref r ;;
     versionPath <- await (Join [path p; "version.json"]) ;;
     await (WriteTextFile versionPath (VersionJson info)) ;;
     appData <- await AppDataDir ;;
     configDir <- await (Join [appData; "config"]) ;;
     configPath <- await (Join [configDir; "projects.json"]) ;;
     persist configPath)
    (fun error => ask (ConsoleError label error)).

(** ** [deployProject] *)

(** The optional build step: [npm run <script>] in the project directory. *)
Definition runBuild (r : nat) : prog unit :=
  p <- deref r ;;
  match buildCommand p with
  | Some cmd =>
      if Js.truthy cmd then
        catch
          (setStatus r "正在执行打包命令..." ;;
           platform <- ask Platform ;;
           let npmCmd := if Js.includes "Win" platform then "npm-windows" else "npm" in
           output <- await (Execute npmCmd ["run"; Js.remove_first "npm run " cmd]
                                    (projectPath p)) ;;
           if negb (code output =? 0)%Z
           then Throw (Error (if Js.truthy (stderr output) then stderr output else "打包失败"))
           else Ret tt)
          (fun error => Throw (Error ("执行打包命令失败：" ++ render error)))
      else Ret tt
  | None => Ret tt
  end.

(** From the version bump to the upload. *)
Definition deployTransfer (r : nat) : prog unit :=
  setStatus r "正在准备文件..." ;;
  p <- deref r ;;
  assign r (with_previousVersion (Some (version p))) ;;
  assign r (with_version (bumpPatch (version p))) ;;
  now <- ask NowISO ;;
  p <- deref r ;;
  writeManifest r (versionInfo p now) "创建版本文件失败:" ;;
  setStatus r "正在上传文件..." ;;
  now <- ask NowISO ;;
  assign r (with_lastDeployTime (Some now)) ;;
  p <- deref r ;;
  await (DeployRemote (transferArgs p)) ;;
  setStatus r "发布完成".

Definition deployBody (r : nat) : prog unit :=
  p <- deref r ;;
  if negb (Js.truthy (remotePath (serverInfo p))) then
    await (Message "远程目录路径不能为空" "error")
  else
    setProjectDeploying (id p) true ;;
    setStatus r "准备发布..." ;;
    runBuild r ;;
    deployTransfer r.

Definition deployRecover (r : nat) (error : exn) : prog unit :=
  await (Message ("发布失败：" ++ render error) "error") ;;
  p <- deref r ;;
  (match previousVersion p with
   | Some prev => if Js.truthy prev then assign r (with_version prev) else Ret tt
   | None => Ret tt
   end) ;;
  setStatus r "发布失败".

(** The [finally] block of both operations. *)
Definition release (r : nat) : prog unit :=
  p <- deref r ;; setProjectDeploying (id p) false.

Definition deployProject (r : nat) : prog unit :=
  finally (catch (deployBody r) (deployRecover r)) (release r).

(** ** [rollbackVersion] *)

(** From the version swap to the final write of [projects.json]. *)
Definition rollbackTransfer (r : nat) (currentVersion v : string) : prog unit :=
  assign r (with_version v) ;;
  assign r (with_previousVersion (Some currentVersion)) ;;
  now <- ask NowISO ;;
  p <- deref r ;;
  writeManifest r (versionInfo p now) "更新版本文件失败:" ;;
  setStatus r "正在回滚文件..." ;;
  p <- deref r ;;
  await (RollbackRemote (transferArgs p)) ;;
  now <- ask NowISO ;;
  assign r (with_lastRollbackTime (Some now)) ;;
  appData <- await AppDataDir ;;
  configDir <- await (Join [appData; "config"]) ;;
  configPath <- await (Join [configDir; "projects.json"]) ;;
  persist configPath ;;
  setStatus r "回滚完成".

Definition rollbackBody (r : nat) : prog unit :=
  p <- deref r ;;
  setProjectDeploying (id p) true ;;
  setStatus r "准备回滚..." ;;
  p <- deref r ;;
  match previousVersion p with
  | None => Throw (Error "没有可回滚的版本")
  | Some prev =>
      if negb (Js.truthy prev) then Throw (Error "没有可回滚的版本")
      else
        let currentVersion := version p in
        match restoredVersion prev with
        | inr msg => Throw (Error msg)
        | inl v => rollbackTransfer r currentVersion v
        end
  end.

Definition rollbackRecover (r : nat) (error : exn) : prog unit :=
  await (Message ("回滚失败：" ++ render error) "error") ;;
  p <- deref r ;;
  (match previousVersion p with
   | Some prev =>
       if Js.truthy prev then
         let tempVersion := version p in
         assign r (with_version prev) ;;
         assign r (with_previousVersion (Some tempVersion))
       else Ret tt
   | None => Ret tt
   end) ;;
  setStatus r "回滚失败".

Definition rollbackVersion (r : nat) : prog unit :=
  confirmed <- await (Ask "确定要回滚到上一个版本吗？" "确认回滚") ;;
  if negb confirmed then Ret tt
  else
    finally (catch (rollbackBody r) (rollbackRecover r)) (release r).

(** ** Running a program

    The [world] fixes what the environment answers to the [n]-th event of a
    run.  A run returns the result, the final state and the trace: every
    event with the state the component was in when the event happened,
    which is the state a concurrently started handler would see. *)

Record world : Type := {
  respond : nat -> forall c : call, reply c + exn;
  tell : nat -> forall q : query, answer q
}.

Inductive event : Type :=
| Called (c : call)
| Asked (q : query).

Record obs : Type := {
  what : event;
  seen : state
}.

Fixpoint exec {A : Type} (w : world) (p : prog A) (s : state) (tr : list obs)
    : (A + exn) * state * list obs :=
  match p with
  | Ret a => (inl a, s, tr)
  | Throw e => (inr e, s, tr)
  | Get k => exec w (k s) s tr
  | Put s' k => exec w k s' tr
  | Env q k => exec w (k (tell w (length tr) q)) s (tr ++ [{| what := Asked q; seen := s |}])%list
  | Await c k =>
      exec w (k (respond w (length tr) c)) s (tr ++ [{| what := Called c; seen := s |}])%list
  end.

Definition run {A : Type} (w : world) (p : prog A) (s : state) :=
  exec w p s [].

Definition result_of {A : Type} (o : (A + exn) * state * list obs) : A + exn := fst (fst o).
Definition state_of {A : Type} (o : (A + exn) * state * list obs) : state := snd (fst o).
Definition trace_of {A : Type} (o : (A + exn) * state * list obs) : list obs := snd o.
Definition events_of {A : Type} (o : (A + exn) * state * list obs) : list event :=
  map what (snd o).

(** ** Overlapping handlers

    The event loop runs a handler up to its next [await], then any
    started handler whose awaited call has completed may continue.  A
    schedule says which handler is started and which is resumed. *)

Fixpoint run_sync (w : world) (p : prog unit) (s : state) (tr : list obs)
    : option (prog unit) * state * list obs :=
  match p with
  | Ret _ => (None, s, tr)
  | Throw _ => (None, s, tr)
  | Get k => run_sync w (k s) s tr
  | Put s' k => run_sync w k s' tr
  | Env q k => run_sync w (k (tell w (length tr) q)) s (tr ++ [{| what := Asked q; seen := s |}])%list
  | Await c k =>
      (Some (k (respond w (length tr) c)), s, (tr ++ [{| what := Called c; seen := s |}])%list)
  end.






(** ** Reasoning about all runs

    [wp w p s O Q]: in every run of [p] from [s] against [w], each event
    happens in a state that satisfies [O], and the run ends with a result
    and a state that satisfy [Q]. *)

Fixpoint wp {A : Type} (w : world) (p : prog A) (s : state)
    (O : event -> state -> Prop) (Q : A + exn -> state -> Prop) : Prop :=
  match p with
  | Ret a => Q (inl a) s
  | Throw e => Q (inr e) s
  | Get k => wp w (k s) s O Q
  | Put s' k => wp w k s' O Q
  | Env q k => O (Asked q) s /\ forall n, wp w (k (tell w n q)) s O Q
  | Await c k => O (Called c) s /\ forall n, wp w (k (respond w n c)) s O Q
  end.

Definition observed (O : event -> state -> Prop) (tr : list obs) : Prop :=
  Forall (fun o => O (what o) (seen o)) tr.

(** Events that stay on the operator's machine: path arithmetic, file
    writes and the console. *)
Definition local_event (ev : event) : bool :=
  match ev with
  | Called (Join _) | Called AppDataDir | Called (WriteTextFile _ _) => true
  | Asked (ConsoleError _ _) => true
  | _ => false
  end.

Definition is_transfer (ev : event) : bool :=
  match ev with
  | Called (DeployRemote _) | Called (RollbackRemote _) => true
  | _ => false
  end.

(** ** Assumptions on the collaborators *)

(** The message dialog does not fail. *)
Definition dialogs_ok (w : world) : Prop :=
  forall n text kind, respond w n (Message text kind) = inl tt.

(** The operator confirms every question. *)
Definition confirms (w : world) : Prop :=
  forall n text title, respond w n (Ask text title) = inl true.

Definition build_succeeds (w : world) : Prop :=
  forall n program args cwd,
    exists out, respond w n (Execute program args cwd) = inl out /\ code out = 0%Z.

(** The build exits with a non-zero code (or cannot be run at all). *)
Definition build_fails (w : world) : Prop :=
  forall n program args cwd,
    match respond w n (Execute program args cwd) with
    | inl out => code out <> 0%Z
    | inr _ => True
    end.

Definition upload_succeeds (w : world) : Prop :=
  forall n a, respond w n (DeployRemote a) = inl tt.

Definition upload_fails (w : world) : Prop :=
  forall n a, exists e, respond w n (DeployRemote a) = inr e.

Definition remote_rollback_succeeds (w : world) : Prop :=
  forall n a, respond w n (RollbackRemote a) = inl tt.

(** The configuration file can be located and written. *)
Definition files_ok (w : world) : Prop :=
  (forall n, exists d, respond w n AppDataDir = inl d)
  /\ (forall n parts, exists f, respond w n (Join parts) = inl f)
  /\ (forall n f data, respond w n (WriteTextFile f data) = inl tt).

(** A version as the script itself renders it: three decimal naturals. *)
Definition dotted (a b c : N) : string :=
  triple (Js.Int (Z.of_N a)) (Js.Int (Z.of_N b)) (Js.Int (Z.of_N c)).

(** ** Sample collaborators and projects *)

Definition ok_reply (c : call) : reply c + exn :=
  inl (match c return reply c with
       | Message _ _ => tt
       | Ask _ _ => true
       | GetAppDir => "/app"
       | AppDataDir => "/data"
       | Join parts => String.concat "/" parts
       | Exists _ => true
       | CreateDir _ => tt
       | WriteTextFile _ _ => tt
       | Execute _ _ _ => {| code := 0; stderr := "" |}
       | DeployRemote _ => tt
       | RollbackRemote _ => tt
       end).

Definition ok_tell (q : query) : answer q :=
  match q with
  | Platform => "Linux x86_64"
  | NowISO => "2024-05-06T07:08:09.000Z"
  | DateNow => "1714979289000"
  | ConsoleError _ _ => tt
  end.

(** Every collaborator succeeds. *)
Definition calm : world :=
  {| respond := fun _ => ok_reply; tell := fun _ => ok_tell |}.

(** The remote host refuses both transfers. *)
Definition offline : world :=
  {| respond := fun _ c =>
       match c return reply c + exn with
       | DeployRemote _ => inr (Rejected "connection refused")
       | RollbackRemote _ => inr (Rejected "connection refused")
       | c' => ok_reply c'
       end;
     tell := fun _ => ok_tell |}.

(** [npm run] exits with code 1. *)
Definition red_build : world :=
  {| respond := fun _ c =>
       match c return reply c + exn with
       | Execute _ _ _ => inl {| code := 1; stderr := "npm ERR!" |}
       | c' => ok_reply c'
       end;
     tell := fun _ => ok_tell |}.

Definition site (v : string) (prev : option string) (cmd : option string) (remote : string)
    : ProjectConfig :=
  {| id := "1714970000000"; name := "site"; path := "/work/site/dist";
     projectPath := "/work/site"; buildCommand := cmd; env := env_prod;
     version := v; previousVersion := prev; lastDeployTime := None;
     lastRollbackTime := None;
     serverInfo := {| host := "10.0.0.5"; username := "deploy"; password := "secret";
                      remotePath := remote |} |}.

(** A component with one project, nothing in flight, no dialog open. *)
Definition single (p : ProjectConfig) : state :=
  {| heap := {[ 0%nat := p ]}; nextRef := 1; projects := [0%nat];
     deployingProjects := ∅; deployStatusMap := ∅; newProject := blankProject;
     editingProject := None; showAddDialog := false; showEditDialog := false |}.

(** The project behind reference [r] after a run. *)
Definition project_after {A : Type} (o : (A + exn) * state * list obs) (r : nat)
    : option ProjectConfig :=
  heap (state_of o) !! r.

(** ** Vocabulary for the statements about [parseInt] and [split] *)

(** The value of a list of decimal digits, most significant first. *)
Definition value (ds : list N) : N := fold_left (fun a d => (10 * a + d)%N) ds 0%N.

(** What may follow the digits for [parseInt] to stop there: the end of
    the input, or a code unit that is not a decimal digit. *)
Definition stops (rest : string) : Prop :=
  match rest with
  | EmptyString => True
  | String c _ => Js.digit_val 10 c = None
  end.

(** The digits and what follows do not spell the prefix [0x]. *)
Definition not_hex (ds : list N) (rest : string) : Prop :=
  match ds, rest with
  | [0%N], String c _ => c <> "x"%char /\ c <> "X"%char
  | _, _ => True
  end.

(** [sep] does not occur in [s]. *)
Fixpoint free_of (sep : ascii) (s : string) : Prop :=
  match s with
  | EmptyString => True
  | String c s' => Ascii.eqb c sep = false /\ free_of sep s'
  end.


(** ** Vocabulary for the statements about [deployProject] and [rollbackVersion] *)

(** The project as [deployProject] leaves it just before the upload. *)
Definition bumped (p : ProjectConfig) (now : string) : ProjectConfig :=
  with_lastDeployTime (Some now)
    (with_version (bumpPatch (version p)) (with_previousVersion (Some (version p)) p)).

(** What the [catch] block of [deployProject] makes of a project. *)
Definition restore (q : ProjectConfig) : ProjectConfig :=
  match previousVersion q with
  | Some prev => if Js.truthy prev then with_version prev q else q
  | None => q
  end.

(** What the [catch] block of [rollbackVersion] makes of a project. *)
Definition swap_back (q : ProjectConfig) : ProjectConfig :=
  match previousVersion q with
  | Some prev =>
      if Js.truthy prev then with_previousVersion (Some (version q)) (with_version prev q)
      else q
  | None => q
  end.

(** The project as [rollbackVersion] leaves it just before the remote
    rollback. *)
Definition swapped (p : ProjectConfig) (v : string) : ProjectConfig :=
  with_previousVersion (Some (version p)) (with_version v p).

(** The outcome of the build step, as [runBuild] reads it. *)
Definition build_outcome (o : Output + exn) : unit + exn :=
  match o with
  | inl out =>
      if negb (code out =? 0)%Z
      then inr (Error ("执行打包命令失败：" ++
                       render (Error (if Js.truthy (stderr out) then stderr out
                                      else "打包失败"))))
      else inl tt
  | inr e => inr (Error ("执行打包命令失败：" ++ render e))
  end.





(** The calls of [rollbackVersion] whose failure reaches its [catch]
    block. *)
Definition rollback_step (c : call) : bool :=
  match c with
  | AppDataDir | Join _ | WriteTextFile _ _ | RollbackRemote _ => true
  | _ => false
  end.

(** The state in which [rollbackVersion] throws on a bad precondition,
    and the state its [catch] and [finally] blocks leave behind. *)
Definition rollback_started (p : ProjectConfig) (s : state) : state :=
  set_deployStatusMap <[id p := {| isDeploying := true; status := "准备回滚..." |}]>
    (set_deployingProjects <[id p := true]> s).

Definition rollback_failed (p : ProjectConfig) (s : state) : state :=
  set_deployStatusMap (delete (id p))
    (set_deployingProjects <[id p := false]>
       (set_deployStatusMap <[id p := {| isDeploying := true; status := "回滚失败" |}]> s)).

(** A version of three decimal naturals in the range where JavaScript
    numbers are exact. *)
Definition safe (n : N) : Prop := (Z.of_N n <= Js.MAX_SAFE_INTEGER)%Z.

Definition canonical (v : string) : Prop :=
  exists a b c, safe a /\ safe b /\ safe c /\ v = dotted a b c.

(** The edit dialog open on [ep] over a component that holds [p]. *)
Definition editing (p ep : ProjectConfig) : state :=
  set_forms blankProject (Some ep) false true (single p).

(** The add dialog filled with [np] over a component that holds [p]. *)
Definition adding (p np : ProjectConfig) : state :=
  set_forms np None true false (single p).

Arguments bumpPatch : simpl never.
Arguments restoredVersion : simpl never.
Arguments transferArgs : simpl never.
Arguments versionInfo : simpl never.
Arguments listed : simpl never.
Arguments validateBuildCommand : simpl never.

Definition is_message (ev : event) : bool :=
  match ev with
  | Called (Message _ _) => true
  | _ => false
  end.

(** A write of [projects.json], or a transfer. *)
Definition persists_or_transfers (ev : event) : bool :=
  match ev with
  | Called (WriteTextFile _ (ProjectsJson _)) => true
  | _ => is_transfer ev
  end.

(** ** The other handlers of the list ([openEditDialog], [deleteProject]) *)

(** [editingProject.value = { ...project }; showEditDialog.value = true].
    The copy is shallow in the source: the form shares the [serverInfo]
    object of the project.  No function of the script writes into a
    [serverInfo], so holding it by value agrees with the source for every
    program below. *)
Definition openEditDialog (r : nat) : prog unit :=
  p <- deref r ;;
  modify (fun s => set_forms (newProject s) (Some p) (showAddDialog s) true s).

(** [projects.value.filter(p => p.id !== i)] on the references. *)
Definition keepOthers (i : string) (h : gmap nat ProjectConfig) (refs : list nat) : list nat :=
  List.filter (fun r' => match h !! r' with
                         | Some q => negb (String.eqb (id q) i)
                         | None => false
                         end) refs.

Definition deleteProject (r : nat) : prog unit :=
  confirmed <- await (Ask "确定要删除该项目吗？" "确认删除") ;;
  if negb confirmed then Ret tt
  else
    catch
      (appDir <- await GetAppDir ;;
       configPath <- await (Join [appDir; "config"; "projects.json"]) ;;
       p <- deref r ;;
       modify (fun s => set_projects (keepOthers (id p) (heap s)) s) ;;
       persist configPath ;;
       await (Message "删除成功！" "info"))
      (fun error => await (Message ("删除失败：" ++ render error) "error")).

(** ** Vocabulary for the statements about what an operation touches *)

(** [q] is [p] up to the four fields that deploy and rollback write. *)
Definition same_config (q p : ProjectConfig) : Prop :=
  id q = id p /\ name q = name p /\ path q = path p /\ projectPath q = projectPath p
  /\ buildCommand q = buildCommand p /\ env q = env p /\ serverInfo q = serverInfo p.

(** Everything in [s] but the object behind [r] and the two guard entries
    of [i] is as in [s0]. *)
Definition untouched_elsewhere (r : nat) (i : string) (s0 s : state) : Prop :=
  projects s = projects s0 /\ nextRef s = nextRef s0
  /\ newProject s = newProject s0 /\ editingProject s = editingProject s0
  /\ showAddDialog s = showAddDialog s0 /\ showEditDialog s = showEditDialog s0
  /\ (forall r', r' <> r -> heap s !! r' = heap s0 !! r')
  /\ (forall j, j <> i ->
        deployingProjects s !! j = deployingProjects s0 !! j
        /\ deployStatusMap s !! j = deployStatusMap s0 !! j).

(** The state of an operation on the project [p] behind [r] that started
    in [s0]; [K] says which further fields the operation keeps. *)
Definition working_on (K : ProjectConfig -> ProjectConfig -> Prop)
    (r : nat) (p : ProjectConfig) (s0 s : state) : Prop :=
  untouched_elsewhere r (id p) s0 s
  /\ exists q, heap s !! r = Some q /\ same_config q p /\ K q p.

Definition keeps_lastRollbackTime (q p : ProjectConfig) : Prop :=
  lastRollbackTime q = lastRollbackTime p.

Definition keeps_lastDeployTime (q p : ProjectConfig) : Prop :=
  lastDeployTime q = lastDeployTime p.

(** The events a deploy of [p] can produce. *)
Definition deploy_event (p : ProjectConfig) (ev : event) : Prop :=
  match ev with
  | Called (Message _ _) => True
  | Called (Join _) | Called AppDataDir | Called (WriteTextFile _ _) => True
  | Called (Execute program args cwd) =>
      Js.truthy_opt (buildCommand p) = true
      /\ (program = "npm" \/ program = "npm-windows")
      /\ args = ["run"; Js.remove_first "npm run " (default "" (buildCommand p))]
      /\ cwd = projectPath p
  | Called (DeployRemote a) => a = transferArgs p
  | Asked Platform | Asked NowISO | Asked (ConsoleError _ _) => True
  | _ => False
  end.

(** The events a rollback of [p] can produce. *)
Definition rollback_event (p : ProjectConfig) (ev : event) : Prop :=
  match ev with
  | Called (Ask _ _) | Called (Message _ _) => True
  | Called (Join _) | Called AppDataDir | Called (WriteTextFile _ _) => True
  | Called (RollbackRemote a) => a = transferArgs p
  | Asked NowISO | Asked (ConsoleError _ _) => True
  | _ => False
  end.

(** [p] keeps [I] and produces only events of [E], whatever the
    collaborators answer. *)
Definition confined {A : Type} (p : prog A) (I : state -> Prop) (E : event -> Prop) : Prop :=
  forall w s, I s -> wp w p s (fun ev s' => E ev /\ I s') (fun _ s' => I s').

(** A second sample project and a component that holds two projects. *)
Definition blog : ProjectConfig :=
  {| id := "1714980000000"; name := "blog"; path := "/work/blog/public";
     projectPath := "/work/blog"; buildCommand := Some "npm run build:prod"; env := env_test;
     version := "2.3.4"; previousVersion := Some "2.3.3"; lastDeployTime := None;
     lastRollbackTime := None;
     serverInfo := {| host := "10.0.0.6"; username := "deploy"; password := "secret";
                      remotePath := "srv/blog" |} |}.

Definition couple (p1 p2 : ProjectConfig) : state :=
  {| heap := {[ 0%nat := p1; 1%nat := p2 ]}; nextRef := 2; projects := [0%nat; 1%nat];
     deployingProjects := ∅; deployStatusMap := ∅; newProject := blankProject;
     editingProject := None; showAddDialog := false; showEditDialog := false |}.

Definition is_execute (ev : event) : bool :=
  match ev with
  | Called (Execute _ _ _) => true
  | _ => false
  end.

(** A number in the range where JavaScript numbers are exact integers and
    are rendered in plain decimal. *)
Definition in_range (n : Js.number) : Prop :=
  match n with
  | Js.NaN => True
  | Js.Int z => (- Js.MAX_SAFE_INTEGER <= z <= Js.MAX_SAFE_INTEGER)%Z
  end.

(** The remote host refuses the rollback. *)
Definition remote_rollback_fails (w : world) : Prop :=
  forall n a, exists e, respond w n (RollbackRemote a) = inr e.

(** No file can be written. *)
Definition writes_fail (w : world) : Prop :=
  forall n f data, exists e, respond w n (WriteTextFile f data) = inr e.

(** The disk is read-only; everything else succeeds. *)
Definition read_only_disk : world :=
  {| respond := fun _ c =>
       match c return reply c + exn with
       | WriteTextFile _ _ => inr (Rejected "read-only file system")
       | c' => ok_reply c'
       end;
     tell := fun _ => ok_tell |}.

(** ** Vocabulary for the statements about the project list *)

(** Every reference of the list has its object and was handed out by
    [alloc]. *)
Definition well_formed (s : state) : Prop :=
  forall r, r ∈ projects s -> is_Some (heap s !! r) /\ (r < nextRef s)%nat.

(** The configuration directory can be located, probed and created. *)
Definition config_ok (w : world) : Prop :=
  (forall n, exists d, respond w n GetAppDir = inl d)
  /\ (forall n parts, exists f, respond w n (Join parts) = inl f)
  /\ (forall n d, exists b, respond w n (Exists d) = inl b)
  /\ (forall n d, respond w n (CreateDir d) = inl tt).

Definition writes_ok (w : world) : Prop :=
  forall n f data, respond w n (WriteTextFile f data) = inl tt.

(** A write of [projects.json]. *)
Definition is_projects_write (ev : event) : bool :=
  match ev with
  | Called (WriteTextFile _ (ProjectsJson _)) => true
  | _ => false
  end.

(** [q] is the first element of [l] with the id [i], at index [n]. *)
Definition first_with_id (i : string) (l : list ProjectConfig) (n : nat)
    (q : ProjectConfig) : Prop :=
  l !! n = Some q /\ id q = i
  /\ forall m q', (m < n)%nat -> l !! m = Some q' -> id q' <> i.

(** The project as [deployTransfer] has it when it writes the two files. *)
Definition bumped_on_disk (p : ProjectConfig) : ProjectConfig :=
  with_version (bumpPatch (version p)) (with_previousVersion (Some (version p)) p).

(** No question is answered with a yes: the operator declines, or the
    dialog fails. *)
Definition unconfirmed (w : world) : Prop :=
  forall n text title, respond w n (Ask text title) <> inl true.

(** The operator declines; everything else succeeds. *)
Definition hesitant : world :=
  {| respond := fun _ c =>
       match c return reply c + exn with
       | Ask _ _ => inl false
       | c' => ok_reply c'
       end;
     tell := fun _ => ok_tell |}.

(** [s'] is [s] after [np] was pushed behind a new reference. *)
Definition appended (np : ProjectConfig) (s s' : state) : Prop :=
  listed s' = (listed s ++ [np])%list /\ heap s' !! nextRef s = Some np
  /\ well_formed s'
  /\ editingProject s' = editingProject s /\ showEditDialog s' = showEditDialog s
  /\ deployingProjects s' = deployingProjects s /\ deployStatusMap s' = deployStatusMap s.

(** [s'] is [s] after the list update of [saveEdit] with the form [ep]. *)
Definition edited (ep : ProjectConfig) (s s' : state) : Prop :=
  (forall n q, first_with_id (id ep) (listed s) n q -> listed s' = <[n := ep]> (listed s))
  /\ ((forall q, q ∈ listed s -> id q <> id ep) -> listed s' = listed s)
  /\ well_formed s'
  /\ newProject s' = newProject s /\ showAddDialog s' = showAddDialog s
  /\ deployingProjects s' = deployingProjects s /\ deployStatusMap s' = deployStatusMap s
  /\ (forall r, (r < nextRef s)%nat -> heap s' !! r = heap s !! r).

(** Every write of [projects.json] in a trace carries the list as it is
    in memory at that moment. *)
Definition writes_the_list (tr : list obs) : Prop :=
  Forall (fun ob => forall f l, what ob = Called (WriteTextFile f (ProjectsJson l)) ->
                      l = listed (seen ob)) tr.

(** A filled add form. *)
Definition draft : ProjectConfig :=
  {| id := ""; name := "docs"; path := "/work/docs/dist"; projectPath := "/work/docs";
     buildCommand := Some "npm run build"; env := env_prod; version := "1.0.0";
     previousVersion := None; lastDeployTime := None; lastRollbackTime := None;
     serverInfo := {| host := "10.0.0.7"; username := "deploy"; password := "secret";
                      remotePath := "/srv/docs" |} |}.

(** The same form with a command that the validation refuses. *)
Definition tainted : ProjectConfig :=
  {| id := ""; name := "docs"; path := "/work/docs/dist"; projectPath := "/work/docs";
     buildCommand := Some "npm run build && rm -rf /"; env := env_prod; version := "1.0.0";
     previousVersion := None; lastDeployTime := None; lastRollbackTime := None;
     serverInfo := {| host := "10.0.0.7"; username := "deploy"; password := "secret";
                      remotePath := "/srv/docs" |} |}.

(** ** Vocabulary for the statements about what reaches [projects.json] *)

(** At a write of [projects.json] the data is the list in memory and the
    state satisfies [J]. *)
Definition written (J : state -> Prop) (ev : event) (st : state) : Prop :=
  forall f l, ev = Called (WriteTextFile f (ProjectsJson l)) -> l = listed st /\ J st.

(** ** The range in which the numbers of the model are the numbers of the script

    A JavaScript number is a double.  [Js.parseInt], [Js.succ] and
    [Js.toString] compute with integers, which agrees with the script as
    long as every number involved is [NaN] or an integer of absolute
    value at most 2^53 - 1 ([in_range]); beyond that the script rounds
    and, from 1e21, renders in exponent notation.  The statements about
    version strings are therefore made for versions whose components lie
    in that range. *)

(** The three numbers that [deployProject] and [rollbackVersion] read
    from a version string. *)
Definition readMajor (v : string) : Js.number :=
  Js.parseInt (Js.or_default (Js.split "." v !! 0%nat) "1").

Definition readMinor (v : string) : Js.number :=
  Js.parseInt (Js.or_default (Js.split "." v !! 1%nat) "0").

Definition readPatch (v : string) : Js.number :=
  Js.parseInt (Js.or_default (Js.split "." v !! 2%nat) "0").

(** The rollback check reads [v] within the exact range. *)
Definition reads_exactly (v : string) : Prop :=
  in_range (readMajor v) /\ in_range (readMinor v) /\ in_range (readPatch v).

(** The version bump reads and increments [v] within the exact range. *)
Definition bumps_exactly (v : string) : Prop :=
  reads_exactly v /\ in_range (Js.succ (readPatch v)).

(** How the script reads one component [o] of a split version: a missing
    or empty component counts as [baseline], any other is what [parseInt]
    makes of it, [NaN] included. *)
Definition reads (o : option string) (baseline : Z) (n : Js.number) : Prop :=
  match o with
  | None => n = Js.Int baseline
  | Some s => if Js.truthy s then n = Js.parseInt s else n = Js.Int baseline
  end.

(** The project behind [r] between the version bump of a deploy of [p]
    and the time stamp; the value of the new version is stated for a
    version that is bumped within the exact range. *)
Definition deploy_on_disk (r : nat) (p : ProjectConfig) (st : state) : Prop :=
  exists q, heap st !! r = Some q
    /\ previousVersion q = Some (version p)
    /\ lastDeployTime q = lastDeployTime p
    /\ (bumps_exactly (version p) -> version q = bumpPatch (version p)).

(** The project behind [r] after the version swap of a rollback of [p];
    the value of the restored version is stated for a previous version
    that is read within the exact range. *)
Definition rollback_on_disk (r : nat) (p : ProjectConfig) (st : state) : Prop :=
  exists prev q, previousVersion p = Some prev /\ prev <> ""
    /\ heap st !! r = Some q
    /\ previousVersion q = Some (version p)
    /\ (reads_exactly prev -> restoredVersion prev = inl (version q)).

(** ** Reasoning about the events of all runs

    [wpe w p s evs Q]: in every run of [p] from [s] against [w] that
    starts after the events [evs], the run ends with a result, a state
    and a list of all events so far that satisfy [Q]. *)

Fixpoint wpe {A : Type} (w : world) (p : prog A) (s : state) (evs : list event)
    (Q : A + exn -> state -> list event -> Prop) : Prop :=
  match p with
  | Ret a => Q (inl a) s evs
  | Throw e => Q (inr e) s evs
  | Get k => wpe w (k s) s evs Q
  | Put s' k => wpe w k s' evs Q
  | Env q k => forall n, wpe w (k (tell w n q)) s (evs ++ [Asked q])%list Q
  | Await c k => forall n, wpe w (k (respond w n c)) s (evs ++ [Called c])%list Q
  end.

(** A property of event lists that further events cannot undo. *)
Definition lasting (P : list event -> Prop) : Prop :=
  forall evs more, P evs -> P (evs ++ more)%list.

(** The build step of a deploy of [p] has been started. *)
Definition build_started (p : ProjectConfig) (evs : list event) : Prop :=
  exists program,
    (program = "npm" \/ program = "npm-windows")
    /\ Called (Execute program
                 ["run"; Js.remove_first "npm run " (default "" (buildCommand p))]
                 (projectPath p)) ∈ evs.

(** The steps of a deploy of [p]: the build, when the project has a
    build command, and the upload. *)
Definition deploy_performed (p : ProjectConfig) (evs : list event) : Prop :=
  (Js.truthy_opt (buildCommand p) = true -> build_started p evs)
  /\ Called (DeployRemote (transferArgs p)) ∈ evs.

(** The remote step of a rollback of [p]. *)
Definition rollback_performed (p : ProjectConfig) (evs : list event) : Prop :=
  Called (RollbackRemote (transferArgs p)) ∈ evs.

(** [projects.json] cannot be written. *)
Definition projects_writes_fail (w : world) : Prop :=
  forall n f l, exists e, respond w n (WriteTextFile f (ProjectsJson l)) = inr e.

(** [projects.json] cannot be written; everything else succeeds. *)
Definition locked_registry : world :=
  {| respond := fun _ c =>
       match c return reply c + exn with
       | WriteTextFile _ (ProjectsJson _) => inr (Rejected "file is locked")
       | c' => ok_reply c'
       end;
     tell := fun _ => ok_tell |}.
(** * Properties *)

(** ** Numbers and strings *)

Module JsFacts.
Import Js.

(** A digit value is one of ten numbers: facts about the characters of
    digits are checked case by case. *)
Ltac digit_cases d :=
  let Hd := fresh "Hd" in
  assert (Hd : In d [0; 1; 2; 3; 4; 5; 6; 7; 8; 9]%N) by (cbn; lia);
  cbn in Hd; intuition subst.

Lemma digit_val_char d : (d < 10)%N -> digit_val 10 (digit_char d) = Some d.
Proof.
  intros H. digit_cases d; reflexivity.
Qed.

Lemma digit_char_not_dot d : (d < 10)%N -> Ascii.eqb (digit_char d) "." = false.
Proof.
  intros H. digit_cases d; reflexivity.
Qed.

Lemma digit_char_plain d :
  (d < 10)%N ->
  is_space (digit_char d) = false
  /\ Ascii.eqb (digit_char d) "-" = false
  /\ Ascii.eqb (digit_char d) "+" = false
  /\ Ascii.eqb (digit_char d) "x" = false
  /\ Ascii.eqb (digit_char d) "X" = false
  /\ (Ascii.eqb (digit_char d) "0" = true -> d = 0%N).
Proof.
  intros H. digit_cases d; try reflexivity; try discriminate.
Qed.

Lemma le_digits_small f n : Forall (fun d => (d < 10)%N) (le_digits f n).
Proof.
  revert n. induction f as [|f IH]; intros n; cbn; [constructor|].
  constructor; [apply N.mod_lt; lia|].
  destruct (n <? 10)%N; [constructor|apply IH].
Qed.

Lemma le_digits_value f n :
  (n < 2 ^ N.of_nat f)%N ->
  fold_right (fun d a => (10 * a + d)%N) 0%N (le_digits f n) = n.
Proof.
  revert n. induction f as [|f IH]; intros n Hn.
  - cbn in *. lia.
  - cbn [le_digits fold_right]. destruct (n <? 10)%N eqn:E.
    + apply N.ltb_lt in E. cbn. rewrite N.mod_small; lia.
    + apply N.ltb_ge in E. rewrite IH.
      * pose proof (N.div_mod n 10). lia.
      * rewrite Nat2N.inj_succ, N.pow_succ_r' in Hn.
        apply N.Div0.div_lt_upper_bound. lia.
Qed.

Lemma le_digits_nonempty f n : le_digits (S f) n <> [].
Proof. discriminate. Qed.

Lemma log2_fuel n : (n < 2 ^ N.of_nat (S (N.to_nat (N.log2 n))))%N.
Proof.
  rewrite Nat2N.inj_succ, N2Nat.id.
  destruct (N.eq_dec n 0%N) as [->|Hn]; [reflexivity|].
  apply N.log2_spec. lia.
Qed.

Lemma append_cons c s r : String c s ++ r = String c (s ++ r).
Proof. reflexivity. Qed.

Lemma append_nil r : EmptyString ++ r = r.
Proof. reflexivity. Qed.

Lemma digits_cons d ds :
  string_of_digits (d :: ds) = String (digit_char d) (string_of_digits ds).
Proof. reflexivity. Qed.

Lemma scan_digits ds rest a :
  Forall (fun d => (d < 10)%N) ds ->
  scan 10 (string_of_digits ds ++ rest) (Some a)
  = scan 10 rest (Some (fold_left (fun a d => (10 * a + d)%N) ds a)).
Proof.
  intros H. revert a. induction H as [|d ds Hd _ IH]; intros a; [reflexivity|].
  rewrite digits_cons, append_cons. cbn [scan fold_left].
  rewrite (digit_val_char d Hd). cbn [default]. apply IH.
Qed.

Lemma scan_stops rest a : stops rest -> scan 10 rest a = a.
Proof. destruct rest as [|c rest]; cbn; [done|]. by intros ->. Qed.

Lemma parseInt_digits ds rest :
  ds <> [] -> Forall (fun d => (d < 10)%N) ds -> stops rest -> not_hex ds rest ->
  parseInt (string_of_digits ds ++ rest) = Int (Z.of_N (value ds)).
Proof.
  intros Hne Hall Hstop Hhex.
  destruct ds as [|d ds]; [done|].
  inversion Hall as [|? ? Hd Hds]; subst.
  destruct (digit_char_plain d Hd) as (Hsp & Hminus & Hplus & _ & _ & Hzero).
  assert (Hscan : scan 10 (string_of_digits (d :: ds) ++ rest) None
                  = Some (value (d :: ds))).
  { rewrite digits_cons, append_cons. cbn [scan].
    rewrite (digit_val_char d Hd). cbn [default].
    rewrite scan_digits by done. rewrite scan_stops by done. reflexivity. }
  assert (Hhp : hex_prefix (string_of_digits (d :: ds) ++ rest) = false).
  { rewrite digits_cons, append_cons. unfold hex_prefix.
    destruct ds as [|d2 ds].
    - rewrite append_nil. destruct rest as [|c rest]; [done|].
      destruct (Ascii.eqb (digit_char d) "0") eqn:E0; [|done].
      specialize (Hzero eq_refl). subst d. cbn in Hhex. destruct Hhex as [Hx HX].
      apply Ascii.eqb_neq in Hx, HX. by rewrite Hx, HX.
    - rewrite digits_cons, append_cons.
      inversion Hds as [|? ? Hd2 _]; subst.
      destruct (digit_char_plain d2 Hd2) as (_ & _ & _ & -> & -> & _).
      apply andb_false_r. }
  unfold parseInt. rewrite digits_cons, append_cons in *.
  cbn [skip_space]. rewrite Hsp. cbn [startsWith]. rewrite Hminus, Hplus.
  cbn [orb]. rewrite Hhp, Hscan. reflexivity.
Qed.

Lemma digits_spec n :
  exists ds, digits n = string_of_digits ds /\ ds <> [] /\ value ds = n
             /\ Forall (fun d => (d < 10)%N) ds /\ (n <> 0%N -> ds <> [0%N]).
Proof.
  exists (rev (le_digits (S (N.to_nat (N.log2 n))) n)). repeat split.
  - intros H. apply (f_equal (@rev N)) in H. rewrite rev_involutive in H. discriminate.
  - unfold value. rewrite <- fold_left_rev_right, rev_involutive.
    apply le_digits_value, log2_fuel.
  - apply Forall_rev, le_digits_small.
  - intros Hn H. pose proof (le_digits_value _ _ (log2_fuel n)) as Hv.
    apply (f_equal (@rev N)) in H. rewrite rev_involutive in H. rewrite H in Hv.
    cbn in Hv. lia.
Qed.

Lemma parseInt_decimal n rest :
  stops rest ->
  (n = 0%N -> forall c r, rest = String c r -> c <> "x"%char /\ c <> "X"%char) ->
  parseInt (digits n ++ rest) = Int (Z.of_N n).
Proof.
  intros Hstop Hhex. destruct (digits_spec n) as (ds & -> & Hne & <- & Hall & Hz).
  apply parseInt_digits; try done.
  unfold not_hex. destruct ds as [|[|?] [|? ?]]; try done.
  destruct rest as [|c r]; [done|]. by apply (Hhex eq_refl c r).
Qed.

Lemma append_empty s : s ++ "" = s.
Proof. induction s as [|c s IH]; [done|]. by rewrite append_cons, IH. Qed.

Lemma parseInt_digits_exact n : parseInt (digits n) = Int (Z.of_N n).
Proof.
  rewrite <- (append_empty (digits n)). apply parseInt_decimal; [done|]. discriminate.
Qed.

Lemma truthy_digits n : truthy (digits n) = true.
Proof. destruct (digits_spec n) as ([|d ds] & -> & Hne & _); done. Qed.

Lemma toString_nat n : toString (Int (Z.of_N n)) = digits n.
Proof.
  unfold toString. destruct (Z.ltb_spec (Z.of_N n) 0); [lia|]. by rewrite N2Z.id.
Qed.

Lemma split_nonempty sep s : split sep s <> [].
Proof.
  induction s as [|c s IH]; cbn; [done|].
  destruct (Ascii.eqb c sep); [done|]. by destruct (split sep s).
Qed.

Lemma split_free sep s : free_of sep s -> split sep s = [s].
Proof.
  induction s as [|c s IH]; cbn; [done|]. intros [-> H]. by rewrite IH.
Qed.

Lemma split_app sep s1 s2 :
  free_of sep s1 -> split sep (s1 ++ String sep s2) = s1 :: split sep s2.
Proof.
  induction s1 as [|c s1 IH]; intros H.
  - rewrite append_nil. cbn. by rewrite Ascii.eqb_refl.
  - destruct H as [Hc H]. rewrite append_cons. cbn. rewrite Hc, IH by done. done.
Qed.

Lemma digits_free n : free_of "." (digits n).
Proof.
  destruct (digits_spec n) as (ds & -> & _ & _ & Hall & _).
  induction Hall as [|d ds Hd _ IH]; [done|].
  rewrite digits_cons. split; [by apply digit_char_not_dot|done].
Qed.

Lemma split_dotted a b c :
  split "." (digits a ++ "." ++ digits b ++ "." ++ digits c) = [digits a; digits b; digits c].
Proof.
  change (split "." (digits a ++ String "." (digits b ++ String "." (digits c)))
          = [digits a; digits b; digits c]).
  rewrite split_app by apply digits_free. rewrite split_app by apply digits_free.
  by rewrite split_free by apply digits_free.
Qed.
End JsFacts.

Import JsFacts.

Lemma dotted_eq a b c :
  dotted a b c = Js.digits a ++ "." ++ Js.digits b ++ "." ++ Js.digits c.
Proof. unfold dotted, triple. by rewrite !toString_nat. Qed.

Lemma bumpPatch_dotted a b c : bumpPatch (dotted a b c) = dotted a b (c + 1).
Proof.
  unfold bumpPatch. rewrite dotted_eq, split_dotted. cbn [lookup list_lookup].
  unfold Js.or_default. rewrite !truthy_digits, !parseInt_digits_exact.
  cbn [Js.succ]. rewrite dotted_eq. unfold triple. rewrite !toString_nat.
  replace (Z.of_N c + 1)%Z with (Z.of_N (c + 1)) by lia. by rewrite toString_nat.
Qed.

Lemma restoredVersion_dotted a b c : restoredVersion (dotted a b c) = inl (dotted a b c).
Proof.
  unfold restoredVersion. rewrite dotted_eq, split_dotted. cbn [length Nat.eqb negb lookup list_lookup].
  unfold Js.or_default. rewrite !truthy_digits, !parseInt_digits_exact.
  cbn [Js.isNaN orb]. unfold triple. by rewrite !toString_nat.
Qed.

(** ** Rules for [wp] *)

Section Rules.
Context (w : world).

Lemma wp_exec {A} (p : prog A) s O Q tr :
  wp w p s O Q -> observed O tr ->
  Q (result_of (exec w p s tr)) (state_of (exec w p s tr))
  /\ observed O (trace_of (exec w p s tr)).
Proof.
  revert s tr. induction p as [a|e|k IH|s' k IH|q k IH|c k IH]; intros s tr Hwp Htr; cbn in *.
  - auto.
  - auto.
  - apply IH; auto.
  - apply IH; auto.
  - destruct Hwp as [HO Hk]. apply IH; [apply Hk|].
    apply Forall_app; split; [done|]. by repeat constructor.
  - destruct Hwp as [HO Hk]. apply IH; [apply Hk|].
    apply Forall_app; split; [done|]. by repeat constructor.
Qed.

Lemma wp_run {A} (p : prog A) s O Q :
  wp w p s O Q ->
  Q (result_of (run w p s)) (state_of (run w p s)) /\ observed O (trace_of (run w p s)).
Proof. intros H. apply wp_exec; [done|constructor]. Qed.

Lemma wp_mono {A} (p : prog A) s O (Q Q' : A + exn -> state -> Prop) :
  wp w p s O Q -> (forall r s', Q r s' -> Q' r s') -> wp w p s O Q'.
Proof.
  revert s. induction p as [a|e|k IH|s' k IH|q k IH|c k IH]; intros s0 Hwp HQ; cbn in *;
    try (destruct Hwp; split); eauto.
Qed.


Lemma wp_bind {A B} (p : prog A) (f : A -> prog B) s O Q :
  wp w p s O (fun r s' => match r with
                          | inl a => wp w (f a) s' O Q
                          | inr e => Q (inr e) s'
                          end) ->
  wp w (bind p f) s O Q.
Proof.
  revert s. induction p as [a|e|k IH|s' k IH|q k IH|c k IH]; intros s0 Hwp; cbn in *;
    try (destruct Hwp; split); eauto.
Qed.

Lemma wp_catch {A} (p : prog A) (h : exn -> prog A) s O Q :
  wp w p s O (fun r s' => match r with
                          | inl a => Q (inl a) s'
                          | inr e => wp w (h e) s' O Q
                          end) ->
  wp w (catch p h) s O Q.
Proof.
  revert s. induction p as [a|e|k IH|s' k IH|q k IH|c k IH]; intros s0 Hwp; cbn in *;
    try (destruct Hwp; split); eauto.
Qed.

Lemma wp_finally {A} (p : prog A) (f : prog unit) s O Q :
  wp w p s O (fun r s' =>
    wp w f s' O (fun r2 s'' => match r2 with
                               | inl _ => Q r s''
                               | inr e2 => Q (inr e2) s''
                               end)) ->
  wp w (finally p f) s O Q.
Proof.
  revert s. induction p as [a|e|k IH|s' k IH|q k IH|c k IH]; intros s0 Hwp; cbn in *;
    try (destruct Hwp; split); eauto.
  - apply wp_bind. eapply wp_mono; [exact Hwp|]. intros [[]|e2] s'; cbn; auto.
  - apply wp_bind. eapply wp_mono; [exact Hwp|]. intros [[]|e2] s'; cbn; auto.
Qed.

Lemma wp_await (c : call) s O (Q : reply c + exn -> state -> Prop) :
  O (Called c) s -> (forall n, Q (respond w n c) s) -> wp w (await c) s O Q.
Proof. intros HO HQ. split; [done|]. intros n. specialize (HQ n). by destruct (respond w n c). Qed.

Lemma wp_ask (q : query) s O (Q : answer q + exn -> state -> Prop) :
  O (Asked q) s -> (forall n, Q (inl (tell w n q)) s) -> wp w (ask q) s O Q.
Proof. intros HO HQ. split; [done|]. intros n. apply HQ. Qed.

Lemma wp_modify f s O (Q : unit + exn -> state -> Prop) :
  Q (inl tt) (f s) -> wp w (modify f) s O Q.
Proof. done. Qed.

Lemma wp_deref r p s O (Q : ProjectConfig + exn -> state -> Prop) :
  heap s !! r = Some p -> Q (inl p) s -> wp w (deref r) s O Q.
Proof. intros H HQ. cbn. by rewrite H. Qed.

Lemma wp_assign r f p s O (Q : unit + exn -> state -> Prop) :
  heap s !! r = Some p -> Q (inl tt) (set_heap <[r := f p]> s) -> wp w (assign r f) s O Q.
Proof. intros H HQ. cbn. by rewrite H. Qed.

Lemma wp_setStatus r text p s O (Q : unit + exn -> state -> Prop) :
  heap s !! r = Some p ->
  Q (inl tt) (set_deployStatusMap <[id p := {| isDeploying := true; status := text |}]> s) ->
  wp w (setStatus r text) s O Q.
Proof. intros H HQ. cbn. by rewrite H. Qed.

Lemma wp_setProjectDeploying i (b : bool) s O (Q : unit + exn -> state -> Prop) :
  Q (inl tt) (if b then set_deployingProjects <[i := true]> s
              else set_deployStatusMap (delete i) (set_deployingProjects <[i := false]> s)) ->
  wp w (setProjectDeploying i b) s O Q.
Proof. destruct b; done. Qed.
Lemma wp_try {A} (body : prog A) handler fin s O (Qb Q : A + exn -> state -> Prop) :
  wp w body s O Qb ->
  (forall a s', Qb (inl a) s' ->
     wp w fin s' O (fun r2 s'' => match r2 with
                                  | inl _ => Q (inl a) s''
                                  | inr e2 => Q (inr e2) s''
                                  end)) ->
  (forall e s', Qb (inr e) s' ->
     wp w (handler e) s' O (fun r1 s'' =>
       wp w fin s'' O (fun r2 s3 => match r2 with
                                    | inl _ => Q r1 s3
                                    | inr e2 => Q (inr e2) s3
                                    end))) ->
  wp w (finally (catch body handler) fin) s O Q.
Proof.
  intros Hbody Hfin Hhandler. apply wp_finally, wp_catch.
  eapply wp_mono; [exact Hbody|]. intros [a|e] s' HQb; cbv beta iota; auto.
Qed.
End Rules.

Ltac solve_heap :=
  cbn [heap set_heap set_deployStatusMap set_deployingProjects set_projects];
  rewrite ?lookup_insert_eq; first [eassumption | reflexivity].

Ltac wp_step :=
  lazymatch goal with
  | |- wp _ (bind _ _) _ _ _ => apply wp_bind
  | |- wp _ (catch _ _) _ _ _ => apply wp_catch
  | |- wp _ (finally _ _) _ _ _ => apply wp_finally
  | |- wp _ (deref _) _ _ _ => eapply wp_deref; [solve_heap|]
  | |- wp _ (assign _ _) _ _ _ => eapply wp_assign; [solve_heap|]
  | |- wp _ (setStatus _ _) _ _ _ => eapply wp_setStatus; [solve_heap|]
  | |- wp _ (setProjectDeploying _ _) _ _ _ => apply wp_setProjectDeploying
  | |- wp _ (modify _) _ _ _ => apply wp_modify
  | |- wp _ (Ret _) _ _ _ => cbn [wp]
  | |- wp _ (Throw _) _ _ _ => cbn [wp]
  end; cbv beta iota.

Lemma wp_persist w f s O (Q : unit + exn -> state -> Prop) :
  O (Called (WriteTextFile f (ProjectsJson (listed s)))) s ->
  (forall n, Q (respond w n (WriteTextFile f (ProjectsJson (listed s)))) s) ->
  wp w (persist f) s O Q.
Proof. intros HO HQ. unfold persist. cbn [wp]. by apply wp_await. Qed.

Lemma wp_writeManifest w r info label p s O (Q : unit + exn -> state -> Prop) :
  heap s !! r = Some p ->
  (forall ev, local_event ev = true -> O ev s) ->
  Q (inl tt) s ->
  wp w (writeManifest r info label) s O Q.
Proof.
  intros H HO HQ. unfold writeManifest.
  assert (Hh : forall e, wp w (ask (ConsoleError label e)) s O Q).
  { intros e. apply wp_ask; [by apply HO|]. intros n. by destruct (tell w n _). }
  wp_step. wp_step. wp_step.
  wp_step. apply wp_await; [by apply HO|]. intros n1. destruct (respond w n1 _) as [versionPath|e]; [|apply Hh].
  wp_step. apply wp_await; [by apply HO|]. intros n2. destruct (respond w n2 _) as [[]|e]; [|apply Hh].
  wp_step. apply wp_await; [by apply HO|]. intros n3. destruct (respond w n3 _) as [appData|e]; [|apply Hh].
  wp_step. apply wp_await; [by apply HO|]. intros n4. destruct (respond w n4 _) as [configDir|e]; [|apply Hh].
  wp_step. apply wp_await; [by apply HO|]. intros n5. destruct (respond w n5 _) as [configPath|e]; [|apply Hh].
  apply wp_persist; [by apply HO|]. intros n6. destruct (respond w n6 _) as [[]|e]; [done|apply Hh].
Qed.


(** ** The two ways of running a program agree

    A handler run up to its next [await] and then resumed until it ends
    goes through the states and events of the uninterrupted run. *)

Lemma run_sync_exec w (p : prog unit) s tr :
  (state_of (exec w p s tr), trace_of (exec w p s tr))
  = match run_sync w p s tr with
    | (None, s1, tr1) => (s1, tr1)
    | (Some q, s1, tr1) => (state_of (exec w q s1 tr1), trace_of (exec w q s1 tr1))
    end.
Proof.
  revert s tr. induction p as [a|e|k IH|s' k IH|q k IH|c k IH]; intros s tr; cbn;
    try reflexivity; auto.
Qed.

Example parseInt_samples :
  Js.parseInt "12" = Js.Int 12 /\ Js.parseInt "1x" = Js.Int 1 /\
  Js.parseInt "007" = Js.Int 7 /\ Js.parseInt "x1" = Js.NaN /\
  Js.parseInt "" = Js.NaN /\ Js.parseInt " -3" = Js.Int (-3) /\
  Js.parseInt "0x1f" = Js.Int 31 /\ Js.parseInt "0x" = Js.NaN.
Proof. repeat split; reflexivity. Qed.

Example toString_samples :
  Js.toString (Js.Int 0) = "0" /\ Js.toString (Js.Int 1024) = "1024" /\
  Js.toString (Js.Int (-15)) = "-15" /\ Js.toString Js.NaN = "NaN".
Proof. repeat split; reflexivity. Qed.

Example split_samples :
  Js.split "." "1.0.0" = ["1"; "0"; "0"] /\ Js.split "." "" = [""] /\
  Js.split "." "1..2" = ["1"; ""; "2"] /\ Js.split "." "1.0." = ["1"; "0"; ""].
Proof. repeat split; reflexivity. Qed.

Example validateBuildCommand_samples :
  validateBuildCommand (Some "npm run build:prod") = true
  /\ validateBuildCommand (Some "rm -rf /") = false
  /\ validateBuildCommand (Some "") = true
  /\ validateBuildCommand None = true
  /\ validateBuildCommand (Some "npm run ") = false
  /\ validateBuildCommand (Some "npm run a b") = false.
Proof. repeat split; reflexivity. Qed.

(** ** The phases of [deployProject] *)


Ltac solve_state :=
  cbn [heap projects deployingProjects deployStatusMap
       set_heap set_deployStatusMap set_deployingProjects set_projects] in *;
  rewrite ?lookup_insert_eq; first [eassumption | reflexivity | congruence].

Lemma wp_deployTransfer w r p s O (Q : unit + exn -> state -> Prop) :
  heap s !! r = Some p ->
  (forall ev s', deployingProjects s' = deployingProjects s -> O ev s') ->
  (forall s' k n a,
      deployingProjects s' = deployingProjects s ->
      projects s' = projects s ->
      heap s' !! r = Some (bumped p (tell w k NowISO)) ->
      Q (respond w n (DeployRemote a)) s') ->
  wp w (deployTransfer r) s O Q.
Proof.
  intros H HO HQ. unfold deployTransfer.
  do 2 wp_step. do 2 wp_step. do 2 wp_step. do 2 wp_step.
  wp_step. apply wp_ask; [by apply HO|]. intros n0. cbv beta iota.
  do 2 wp_step. wp_step.
  eapply wp_writeManifest; [solve_heap| intros; by apply HO |].
  do 2 wp_step. wp_step. apply wp_ask; [by apply HO|]. intros n1. cbv beta iota.
  do 2 wp_step. do 2 wp_step. wp_step.
  apply wp_await; [by apply HO|]. intros n2.
  match goal with |- context [respond w n2 (DeployRemote ?a)] =>
    assert (HQ' := fun s' => HQ s' n1 n2 a);
    destruct (respond w n2 (DeployRemote a)) as [[]|e]
  end.
  - wp_step. eapply HQ'; solve_state.
  - eapply HQ'; solve_state.
Qed.

Lemma wp_deployRecover w r q s e O (Q : unit + exn -> state -> Prop) :
  heap s !! r = Some q ->
  O (Called (Message ("发布失败：" ++ render e) "error")) s ->
  (forall n,
      match respond w n (Message ("发布失败：" ++ render e) "error") with
      | inl _ => forall s', deployingProjects s' = deployingProjects s ->
                            projects s' = projects s ->
                            heap s' !! r = Some (restore q) -> Q (inl tt) s'
      | inr e' => Q (inr e') s
      end) ->
  wp w (deployRecover r e) s O Q.
Proof.
  intros H HO HQ. unfold deployRecover.
  wp_step. apply wp_await; [done|]. intros n. specialize (HQ n).
  destruct (respond w n _) as [[]|e']; [|done].
  do 2 wp_step. wp_step. unfold restore in HQ.
  destruct (previousVersion q) as [prev|].
  - destruct (Js.truthy prev).
    + wp_step. wp_step. apply HQ; solve_state.
    + wp_step. wp_step. apply HQ; solve_state.
  - wp_step. wp_step. apply HQ; solve_state.
Qed.

Lemma wp_runBuild w r p s O (Q : unit + exn -> state -> Prop) :
  heap s !! r = Some p ->
  (Js.truthy_opt (buildCommand p) = false -> Q (inl tt) s) ->
  (forall s', Js.truthy_opt (buildCommand p) = true ->
      deployingProjects s' = deployingProjects s -> projects s' = projects s ->
      heap s' = heap s ->
      (forall ev, is_transfer ev = false -> O ev s')
      /\ forall n program args cwd,
           Q (build_outcome (respond w n (Execute program args cwd))) s') ->
  wp w (runBuild r) s O Q.
Proof.
  intros H Hskip Hrun. unfold runBuild. do 2 wp_step.
  destruct (buildCommand p) as [cmd|]; [|wp_step; by apply Hskip].
  destruct (Js.truthy cmd) eqn:Hcmd; [|wp_step; by apply Hskip].
  edestruct Hrun as [HO HQ]; [done| | | |].
  4: { wp_step. do 2 wp_step. wp_step. apply wp_ask; [by apply HO|]. intros n0.
       cbv beta iota.
       wp_step. apply wp_await; [by apply HO|]. intros n.
       match goal with |- context [respond w n ?c] =>
         specialize (HQ n _ _ _ : Q (build_outcome (respond w n c)) _);
         destruct (respond w n c) as [out|e]
       end.
       - cbn [build_outcome] in HQ. destruct (negb (code out =? 0)%Z); wp_step; exact HQ.
       - wp_step. exact HQ. }
  all: solve_state.
Qed.

Lemma wp_deployBody_built w r p s (Q : unit + exn -> state -> Prop) :
  heap s !! r = Some p ->
  Js.truthy (remotePath (serverInfo p)) = true ->
  build_succeeds w ->
  (forall s' k n a,
      deployingProjects s' = <[id p := true]> (deployingProjects s) ->
      projects s' = projects s ->
      heap s' !! r = Some (bumped p (tell w k NowISO)) ->
      Q (respond w n (DeployRemote a)) s') ->
  wp w (deployBody r) s (fun _ _ => True) Q.
Proof.
  intros H Hremote Hbuild HQ. unfold deployBody.
  do 2 wp_step. rewrite Hremote. cbn [negb].
  do 2 wp_step. do 2 wp_step. wp_step.
  eapply wp_runBuild; [solve_heap| |].
  - intros _. eapply wp_deployTransfer; [solve_heap|done|].
    intros s' k n a H1 H2 H3. apply HQ with k; [by rewrite H1|by rewrite H2|done].
  - intros s1 _ H1 H2 H3. split; [done|]. intros n program args cwd.
    destruct (Hbuild n program args cwd) as (out & -> & Hcode).
    cbn [build_outcome]. rewrite Hcode. cbn [Z.eqb negb].
    eapply wp_deployTransfer; [rewrite H3; solve_heap|done|].
    intros s' k n' a H1' H2' H3'.
    apply HQ with k; [by rewrite H1', H1|by rewrite H2', H2|done].
Qed.

Lemma wp_release w r q s O (Q : unit + exn -> state -> Prop) :
  heap s !! r = Some q ->
  Q (inl tt) (set_deployStatusMap (delete (id q)) (set_deployingProjects <[id q := false]> s)) ->
  wp w (release r) s O Q.
Proof. intros H HQ. unfold release. do 2 wp_step. by wp_step. Qed.

Lemma id_bumped p now : id (bumped p now) = id p.
Proof. reflexivity. Qed.


(** A deploy that gets past the build: the project just before the upload
    is [bumped]; a successful upload leaves it so, a failed one is
    followed by the [catch] block. *)
Lemma deploy_after_good_build w s r p :
  heap s !! r = Some p ->
  Js.truthy (remotePath (serverInfo p)) = true ->
  build_succeeds w ->
  wp w (deployProject r) s (fun _ _ => True)
    (fun res s' =>
       projects s' = projects s /\
       exists k,
         (upload_succeeds w ->
            res = inl tt /\ heap s' !! r = Some (bumped p (tell w k NowISO))) /\
         (upload_fails w -> dialogs_ok w ->
            res = inl tt /\ heap s' !! r = Some (restore (bumped p (tell w k NowISO))))).
Proof.
  intros H Hremote Hbuild. unfold deployProject.
  wp_step. wp_step. apply wp_deployBody_built with p; try done.
  intros s' k n a H1 H2 H3.
  destruct (respond w n (DeployRemote a)) as [[]|e] eqn:E.
  - eapply wp_release; [done|]. split; [solve_state|].
    exists k. split; [intros _; split; [done|solve_state]|].
    intros Hf. destruct (Hf n a) as [e He]. congruence.
  - eapply wp_deployRecover; [done|done|]. intros n'.
    destruct (respond w n' _) as [[]|e'] eqn:E'.
    + intros s2 G1 G2 G3. eapply wp_release; [done|]. split; [solve_state|].
      exists k. split; [|intros _ _; split; [done|solve_state]].
      intros Hs. rewrite Hs in E. discriminate.
    + eapply wp_release; [done|]. split; [solve_state|].
      exists k. split.
      * intros Hs. rewrite Hs in E. discriminate.
      * intros _ Hd. rewrite Hd in E'. discriminate.
Qed.

(** A failed build: no transfer is attempted, and the [catch] block is
    applied to the project as it was before the call. *)
Lemma deploy_after_failed_build w s r p :
  heap s !! r = Some p ->
  Js.truthy (remotePath (serverInfo p)) = true ->
  Js.truthy_opt (buildCommand p) = true ->
  build_fails w -> dialogs_ok w ->
  wp w (deployProject r) s (fun ev _ => is_transfer ev = false)
    (fun res s' =>
       res = inl tt /\ projects s' = projects s /\ heap s' !! r = Some (restore p)).
Proof.
  intros H Hremote Hcmd Hbuild Hdialog. unfold deployProject, deployBody.
  wp_step. wp_step.
  do 2 wp_step. rewrite Hremote. cbn [negb].
  do 2 wp_step. do 2 wp_step. wp_step.
  eapply wp_runBuild; [solve_heap|congruence|].
  intros s1 _ H1 H2 H3. split; [done|]. intros n program args cwd.
  assert (Hfail : exists e, build_outcome (respond w n (Execute program args cwd)) = inr e).
  { specialize (Hbuild n program args cwd).
    destruct (respond w n (Execute program args cwd)) as [out|e]; cbn [build_outcome].
    - apply Z.eqb_neq in Hbuild. rewrite Hbuild. cbn [negb]. eauto.
    - eauto. }
  destruct Hfail as [e ->].
  eapply wp_deployRecover; [rewrite H3; solve_heap|done|].
  intros n'. rewrite Hdialog. intros s2 G1 G2 G3.
  eapply wp_release; [done|]. repeat split; solve_state.
Qed.

(** ** The in-flight flag during an operation *)







(** ** The phases of [rollbackVersion] *)

Ltac failed_at E :=
  lazymatch goal with
  | Hfail : context [rollback_step] |- _ =>
      eapply Hfail; [| | | |exact E|reflexivity];
      [solve_state|solve_state|solve_state|reflexivity]
  end.

Lemma wp_rollbackTransfer w r p s v O (Q : unit + exn -> state -> Prop) :
  heap s !! r = Some p ->
  (forall ev s', deployingProjects s' = deployingProjects s -> O ev s') ->
  (forall s' e q n c,
      deployingProjects s' = deployingProjects s -> projects s' = projects s ->
      heap s' !! r = Some q -> id q = id p ->
      respond w n c = inr e ->
      rollback_step c = true ->
      Q (inr e) s') ->
  (forall s' k,
      deployingProjects s' = deployingProjects s -> projects s' = projects s ->
      heap s' !! r = Some (with_lastRollbackTime (Some (tell w k NowISO)) (swapped p v)) ->
      Q (inl tt) s') ->
  wp w (rollbackTransfer r (version p) v) s O Q.
Proof.
  intros H HO Hfail Hok. unfold rollbackTransfer.
  do 2 wp_step. do 2 wp_step.
  wp_step. apply wp_ask; [by apply HO|]. intros n0. cbv beta iota.
  do 2 wp_step. wp_step.
  eapply wp_writeManifest; [solve_heap| intros; by apply HO |].
  do 2 wp_step. do 2 wp_step. wp_step.
  apply wp_await; [by apply HO|]. intros n1.
  destruct (respond w n1 _) as [[]|e] eqn:E1.
  2: { failed_at E1. }
  wp_step. apply wp_ask; [by apply HO|]. intros n2. cbv beta iota.
  do 2 wp_step.
  wp_step. apply wp_await; [by apply HO|]. intros n3.
  destruct (respond w n3 _) as [appData|e] eqn:E3.
  2: { failed_at E3. }
  wp_step. apply wp_await; [by apply HO|]. intros n4.
  destruct (respond w n4 _) as [configDir|e] eqn:E4.
  2: { failed_at E4. }
  wp_step. apply wp_await; [by apply HO|]. intros n5.
  destruct (respond w n5 _) as [configPath|e] eqn:E5.
  2: { failed_at E5. }
  wp_step. apply wp_persist; [by apply HO|]. intros n6.
  destruct (respond w n6 _) as [[]|e] eqn:E6.
  2: { failed_at E6. }
  wp_step. eapply (Hok _ n2); solve_state.
Qed.

Lemma wp_rollbackRecover w r q s e O (Q : unit + exn -> state -> Prop) :
  heap s !! r = Some q ->
  O (Called (Message ("回滚失败：" ++ render e) "error")) s ->
  (forall n,
      match respond w n (Message ("回滚失败：" ++ render e) "error") with
      | inl _ => forall s', deployingProjects s' = deployingProjects s ->
                            projects s' = projects s ->
                            heap s' !! r = Some (swap_back q) -> Q (inl tt) s'
      | inr e' => Q (inr e') s
      end) ->
  wp w (rollbackRecover r e) s O Q.
Proof.
  intros H HO HQ. unfold rollbackRecover.
  wp_step. apply wp_await; [done|]. intros n. specialize (HQ n).
  destruct (respond w n _) as [[]|e']; [|done].
  do 2 wp_step. wp_step. unfold swap_back in HQ.
  destruct (previousVersion q) as [prev|].
  - destruct (Js.truthy prev).
    + wp_step. wp_step. wp_step. wp_step. apply HQ; solve_state.
    + wp_step. wp_step. apply HQ; solve_state.
  - wp_step. wp_step. apply HQ; solve_state.
Qed.


(** A confirmed rollback whose collaborators all succeed. *)
Lemma rollback_success w s r p prev v :
  heap s !! r = Some p ->
  previousVersion p = Some prev -> Js.truthy prev = true ->
  restoredVersion prev = inl v ->
  confirms w -> files_ok w -> remote_rollback_succeeds w ->
  wp w (rollbackVersion r) s (fun _ _ => True)
    (fun res s' =>
       res = inl tt /\ projects s' = projects s /\
       exists k, heap s' !! r
                 = Some (with_lastRollbackTime (Some (tell w k NowISO)) (swapped p v))).
Proof.
  intros H Hprev Htruthy Hv Hask (Hdir & Hjoin & Hwrite) Hremote. unfold rollbackVersion.
  wp_step. apply wp_await; [done|]. intros n0. rewrite Hask. cbn [negb].
  wp_step. wp_step. unfold rollbackBody.
  do 2 wp_step. do 2 wp_step. do 2 wp_step. do 2 wp_step.
  rewrite Hprev, Htruthy, Hv. cbn [negb].
  eapply wp_rollbackTransfer; [solve_heap|done| |].
  - intros s' e q n c _ _ _ _ E Hc. exfalso.
    destruct c; try discriminate Hc.
    + destruct (Hdir n) as [d Hd]. congruence.
    + destruct (Hjoin n parts) as [f Hf]. congruence.
    + rewrite Hwrite in E. discriminate.
    + rewrite Hremote in E. discriminate.
  - intros s' k G1 G2 G3. eapply wp_release; [done|].
    repeat split; [solve_state|]. exists k. solve_state.
Qed.





(** ** Rejected calls, step by step *)

(** The whole run of a deploy that is rejected for its empty remote
    path. *)
Lemma deploy_empty_remotePath w s r p :
  heap s !! r = Some p -> Js.truthy (remotePath (serverInfo p)) = false ->
  dialogs_ok w ->
  run w (deployProject r) s =
   (inl tt,
    set_deployStatusMap (delete (id p)) (set_deployingProjects <[id p := false]> s),
    [{| what := Called (Message "远程目录路径不能为空" "error"); seen := s |}]).
Proof.
  intros H E D. unfold run, deployProject, deployBody, release.
  cbn. rewrite H. cbn. rewrite E. cbn. rewrite D. cbn. rewrite H. reflexivity.
Qed.

Lemma rollback_no_previous w s r p :
  heap s !! r = Some p -> Js.truthy_opt (previousVersion p) = false ->
  confirms w -> dialogs_ok w ->
  run w (rollbackVersion r) s =
   (inl tt, rollback_failed p (rollback_started p s),
    [{| what := Called (Ask "确定要回滚到上一个版本吗？" "确认回滚"); seen := s |};
     {| what := Called (Message "回滚失败：Error: 没有可回滚的版本" "error");
        seen := rollback_started p s |}]).
Proof.
  intros H E C D. unfold run, rollbackVersion, rollbackBody, release.
  cbn. rewrite C. cbn. rewrite H. cbn. rewrite H. cbn. rewrite H. cbn.
  destruct (previousVersion p) as [prev|] eqn:Ep; cbn in E.
  - rewrite E. cbn. rewrite D. cbn. rewrite H. cbn. rewrite Ep, E. cbn.
    rewrite H. cbn. rewrite H. reflexivity.
  - cbn. rewrite D. cbn. rewrite H. cbn. rewrite Ep. cbn.
    rewrite H. cbn. rewrite H. reflexivity.
Qed.

Lemma rollback_malformed w s r p prev msg :
  heap s !! r = Some p ->
  previousVersion p = Some prev -> Js.truthy prev = true ->
  restoredVersion prev = inr msg ->
  confirms w -> dialogs_ok w ->
  let o := run w (rollbackVersion r) s in
  result_of o = inl tt
  /\ events_of o = [Called (Ask "确定要回滚到上一个版本吗？" "确认回滚");
                    Called (Message ("回滚失败：Error: " ++ msg) "error")]
  /\ project_after o r = Some (swap_back p)
  /\ projects (state_of o) = projects s.
Proof.
  intros H Ep Et Ev C D. unfold run, rollbackVersion, rollbackBody, release.
  cbn. rewrite C. cbn. rewrite H. cbn. rewrite H. cbn. rewrite H. cbn.
  rewrite Ep, Et. cbn. rewrite Ev. cbn. rewrite D. cbn. rewrite H. cbn.
  rewrite Ep, Et. cbn. rewrite H. cbn. rewrite !lookup_insert_eq. cbn.
  rewrite !lookup_insert_eq. cbn. rewrite !lookup_insert_eq. cbn.
  unfold project_after, swap_back. cbn. rewrite Ep, Et, !lookup_insert_eq.
  repeat split.
Qed.

(** ** Build-command validation and the two save paths *)

Lemma drop_prefix_Some pre s r : Js.drop_prefix pre s = Some r <-> s = pre ++ r.
Proof.
  revert s. induction pre as [|a pre IH]; intros s.
  - rewrite append_nil. cbn. destruct s; split; congruence.
  - rewrite append_cons. destruct s as [|b s]; cbn; [split; discriminate|].
    destruct (Ascii.eqb_spec a b) as [->|Hne].
    + rewrite IH. split; [by intros ->|by intros [= ->]].
    + split; [discriminate|]. intros [= -> _]. done.
Qed.

Lemma truthy_nonempty s : Js.truthy s = true <-> s <> "".
Proof. destruct s; cbn; split; congruence. Qed.

Lemma regex_test_spec s :
  regex_test s = true <->
  exists script, s = "npm run " ++ script /\ script <> ""
                 /\ all_chars is_script_char script = true.
Proof.
  unfold regex_test. split.
  - destruct (Js.drop_prefix "npm run " s) as [r|] eqn:E; [|discriminate].
    intros [Ht Hc]%andb_true_iff. exists r. repeat split; [|by apply truthy_nonempty|done].
    by apply drop_prefix_Some.
  - intros (script & -> & Hne & Hc).
    assert (E : Js.drop_prefix "npm run " ("npm run " ++ script) = Some script)
      by by apply drop_prefix_Some.
    rewrite E. apply andb_true_iff. split; [by apply truthy_nonempty|done].
Qed.

(** [validateBuildCommand] accepts exactly an absent or empty command and
    [npm run <script>] with a non-empty script name made of word
    characters, colons and hyphens. *)
Lemma validateBuildCommand_spec cmd :
  validateBuildCommand cmd = true <->
  cmd = None \/ cmd = Some ""
  \/ exists script, cmd = Some ("npm run " ++ script) /\ script <> ""
                    /\ all_chars is_script_char script = true.
Proof.
  unfold validateBuildCommand. destruct cmd as [[|c s]|]; cbn [Js.truthy_opt Js.truthy negb].
  - split; auto.
  - change (default "" (Some (String c s))) with (String c s).
    rewrite regex_test_spec. split.
    + intros (script & E & H). right. right. exists script. by rewrite E.
    + intros [Hc|[Hc|(script & Hc & Hs)]]; try discriminate.
      exists script. split; [congruence|done].
  - split; auto.
Qed.

Lemma is_script_char_spec c :
  is_script_char c = true <-> is_word c = true \/ c = ":"%char \/ c = "-"%char.
Proof.
  unfold is_script_char. rewrite !orb_true_iff, !Ascii.eqb_eq. tauto.
Qed.

(** [saveProject] with a non-empty command that fails validation: one
    error message, and the state stays as it was. *)
Lemma saveProject_rejects w s cmd :
  Js.truthy (name (newProject s)) = true ->
  Js.truthy (path (newProject s)) = true ->
  buildCommand (newProject s) = Some cmd -> Js.truthy cmd = true ->
  validateBuildCommand (Some cmd) = false ->
  state_of (run w saveProject s) = s
  /\ events_of (run w saveProject s)
     = [Called (Message "打包命令格式不正确，请使用 npm run xxx 格式" "error")].
Proof.
  intros Hn Hp Hc Ht Hv. unfold run, saveProject.
  cbn [exec]. rewrite Hn, Hp, Hc. cbn [negb orb Js.truthy_opt]. rewrite Ht, Hv.
  cbn [negb andb]. cbn.
  by destruct (respond w 0 _) as [[]|e].
Qed.

(** * What the operations touch *)

(** ** Rules for [confined] *)

Section Confined.
Context {I : state -> Prop} {E : event -> Prop}.

Lemma confined_ret {A} (a : A) : confined (Ret a) I E.
Proof. by intros w s HI. Qed.

Lemma confined_throw {A} (e : exn) : confined (@Throw A e) I E.
Proof. by intros w s HI. Qed.

Lemma confined_bind {A B} (p : prog A) (f : A -> prog B) :
  confined p I E -> (forall a, confined (f a) I E) -> confined (bind p f) I E.
Proof.
  intros Hp Hf w s HI. apply wp_bind. eapply wp_mono; [by apply Hp|].
  intros [a|e] s' HI'; [by apply Hf|done].
Qed.

Lemma confined_catch {A} (p : prog A) (h : exn -> prog A) :
  confined p I E -> (forall e, confined (h e) I E) -> confined (catch p h) I E.
Proof.
  intros Hp Hh w s HI. apply wp_catch. eapply wp_mono; [by apply Hp|].
  intros [a|e] s' HI'; [done|by apply Hh].
Qed.

Lemma confined_finally {A} (p : prog A) (f : prog unit) :
  confined p I E -> confined f I E -> confined (finally p f) I E.
Proof.
  intros Hp Hf w s HI. apply wp_finally. eapply wp_mono; [by apply Hp|].
  intros res s' HI'. eapply wp_mono; [by apply Hf|]. by intros [[]|e2] s'' HI''.
Qed.

Lemma confined_await (c : call) : E (Called c) -> confined (await c) I E.
Proof. intros HE w s HI. by apply wp_await. Qed.

Lemma confined_ask (q : query) : E (Asked q) -> confined (ask q) I E.
Proof. intros HE w s HI. by apply wp_ask. Qed.

Lemma confined_modify (f : state -> state) :
  (forall s, I s -> I (f s)) -> confined (modify f) I E.
Proof. intros Hf w s HI. apply wp_modify. by apply Hf. Qed.

Lemma confined_get {A} (k : state -> prog A) :
  (forall s, I s -> confined (k s) I E) -> confined (Get k) I E.
Proof. intros Hk w s HI. cbn [wp]. by apply Hk. Qed.

Lemma confined_persist (f : string) :
  (forall ps, E (Called (WriteTextFile f (ProjectsJson ps)))) -> confined (persist f) I E.
Proof. intros HE. apply confined_get. intros s _. by apply confined_await. Qed.

(** Reading the project: the continuation may rely on what [I] says of
    the object behind [r]. *)
Lemma confined_deref {A} (J : ProjectConfig -> Prop) (r : nat) (k : ProjectConfig -> prog A) :
  (forall s, I s -> exists q, heap s !! r = Some q /\ J q) ->
  (forall q, J q -> confined (k q) I E) ->
  confined (bind (deref r) k) I E.
Proof.
  intros HJ Hk w s HI. destruct (HJ s HI) as (q & Hq & Hjq).
  apply wp_bind. eapply wp_deref; [exact Hq|]. by apply Hk.
Qed.
End Confined.

(** ** Operations on one project *)

Section WorkingOn.
Context (K : ProjectConfig -> ProjectConfig -> Prop) (r : nat) (p : ProjectConfig)
        (s0 : state) (E : event -> Prop).

Local Abbreviation I := (working_on K r p s0).

Lemma working_on_start : heap s0 !! r = Some p -> K p p -> I s0.
Proof.
  intros H HK. split; [by repeat split|]. exists p. by repeat split.
Qed.

Lemma working_on_flag s b : I s -> I (set_deployingProjects <[id p := b]> s).
Proof.
  intros [(H1 & H2 & H3 & H4 & H5 & H6 & H7 & H8) Hq]. split; [|exact Hq].
  repeat split; try done.
  - cbn. rewrite lookup_insert_ne by done. by apply H8.
  - by apply H8.
Qed.

Lemma working_on_status s (f : gmap string DeployStatus -> gmap string DeployStatus) :
  (forall m j, j <> id p -> f m !! j = m !! j) ->
  I s -> I (set_deployStatusMap f s).
Proof.
  intros Hf [(H1 & H2 & H3 & H4 & H5 & H6 & H7 & H8) Hq]. split; [|exact Hq].
  repeat split; try done.
  - by apply H8.
  - cbn. rewrite Hf by done. by apply H8.
Qed.

Lemma working_on_assign s q' :
  same_config q' p -> K q' p -> I s -> I (set_heap <[r := q']> s).
Proof.
  intros Hc HK [(H1 & H2 & H3 & H4 & H5 & H6 & H7 & H8) Hq]. split.
  - repeat split; try done; try by apply H8.
    intros r' Hr. cbn. rewrite lookup_insert_ne by done. by apply H7.
  - exists q'. cbn. by rewrite lookup_insert_eq.
Qed.

Lemma working_on_deref s :
  I s -> exists q, heap s !! r = Some q /\ (same_config q p /\ K q p).
Proof. intros [_ (q & Hq & Hc & HK)]. eauto. Qed.

Lemma confined_setProjectDeploying i b :
  i = id p -> confined (setProjectDeploying i b) I E.
Proof.
  intros ->. unfold setProjectDeploying. apply confined_bind.
  - apply confined_modify. intros s. apply working_on_flag.
  - intros _. destruct b; cbn [negb]; [apply confined_ret|].
    apply confined_modify. intros s. apply working_on_status.
    intros m j Hj. by apply lookup_delete_ne.
Qed.

Lemma confined_setStatus text : confined (setStatus r text) I E.
Proof.
  unfold setStatus. eapply confined_deref; [apply working_on_deref|].
  intros q [(Hid & _) _]. apply confined_modify. intros s. apply working_on_status.
  intros m j Hj. rewrite Hid. by apply lookup_insert_ne.
Qed.

Lemma confined_assign (f : ProjectConfig -> ProjectConfig) :
  (forall q, same_config q p -> K q p -> same_config (f q) p /\ K (f q) p) ->
  confined (assign r f) I E.
Proof.
  intros Hf. unfold assign. eapply confined_deref; [apply working_on_deref|].
  intros q [Hc HK]. apply confined_modify. intros s.
  destruct (Hf q Hc HK). by apply working_on_assign.
Qed.

Lemma confined_release : confined (release r) I E.
Proof.
  unfold release. eapply confined_deref; [apply working_on_deref|].
  intros q [(Hid & _) _]. by apply confined_setProjectDeploying.
Qed.

Lemma confined_writeManifest info label :
  (forall ev, local_event ev = true -> E ev) ->
  confined (writeManifest r info label) I E.
Proof.
  intros HE. unfold writeManifest. apply confined_catch.
  - eapply confined_deref; [apply working_on_deref|]. intros q _.
    apply confined_bind; [by apply confined_await, HE|]. intros versionPath.
    apply confined_bind; [by apply confined_await, HE|]. intros _.
    apply confined_bind; [by apply confined_await, HE|]. intros appData.
    apply confined_bind; [by apply confined_await, HE|]. intros configDir.
    apply confined_bind; [by apply confined_await, HE|]. intros configPath.
    apply confined_persist. intros ps. by apply HE.
  - intros e. by apply confined_ask, HE.
Qed.
End WorkingOn.

(** ** [deployProject] and [rollbackVersion] stay on their project *)

Lemma transferArgs_same q p : same_config q p -> transferArgs q = transferArgs p.
Proof.
  intros (_ & Hn & Hp & _ & _ & He & Hs).
  unfold transferArgs, normalizedRemotePath. by rewrite Hn, Hp, He, Hs.
Qed.

Lemma same_config_with_version v q p : same_config q p -> same_config (with_version v q) p.
Proof. done. Qed.

Lemma same_config_with_previousVersion v q p :
  same_config q p -> same_config (with_previousVersion v q) p.
Proof. done. Qed.

Lemma same_config_with_lastDeployTime v q p :
  same_config q p -> same_config (with_lastDeployTime v q) p.
Proof. done. Qed.

Lemma same_config_with_lastRollbackTime v q p :
  same_config q p -> same_config (with_lastRollbackTime v q) p.
Proof. done. Qed.

Section Deploy.
Context (r : nat) (p : ProjectConfig) (s0 : state).

Local Abbreviation I := (working_on keeps_lastRollbackTime r p s0).
Local Abbreviation E := (deploy_event p).

Lemma confined_runBuild : confined (runBuild r) I E.
Proof.
  unfold runBuild. eapply confined_deref; [apply working_on_deref|].
  intros q [Hc HK]. destruct Hc as (Hid & Hn & Hp & Hpp & Hb & He & Hs).
  destruct (buildCommand q) as [cmd|] eqn:Hcmd; [|apply confined_ret].
  destruct (Js.truthy cmd) eqn:Ht; [|apply confined_ret].
  apply confined_catch; [|intros e; apply confined_throw].
  apply confined_bind; [apply confined_setStatus|]. intros _.
  apply confined_bind; [by apply confined_ask|]. intros platform. cbv zeta.
  apply confined_bind.
  - apply confined_await. cbn [deploy_event]. rewrite <- Hb, <- Hpp. cbn [Js.truthy_opt default].
    repeat split; [done|]. destruct (Js.includes "Win" platform); auto.
  - intros output. destruct (negb _); [apply confined_throw|apply confined_ret].
Qed.

Lemma confined_deployTransfer : confined (deployTransfer r) I E.
Proof.
  unfold deployTransfer.
  apply confined_bind; [apply confined_setStatus|]. intros _.
  eapply confined_deref; [apply working_on_deref|]. intros q _.
  apply confined_bind; [by apply confined_assign|]. intros _.
  apply confined_bind; [by apply confined_assign|]. intros _.
  apply confined_bind; [by apply confined_ask|]. intros now.
  eapply confined_deref; [apply working_on_deref|]. intros q1 _.
  apply confined_bind.
  { apply confined_writeManifest. intros [[]|[]]; try discriminate; done. }
  intros _.
  apply confined_bind; [apply confined_setStatus|]. intros _.
  apply confined_bind; [by apply confined_ask|]. intros now'.
  apply confined_bind; [by apply confined_assign|]. intros _.
  eapply confined_deref; [apply working_on_deref|]. intros q2 [Hc _].
  apply confined_bind; [|intros _; apply confined_setStatus].
  apply confined_await. cbn [deploy_event]. by apply transferArgs_same.
Qed.

Lemma confined_deployRecover e : confined (deployRecover r e) I E.
Proof.
  unfold deployRecover.
  apply confined_bind; [by apply confined_await|]. intros _.
  eapply confined_deref; [apply working_on_deref|]. intros q _.
  apply confined_bind; [|intros _; apply confined_setStatus].
  destruct (previousVersion q) as [prev|]; [|apply confined_ret].
  destruct (Js.truthy prev); [|apply confined_ret].
  by apply confined_assign.
Qed.

Lemma confined_deployProject : confined (deployProject r) I E.
Proof.
  unfold deployProject.
  apply confined_finally; [|apply confined_release].
  apply confined_catch; [|apply confined_deployRecover].
  unfold deployBody. eapply confined_deref; [apply working_on_deref|].
  intros q [(Hid & _) _].
  destruct (negb _); [by apply confined_await|].
  apply confined_bind; [by apply confined_setProjectDeploying|]. intros _.
  apply confined_bind; [apply confined_setStatus|]. intros _.
  apply confined_bind; [apply confined_runBuild|]. intros _.
  apply confined_deployTransfer.
Qed.
End Deploy.

Section Rollback.
Context (r : nat) (p : ProjectConfig) (s0 : state).

Local Abbreviation I := (working_on keeps_lastDeployTime r p s0).
Local Abbreviation E := (rollback_event p).

Lemma confined_rollbackTransfer cur v : confined (rollbackTransfer r cur v) I E.
Proof.
  unfold rollbackTransfer.
  apply confined_bind; [by apply confined_assign|]. intros _.
  apply confined_bind; [by apply confined_assign|]. intros _.
  apply confined_bind; [by apply confined_ask|]. intros now.
  eapply confined_deref; [apply working_on_deref|]. intros q1 _.
  apply confined_bind.
  { apply confined_writeManifest. intros [[]|[]]; try discriminate; done. }
  intros _.
  apply confined_bind; [apply confined_setStatus|]. intros _.
  eapply confined_deref; [apply working_on_deref|]. intros q2 [Hc _].
  apply confined_bind.
  { apply confined_await. cbn [rollback_event]. by apply transferArgs_same. }
  intros _.
  apply confined_bind; [by apply confined_ask|]. intros now'.
  apply confined_bind; [by apply confined_assign|]. intros _.
  apply confined_bind; [by apply confined_await|]. intros appData.
  apply confined_bind; [by apply confined_await|]. intros configDir.
  apply confined_bind; [by apply confined_await|]. intros configPath.
  apply confined_bind; [by apply confined_persist|]. intros _.
  apply confined_setStatus.
Qed.

Lemma confined_rollbackRecover e : confined (rollbackRecover r e) I E.
Proof.
  unfold rollbackRecover.
  apply confined_bind; [by apply confined_await|]. intros _.
  eapply confined_deref; [apply working_on_deref|]. intros q _.
  apply confined_bind; [|intros _; apply confined_setStatus].
  destruct (previousVersion q) as [prev|]; [|apply confined_ret].
  destruct (Js.truthy prev); [|apply confined_ret]. cbv zeta.
  apply confined_bind; [by apply confined_assign|]. intros _.
  by apply confined_assign.
Qed.

Lemma confined_rollbackVersion : confined (rollbackVersion r) I E.
Proof.
  unfold rollbackVersion.
  apply confined_bind; [by apply confined_await|]. intros confirmed.
  destruct (negb confirmed); [apply confined_ret|].
  apply confined_finally; [|apply confined_release].
  apply confined_catch; [|apply confined_rollbackRecover].
  unfold rollbackBody. eapply confined_deref; [apply working_on_deref|].
  intros q [(Hid & _) _].
  apply confined_bind; [by apply confined_setProjectDeploying|]. intros _.
  apply confined_bind; [apply confined_setStatus|]. intros _.
  eapply confined_deref; [apply working_on_deref|]. intros q1 _.
  destruct (previousVersion q1) as [prev|]; [|apply confined_throw].
  destruct (negb _); [apply confined_throw|]. cbv zeta.
  destruct (restoredVersion prev) as [v|msg]; [|apply confined_throw].
  apply confined_rollbackTransfer.
Qed.
End Rollback.

(** ** Rules for [wpe] *)

Section History.
Context (w : world).

Lemma wpe_exec {A} (p : prog A) s tr Q :
  wpe w p s (map what tr) Q ->
  Q (result_of (exec w p s tr)) (state_of (exec w p s tr)) (events_of (exec w p s tr)).
Proof.
  revert s tr. induction p as [a|e|k IH|s' k IH|q k IH|c k IH]; intros s tr Hwp; cbn in *.
  - done.
  - done.
  - by apply IH.
  - by apply IH.
  - apply IH. rewrite map_app. apply Hwp.
  - apply IH. rewrite map_app. apply Hwp.
Qed.

Lemma wpe_run {A} (p : prog A) s Q :
  wpe w p s [] Q ->
  Q (result_of (run w p s)) (state_of (run w p s)) (events_of (run w p s)).
Proof. apply (wpe_exec p s []). Qed.

Lemma wpe_mono {A} (p : prog A) s evs (Q Q' : A + exn -> state -> list event -> Prop) :
  wpe w p s evs Q -> (forall r s' evs', Q r s' evs' -> Q' r s' evs') -> wpe w p s evs Q'.
Proof.
  revert s evs. induction p as [a|e|k IH|s' k IH|q k IH|c k IH]; intros s0 evs Hwp HQ;
    cbn in *; eauto.
Qed.

Lemma wpe_bind {A B} (p : prog A) (f : A -> prog B) s evs Q :
  wpe w p s evs (fun r s' evs' => match r with
                                  | inl a => wpe w (f a) s' evs' Q
                                  | inr e => Q (inr e) s' evs'
                                  end) ->
  wpe w (bind p f) s evs Q.
Proof.
  revert s evs. induction p as [a|e|k IH|s' k IH|q k IH|c k IH]; intros s0 evs Hwp;
    cbn in *; eauto.
Qed.

(** Whatever a program does, a lasting property of the events so far
    holds of the events at its end. *)
Lemma wpe_keeps {A} (p : prog A) s evs (P : list event -> Prop) :
  lasting P -> P evs -> wpe w p s evs (fun _ _ evs' => P evs').
Proof.
  intros HP. revert s evs.
  induction p as [a|e|k IH|s' k IH|q k IH|c k IH]; intros s0 evs Hevs; cbn; eauto.
Qed.

Lemma wpe_await (c : call) s evs (Q : reply c + exn -> state -> list event -> Prop) :
  (forall n, Q (respond w n c) s (evs ++ [Called c])%list) -> wpe w (await c) s evs Q.
Proof. intros HQ n. specialize (HQ n). cbn. by destruct (respond w n c). Qed.

Lemma wpe_ask (q : query) s evs (Q : answer q + exn -> state -> list event -> Prop) :
  (forall n, Q (inl (tell w n q)) s (evs ++ [Asked q])%list) -> wpe w (ask q) s evs Q.
Proof. intros HQ n. apply HQ. Qed.

Lemma wpe_modify f s evs (Q : unit + exn -> state -> list event -> Prop) :
  Q (inl tt) (f s) evs -> wpe w (modify f) s evs Q.
Proof. done. Qed.

Lemma wpe_deref r p s evs (Q : ProjectConfig + exn -> state -> list event -> Prop) :
  heap s !! r = Some p -> Q (inl p) s evs -> wpe w (deref r) s evs Q.
Proof. intros H HQ. cbn. by rewrite H. Qed.

Lemma wpe_assign r f p s evs (Q : unit + exn -> state -> list event -> Prop) :
  heap s !! r = Some p -> Q (inl tt) (set_heap <[r := f p]> s) evs ->
  wpe w (assign r f) s evs Q.
Proof. intros H HQ. cbn. by rewrite H. Qed.

Lemma wpe_setStatus r text p s evs (Q : unit + exn -> state -> list event -> Prop) :
  heap s !! r = Some p ->
  Q (inl tt) (set_deployStatusMap <[id p := {| isDeploying := true; status := text |}]> s) evs ->
  wpe w (setStatus r text) s evs Q.
Proof. intros H HQ. cbn. by rewrite H. Qed.

(** A lasting property established by the body of a [try] holds after
    its [catch] and [finally] blocks, whatever they do. *)
Lemma wpe_try_keeps {A} (body : prog A) handler fin s evs (P : list event -> Prop) :
  lasting P ->
  wpe w body s evs (fun _ _ evs' => P evs') ->
  wpe w (finally (catch body handler) fin) s evs (fun _ _ evs' => P evs').
Proof.
  intros HP. revert s evs.
  induction body as [a|e|k IH|s' k IH|q k IH|c k IH]; intros s0 evs Hbody; cbn in *; eauto.
  - apply wpe_bind. eapply wpe_mono; [by apply wpe_keeps|].
    intros [[]|e] s' evs' Hevs; exact Hevs.
  - assert (Hfin : forall (p : prog A) s1 evs1,
               P evs1 -> wpe w (finally p fin) s1 evs1 (fun _ _ evs' => P evs')).
    { induction p as [a|e'|k IH|s' k IH|q k IH|c k IH]; intros s1 evs1 H1; cbn; eauto.
      - apply wpe_bind. eapply wpe_mono; [by apply wpe_keeps|].
        intros [[]|e2] s' evs' Hevs; exact Hevs.
      - apply wpe_bind. eapply wpe_mono; [by apply wpe_keeps|].
        intros [[]|e2] s' evs' Hevs; exact Hevs. }
    by apply Hfin.
Qed.

(** The manifest block swallows its failures: it ends normally, in the
    state it started in. *)
Lemma wpe_writeManifest r info label p s evs (Q : unit + exn -> state -> list event -> Prop) :
  heap s !! r = Some p ->
  (forall more, Q (inl tt) s (evs ++ more)%list) ->
  wpe w (writeManifest r info label) s evs Q.
Proof.
  intros H HQ. unfold writeManifest. cbn. rewrite H. cbn.
  intros n1. destruct (respond w n1 _) as [versionPath|e]; cbn.
  2: { intros n. destruct (tell w n _). rewrite <- ?app_assoc. apply HQ. }
  intros n2. destruct (respond w n2 _) as [[]|e]; cbn.
  2: { intros n. destruct (tell w n _). rewrite <- ?app_assoc. apply HQ. }
  intros n3. destruct (respond w n3 _) as [appData|e]; cbn.
  2: { intros n. destruct (tell w n _). rewrite <- ?app_assoc. apply HQ. }
  intros n4. destruct (respond w n4 _) as [configDir|e]; cbn.
  2: { intros n. destruct (tell w n _). rewrite <- ?app_assoc. apply HQ. }
  intros n5. destruct (respond w n5 _) as [configPath|e]; cbn.
  2: { intros n. destruct (tell w n _). rewrite <- ?app_assoc. apply HQ. }
  intros n6. destruct (respond w n6 _) as [[]|e]; cbn.
  2: { intros n. destruct (tell w n _). rewrite <- ?app_assoc. apply HQ. }
  rewrite <- !app_assoc. apply HQ.
Qed.

End History.

Ltac wpe_step :=
  lazymatch goal with
  | |- wpe _ (bind _ _) _ _ _ => apply wpe_bind
  | |- wpe _ (deref _) _ _ _ => eapply wpe_deref; [solve_heap|]
  | |- wpe _ (assign _ _) _ _ _ => eapply wpe_assign; [solve_heap|]
  | |- wpe _ (setStatus _ _) _ _ _ => eapply wpe_setStatus; [solve_heap|]
  | |- wpe _ (setProjectDeploying _ _) _ _ _ => cbn [setProjectDeploying modify bind wpe negb]
  | |- wpe _ (modify _) _ _ _ => apply wpe_modify
  | |- wpe _ (Ret _) _ _ _ => cbn [wpe]
  | |- wpe _ (Throw _) _ _ _ => cbn [wpe]
  end; cbv beta iota.

Lemma lasting_elem_of (ev : event) : lasting (fun evs => ev ∈ evs).
Proof. intros evs more H. apply elem_of_app. by left. Qed.

Lemma lasting_build_started p : lasting (build_started p).
Proof.
  intros evs more (program & Hp & H). exists program. split; [done|].
  apply elem_of_app. by left.
Qed.

Lemma lasting_and (P1 P2 : list event -> Prop) :
  lasting P1 -> lasting P2 -> lasting (fun evs => P1 evs /\ P2 evs).
Proof. intros H1 H2 evs more [? ?]. split; [by apply H1|by apply H2]. Qed.

Lemma lasting_impl (C : Prop) (P : list event -> Prop) :
  lasting P -> lasting (fun evs => C -> P evs).
Proof. intros H evs more HP HC. apply H. by apply HP. Qed.

Lemma lasting_deploy_performed p : lasting (deploy_performed p).
Proof.
  apply lasting_and; [apply lasting_impl, lasting_build_started|apply lasting_elem_of].
Qed.

Lemma last_event (ev : event) evs : ev ∈ (evs ++ [ev])%list.
Proof. apply elem_of_app. right. by apply list_elem_of_singleton. Qed.

(** ** The steps of a deploy and of a rollback are performed *)

Lemma runBuild_performed w r p s evs (Q : unit + exn -> state -> list event -> Prop) :
  heap s !! r = Some p -> build_succeeds w ->
  (forall s' evs',
      heap s' !! r = Some p ->
      (Js.truthy_opt (buildCommand p) = true -> build_started p evs') ->
      Q (inl tt) s' evs') ->
  wpe w (runBuild r) s evs Q.
Proof.
  intros H Hbuild HQ. unfold runBuild. do 2 wpe_step.
  destruct (buildCommand p) as [cmd|] eqn:Hcmd; [|wpe_step; by apply HQ].
  destruct (Js.truthy cmd) eqn:Ht; [|wpe_step; apply HQ; [done|cbn; congruence]].
  cbn [catch bind setStatus deref modify wpe]. rewrite H. cbn [catch bind wpe ask].
  intros n0. cbn [catch bind wpe await]. intros n1.
  destruct (Hbuild n1 (if Js.includes "Win" (tell w n0 Platform) then "npm-windows" else "npm")
              ["run"; Js.remove_first "npm run " cmd] (projectPath p))
    as (out & -> & Hcode).
  cbn [catch bind wpe]. rewrite Hcode. cbn [Z.eqb negb catch bind wpe].
  apply HQ; [solve_heap|]. intros _. unfold build_started. rewrite Hcmd.
  exists (if Js.includes "Win" (tell w n0 Platform) then "npm-windows" else "npm").
  split; [destruct (Js.includes _ _); auto|].
  change (default "" (Some cmd)) with cmd. apply last_event.
Qed.

Lemma deployTransfer_performed w r p s evs (P : list event -> Prop) :
  heap s !! r = Some p -> lasting P -> P evs ->
  wpe w (deployTransfer r) s evs
    (fun _ _ evs' => P evs' /\ Called (DeployRemote (transferArgs p)) ∈ evs').
Proof.
  intros H HP Hevs. unfold deployTransfer.
  do 2 wpe_step. do 2 wpe_step. do 2 wpe_step. do 2 wpe_step.
  wpe_step. apply wpe_ask. intros n0. do 2 wpe_step. wpe_step.
  eapply wpe_writeManifest; [solve_heap|]. intros more.
  do 2 wpe_step. wpe_step. apply wpe_ask. intros n1.
  do 2 wpe_step. do 2 wpe_step.
  apply wpe_bind.
  match goal with |- wpe _ (await (DeployRemote ?a)) _ _ _ =>
    change a with (transferArgs p)
  end.
  apply wpe_await. intros n2.
  assert (Hnow : P (((((evs ++ [Asked NowISO]) ++ more) ++ [Asked NowISO])
                     ++ [Called (DeployRemote (transferArgs p))])%list)
                 /\ Called (DeployRemote (transferArgs p))
                    ∈ ((((evs ++ [Asked NowISO]) ++ more) ++ [Asked NowISO])
                       ++ [Called (DeployRemote (transferArgs p))])%list).
  { split; [by repeat apply HP|apply last_event]. }
  destruct (respond w n2 _) as [[]|e]; [|exact Hnow].
  wpe_step. exact Hnow.
Qed.

(** A deploy that gets past the remote-path check and whose build
    succeeds performs its steps, whatever the flag of the project was
    and whatever the other collaborators answer. *)
Lemma deploy_steps_performed w s r p :
  heap s !! r = Some p ->
  Js.truthy (remotePath (serverInfo p)) = true ->
  build_succeeds w ->
  deploy_performed p (events_of (run w (deployProject r) s)).
Proof.
  intros H Hremote Hbuild.
  apply (wpe_run w (deployProject r) s (fun _ _ evs => deploy_performed p evs)).
  unfold deployProject. apply wpe_try_keeps; [apply lasting_deploy_performed|].
  unfold deployBody. do 2 wpe_step. rewrite Hremote. cbn [negb].
  wpe_step. wpe_step. wpe_step. wpe_step. wpe_step.
  apply runBuild_performed with p; [solve_heap|done|].
  intros s' evs' H' Hstarted.
  apply (deployTransfer_performed w r p s' evs'
           (fun evs => Js.truthy_opt (buildCommand p) = true -> build_started p evs));
    [done|apply lasting_impl, lasting_build_started|done].
Qed.

Lemma rollbackTransfer_performed w r p v s evs :
  heap s !! r = Some p ->
  wpe w (rollbackTransfer r (version p) v) s evs (fun _ _ evs' => rollback_performed p evs').
Proof.
  intros H. unfold rollbackTransfer.
  do 2 wpe_step. do 2 wpe_step.
  wpe_step. apply wpe_ask. intros n0. do 2 wpe_step. wpe_step.
  eapply wpe_writeManifest; [solve_heap|]. intros more.
  do 2 wpe_step. do 2 wpe_step.
  apply wpe_bind.
  match goal with |- wpe _ (await (RollbackRemote ?a)) _ _ _ =>
    change a with (transferArgs p)
  end.
  apply wpe_await. intros n1.
  assert (Hnow : rollback_performed p
                   (((evs ++ [Asked NowISO]) ++ more)
                    ++ [Called (RollbackRemote (transferArgs p))])%list)
    by apply last_event.
  destruct (respond w n1 _) as [[]|e]; [|exact Hnow].
  by apply wpe_keeps; [apply lasting_elem_of|].
Qed.

(** A confirmed rollback whose previous version passes the check makes
    the remote call, whatever the flag and the remote path of the
    project are and whatever the other collaborators answer. *)
Lemma rollback_step_performed w s r p prev v :
  heap s !! r = Some p ->
  previousVersion p = Some prev -> Js.truthy prev = true ->
  restoredVersion prev = inl v ->
  confirms w ->
  rollback_performed p (events_of (run w (rollbackVersion r) s)).
Proof.
  intros H Hprev Ht Hv Hc.
  apply (wpe_run w (rollbackVersion r) s (fun _ _ evs => rollback_performed p evs)).
  unfold rollbackVersion. apply wpe_bind, wpe_await. intros n. rewrite Hc. cbn [negb].
  apply wpe_try_keeps; [apply lasting_elem_of|].
  unfold rollbackBody. do 2 wpe_step. wpe_step. wpe_step. do 2 wpe_step. do 2 wpe_step.
  rewrite Hprev, Ht, Hv. cbn [negb].
  apply rollbackTransfer_performed. solve_heap.
Qed.

(** * The claims of the specification *)

Lemma truthy_dotted a b c : Js.truthy (dotted a b c) = true.
Proof.
  rewrite dotted_eq. pose proof (truthy_digits a) as H.
  destruct (Js.digits a); [discriminate|reflexivity].
Qed.

Lemma reads_parse o d baseline n :
  Js.parseInt d = Js.Int baseline -> reads o baseline n ->
  Js.parseInt (Js.or_default o d) = n.
Proof.
  intros Hd Hc. unfold reads, Js.or_default in *.
  destruct o as [s|]; [destruct (Js.truthy s)|]; congruence.
Qed.

(** ** C1 *)




(** ** C2 *)

(** C2 at a failing input: a project at 1.0.2 whose slot holds 1.0.1 and
    whose build exits with code 1.  No transfer is attempted and
    [previousVersion] stays, but the [catch] block of [deployProject]
    assigns [previousVersion] to [version]: the version falls back to
    1.0.1 although this call never bumped it. *)
Lemma C2_failed_build_overwrites_version :
  let p := site "1.0.2" (Some "1.0.1") (Some "npm run build") "/srv" in
  let o := run red_build (deployProject 0) (single p) in
  existsb is_transfer (events_of o) = false
  /\ (previousVersion <$> project_after o 0) = Some (Some "1.0.1")
  /\ (version <$> project_after o 0) = Some "1.0.1".
Proof. vm_compute. repeat split. Qed.

(** What holds of every failed build: no transfer, [previousVersion]
    untouched, and [version] replaced by a non-empty [previousVersion]. *)
Lemma failed_build_outcome w s r p :
  heap s !! r = Some p ->
  Js.truthy (remotePath (serverInfo p)) = true ->
  Js.truthy_opt (buildCommand p) = true ->
  build_fails w -> dialogs_ok w ->
  Forall (fun ob => is_transfer (what ob) = false) (trace_of (run w (deployProject r) s))
  /\ exists p', project_after (run w (deployProject r) s) r = Some p'
       /\ previousVersion p' = previousVersion p
       /\ version p' = (if Js.truthy_opt (previousVersion p)
                        then default "" (previousVersion p) else version p).
Proof.
  intros H Hremote Hcmd Hbuild Hdialog.
  destruct (wp_run w _ _ _ _ (deploy_after_failed_build w s r p H Hremote Hcmd Hbuild Hdialog))
    as [(_ & _ & Hp) Hobs].
  split; [exact Hobs|]. exists (restore p). split; [exact Hp|].
  unfold restore. destruct (previousVersion p) as [prev|] eqn:E; cbn; [|by rewrite E].
  destruct (Js.truthy prev); cbn; by rewrite ?E.
Qed.

(** ** C4 *)

(** C4: when the build step passes and the upload fails, the project ends
    with the version it had before the call, which is also the value this
    deploy recorded in [previousVersion]. *)
Theorem C4_failed_upload_restores_version w s r p :
  heap s !! r = Some p ->
  Js.truthy (remotePath (serverInfo p)) = true ->
  version p <> "" ->
  build_succeeds w -> upload_fails w -> dialogs_ok w ->
  exists p', project_after (run w (deployProject r) s) r = Some p'
    /\ version p' = version p
    /\ previousVersion p' = Some (version p).
Proof.
  intros H Hremote Hv Hbuild Hupload Hdialog.
  destruct (wp_run w _ _ _ _ (deploy_after_good_build w s r p H Hremote Hbuild))
    as [(_ & k & _ & Hfail) _].
  destruct (Hfail Hupload Hdialog) as [_ Hp].
  exists (restore (bumped p (tell w k NowISO))). split; [exact Hp|].
  unfold restore. cbn [bumped previousVersion with_lastDeployTime with_version
                       with_previousVersion].
  apply truthy_nonempty in Hv. rewrite Hv. by split.
Qed.

Lemma offline_build_succeeds : build_succeeds offline.
Proof. intros n program args cwd. by exists {| code := 0; stderr := "" |}. Defined.

Lemma offline_upload_fails : upload_fails offline.
Proof. intros n a. by exists (Rejected "connection refused"). Defined.

Lemma C4_failed_upload_restores_version_witness :
  let p := site "1.0.0" None None "/srv" in
  heap (single p) !! 0%nat = Some p
  /\ exists p', project_after (run offline (deployProject 0) (single p)) 0 = Some p'
       /\ version p' = "1.0.0" /\ previousVersion p' = Some "1.0.0".
Proof.
  intros p. split; [reflexivity|].
  apply (C4_failed_upload_restores_version offline (single p) 0 p);
    [reflexivity|reflexivity|discriminate
    |exact offline_build_succeeds|exact offline_upload_fails|].
  by intros n text kind.
Defined.

(** ** C5 *)

(** C5, as stated, fails: a component that is present but does not parse
    is not replaced by its baseline.  For "a.0.0" the major component
    stays [NaN]; the claim has it default to 1, giving 1.0.1. *)
Lemma C5_unparsable_component_is_not_defaulted :
  bumpPatch "a.0.0" = "NaN.0.1" /\ bumpPatch "a.0.0" <> "1.0.1".
Proof. split; [reflexivity|discriminate]. Qed.

(** C5, amended: the bump splits the version at the dots, takes a missing
    or empty component among the first three as its baseline (major 1,
    minor 0, patch 0), reads every other component with [parseInt], and
    yields major.minor.(patch+1) of the numbers it read, where a
    component that [parseInt] cannot read is [NaN] and stays [NaN]; this
    is stated for versions whose components, and the increased patch,
    lie in the range where the numbers of the script are exact.  On a
    version of three decimal naturals the result is the same version
    with the patch increased by one; and a deploy of a project at 1.0.0
    whose build and upload succeed leaves version 1.0.1 and
    previousVersion 1.0.0. *)
Theorem C5_bumpPatch_defaults_missing_components :
  (forall v a b c,
      reads (Js.split "." v !! 0%nat) 1 a ->
      reads (Js.split "." v !! 1%nat) 0 b ->
      reads (Js.split "." v !! 2%nat) 0 c ->
      in_range a -> in_range b -> in_range c -> in_range (Js.succ c) ->
      bumpPatch v = triple a b (Js.succ c))
  /\ (forall a b c, safe a -> safe b -> safe c ->
        bumpPatch (dotted a b c) = dotted a b (c + 1))
  /\ (forall w s r p,
        heap s !! r = Some p -> version p = "1.0.0" ->
        Js.truthy (remotePath (serverInfo p)) = true ->
        build_succeeds w -> upload_succeeds w ->
        exists p', project_after (run w (deployProject r) s) r = Some p'
          /\ version p' = "1.0.1" /\ previousVersion p' = Some "1.0.0").
Proof.
  split; [|split].
  - intros v a b c Ha Hb Hc _ _ _ _. unfold bumpPatch.
    rewrite (reads_parse _ "1" 1 a eq_refl Ha).
    rewrite (reads_parse _ "0" 0 b eq_refl Hb).
    by rewrite (reads_parse _ "0" 0 c eq_refl Hc).
  - intros a b c _ _ _. apply bumpPatch_dotted.
  - intros w s r p H Hv Hremote Hbuild Hupload.
    destruct (wp_run w _ _ _ _ (deploy_after_good_build w s r p H Hremote Hbuild))
      as [(_ & k & Hok & _) _].
    destruct (Hok Hupload) as [_ Hp].
    exists (bumped p (tell w k NowISO)). split; [exact Hp|].
    cbn [bumped version previousVersion with_lastDeployTime with_version
         with_previousVersion].
    rewrite Hv. by split.
Qed.

Lemma C5_bumpPatch_defaults_missing_components_witness :
  reads (Js.split "." "7..x" !! 1%nat) 0 (Js.Int 0)
  /\ reads (Js.split "." "7..x" !! 2%nat) 0 Js.NaN
  /\ bumpPatch "7..x" = "7.0.NaN"
  /\ bumpPatch "7" = "7.0.1"
  /\ bumpPatch (dotted 1 0 0) = dotted 1 0 1
  /\ exists p', project_after
                  (run calm (deployProject 0) (single (site "1.0.0" None None "/srv"))) 0
                = Some p'
       /\ version p' = "1.0.1" /\ previousVersion p' = Some "1.0.0".
Proof.
  destruct C5_bumpPatch_defaults_missing_components as (Hgen & Hdot & Hdeploy).
  assert (R : forall z, (0 <= z <= 7)%Z -> in_range (Js.Int z)).
  { intros z Hz. unfold in_range, Js.MAX_SAFE_INTEGER. lia. }
  split; [reflexivity|]. split; [reflexivity|]. split; [|split; [|split]].
  - apply (Hgen "7..x" (Js.Int 7) (Js.Int 0) Js.NaN);
      first [reflexivity | exact I | apply R; lia].
  - apply (Hgen "7" (Js.Int 7) (Js.Int 0) (Js.Int 0));
      first [reflexivity | apply R; cbn; lia].
  - apply (Hdot 1 0 0)%N; unfold safe; cbn; discriminate.
  - apply (Hdeploy calm (single (site "1.0.0" None None "/srv")) 0%nat
             (site "1.0.0" None None "/srv")); try reflexivity.
    + intros n program args cwd. by exists {| code := 0; stderr := "" |}.
    + by intros n a.
Defined.

(** ** C7 *)

(** C7 at a failing input: the upload of a project at 1.0.0 is refused.
    [lastDeployTime] has been set before the transfer was attempted and
    stays set after the failure; and in a run whose upload succeeds the
    only write of [projects.json] comes before the transfer, with the
    bumped version and without the new [lastDeployTime]. *)
Lemma C7_lastDeployTime_is_set_before_the_upload :
  let p := site "1.0.0" None None "/srv" in
  let failed := run offline (deployProject 0) (single p) in
  let passed := run calm (deployProject 0) (single p) in
  lastDeployTime p = None
  /\ existsb is_message (events_of failed) = true
  /\ (lastDeployTime <$> project_after failed 0) = Some (Some "2024-05-06T07:08:09.000Z")
  /\ filter (fun ev => persists_or_transfers ev = true) (events_of passed)
     = [Called (WriteTextFile "/data/config/projects.json"
                  (ProjectsJson [with_version "1.0.1" (with_previousVersion (Some "1.0.0") p)]));
        Called (DeployRemote (transferArgs p))].
Proof. vm_compute. repeat split. Qed.

(** Whatever the upload answers, a deploy that reached it has stamped
    [lastDeployTime] with the time read just before the transfer. *)
Lemma lastDeployTime_is_stamped_either_way w s r p :
  heap s !! r = Some p ->
  Js.truthy (remotePath (serverInfo p)) = true ->
  build_succeeds w -> dialogs_ok w ->
  upload_succeeds w \/ upload_fails w ->
  exists k p', project_after (run w (deployProject r) s) r = Some p'
    /\ lastDeployTime p' = Some (tell w k NowISO).
Proof.
  intros H Hremote Hbuild Hdialog Hupload.
  destruct (wp_run w _ _ _ _ (deploy_after_good_build w s r p H Hremote Hbuild))
    as [(_ & k & Hok & Hfail) _].
  exists k. destruct Hupload as [Hu|Hu].
  - destruct (Hok Hu) as [_ Hp]. eexists. split; [exact Hp|reflexivity].
  - destruct (Hfail Hu Hdialog) as [_ Hp]. eexists. split; [exact Hp|].
    unfold restore. cbn [bumped previousVersion with_lastDeployTime with_version
                         with_previousVersion].
    by destruct (Js.truthy (version p)).
Qed.

(** ** C9 *)

(** C9, as stated, fails in its second half: the [return] of the
    remote-path check sits inside the [try], so the [finally] block runs
    and writes the guard.  For a project whose flag is up and that has a
    status line, the rejected deploy lowers the flag and deletes the
    status line; for an idle project it leaves an entry [false] in the
    flag map that was not there. *)
Lemma C9_rejected_deploy_writes_the_guard :
  let p := site "1.0.0" None None "" in
  let busy :=
    set_deployStatusMap <[id p := {| isDeploying := true; status := "正在回滚文件..." |}]>
      (set_deployingProjects <[id p := true]> (single p)) in
  let after := state_of (run calm (deployProject 0) busy) in
  let idle := state_of (run calm (deployProject 0) (single p)) in
  (isProjectDeploying busy (id p) = true /\ isProjectDeploying after (id p) = false)
  /\ (deployStatusMap busy !! id p
      = Some {| isDeploying := true; status := "正在回滚文件..." |}
      /\ deployStatusMap after !! id p = None)
  /\ after <> busy
  /\ (deployingProjects (single p) !! id p = None
      /\ deployingProjects idle !! id p = Some false).
Proof.
  intros p busy after idle.
  assert (Hb : isProjectDeploying busy (id p) = true) by reflexivity.
  assert (Ha : isProjectDeploying after (id p) = false) by (vm_compute; reflexivity).
  split; [by split|]. split; [split; vm_compute; reflexivity|]. split.
  - intros E. rewrite E in Ha. congruence.
  - split; vm_compute; reflexivity.
Qed.

(** C9, amended: a deploy of a project with an empty remote path shows
    the error before any other step.  The message is the only event and
    it happens in the untouched state, so the flag is never raised; then
    the [finally] block puts the flag entry of the project to [false]
    and deletes its status line, and that is all the call changes:
    project objects, project list, forms and the guard entries of every
    other project stay as they were. *)
Theorem C9_empty_remotePath_is_rejected_first w s r p :
  heap s !! r = Some p ->
  remotePath (serverInfo p) = "" ->
  dialogs_ok w ->
  result_of (run w (deployProject r) s) = inl tt
  /\ trace_of (run w (deployProject r) s)
     = [{| what := Called (Message "远程目录路径不能为空" "error"); seen := s |}]
  /\ state_of (run w (deployProject r) s)
     = set_deployStatusMap (delete (id p)) (set_deployingProjects <[id p := false]> s)
  /\ heap (state_of (run w (deployProject r) s)) = heap s
  /\ projects (state_of (run w (deployProject r) s)) = projects s
  /\ (deployingProjects (state_of (run w (deployProject r) s)) !! id p = Some false
      /\ deployStatusMap (state_of (run w (deployProject r) s)) !! id p = None)
  /\ (forall i, i <> id p ->
        deployingProjects (state_of (run w (deployProject r) s)) !! i
        = deployingProjects s !! i
        /\ deployStatusMap (state_of (run w (deployProject r) s)) !! i
           = deployStatusMap s !! i).
Proof.
  intros H Hremote Hdialog.
  rewrite (deploy_empty_remotePath w s r p H) by (by rewrite ?Hremote).
  cbn [result_of state_of trace_of fst snd].
  split; [done|]. split; [done|]. split; [done|]. split; [done|]. split; [done|].
  cbn [deployingProjects deployStatusMap set_deployStatusMap set_deployingProjects].
  split.
  - by rewrite lookup_insert_eq, lookup_delete_eq.
  - intros i Hne. by rewrite lookup_insert_ne, lookup_delete_ne.
Qed.

Lemma C9_empty_remotePath_is_rejected_first_witness :
  let p := site "1.0.0" None None "" in
  heap (single p) !! 0%nat = Some p /\ remotePath (serverInfo p) = ""
  /\ events_of (run calm (deployProject 0) (single p))
     = [Called (Message "远程目录路径不能为空" "error")]
  /\ state_of (run calm (deployProject 0) (single p))
     = set_deployStatusMap (delete (id p))
         (set_deployingProjects <[id p := false]> (single p))
  /\ heap (state_of (run calm (deployProject 0) (single p))) = heap (single p).
Proof.
  intros p.
  destruct (C9_empty_remotePath_is_rejected_first calm (single p) 0 p eq_refl eq_refl)
    as (_ & Htrace & Hstate & Hheap & _).
  { by intros n text kind. }
  split; [reflexivity|]. split; [reflexivity|]. split; [|split; [exact Hstate|exact Hheap]].
  unfold events_of. fold (trace_of (run calm (deployProject 0) (single p))).
  rewrite Htrace. reflexivity.
Defined.

(** ** C3 *)

(** A rollback with no previous version (absent or empty) fails with the
    message of [NoPreviousVersion], and nothing of the project changes. *)
Lemma rollback_without_previous_changes_nothing w s r p :
  heap s !! r = Some p -> Js.truthy_opt (previousVersion p) = false ->
  confirms w -> dialogs_ok w ->
  events_of (run w (rollbackVersion r) s)
  = [Called (Ask "确定要回滚到上一个版本吗？" "确认回滚");
     Called (Message "回滚失败：Error: 没有可回滚的版本" "error")]
  /\ heap (state_of (run w (rollbackVersion r) s)) = heap s
  /\ projects (state_of (run w (rollbackVersion r) s)) = projects s.
Proof.
  intros H Hprev Hc Hd. rewrite (rollback_no_previous w s r p H Hprev Hc Hd).
  repeat split.
Qed.

(** C3 at a failing input: a project at 1.0.1 whose slot holds the
    two-component "1.0".  The rollback fails with the message of
    [MalformedVersion], but its [catch] block exchanges the two fields
    although no swap had been made: the project is left at version "1.0"
    with previousVersion 1.0.1. *)
Lemma C3_malformed_previousVersion_swaps_the_fields :
  let p := site "1.0.1" (Some "1.0") None "/srv" in
  let o := run calm (rollbackVersion 0) (single p) in
  events_of o = [Called (Ask "确定要回滚到上一个版本吗？" "确认回滚");
                 Called (Message "回滚失败：Error: 版本号格式错误" "error")]
  /\ (version <$> project_after o 0) = Some "1.0"
  /\ (previousVersion <$> project_after o 0) = Some (Some "1.0.1")
  /\ (lastRollbackTime <$> project_after o 0) = Some None.
Proof. vm_compute. repeat split. Qed.

(** ** C6 *)

Lemma calm_confirms : confirms calm.
Proof. by intros n text title. Defined.

Lemma calm_files_ok : files_ok calm.
Proof.
  split; [|split].
  - intros n. by exists "/data".
  - intros n parts. by exists (String.concat "/" parts).
  - by intros n f data.
Defined.

Lemma calm_remote_rollback_succeeds : remote_rollback_succeeds calm.
Proof. by intros n a. Defined.




(** ** C8 *)

(** C8 at a failing input: the edit dialog is saved with the build command
    "rm -rf /", which [validateBuildCommand] refuses.  [saveEdit] never
    validates: the command is stored in the project list and written to
    [projects.json]; [saveProject] refuses the same form data with the
    format error and leaves the state as it was. *)
Lemma C8_saveEdit_stores_an_invalid_command :
  let p := site "1.0.0" None None "/srv" in
  let bad := site "1.0.0" None (Some "rm -rf /") "/srv" in
  let edited := run calm saveEdit (editing p bad) in
  let added := run calm saveProject (adding p bad) in
  validateBuildCommand (Some "rm -rf /") = false
  /\ listed (state_of edited) = [bad]
  /\ events_of edited
     = [Called GetAppDir; Called (Join ["/app"; "config"; "projects.json"]);
        Called (WriteTextFile "/app/config/projects.json" (ProjectsJson [bad]));
        Called (Message "修改成功！" "info")]
  /\ state_of added = adding p bad
  /\ events_of added
     = [Called (Message "打包命令格式不正确，请使用 npm run xxx 格式" "error")].
Proof. vm_compute. repeat split. Qed.

(** ** C10 *)

(** C10: the check of [rollbackVersion] reads each component of
    [previousVersion] with [parseInt].  Decimal digits followed by
    anything that is not a decimal digit are read as the number the digits
    spell (short of the prefix [0x], which selects radix 16), and so are
    digits behind leading zeros; the version that a successful rollback
    restores is the rendering [major.minor.patch] of the numbers read,
    which for "1x.02.3" is "1.2.3" and not the stored string.  The
    numbers range over the integers that the script represents
    exactly. *)
Theorem C10_rollback_restores_the_rendering_of_parsed_components :
  (forall n rest,
      safe n ->
      stops rest ->
      (n = 0%N -> forall c r, rest = String c r -> c <> "x"%char /\ c <> "X"%char) ->
      Js.parseInt (Js.digits n ++ rest) = Js.Int (Z.of_N n))
  /\ (forall n, safe n -> Js.parseInt (String "0" (Js.digits n)) = Js.Int (Z.of_N n))
  /\ (forall prev s0 s1 s2 x y z,
        Js.split "." prev = [s0; s1; s2] ->
        s0 <> "" -> s1 <> "" -> s2 <> "" ->
        Js.parseInt s0 = Js.Int x -> Js.parseInt s1 = Js.Int y -> Js.parseInt s2 = Js.Int z ->
        in_range (Js.Int x) -> in_range (Js.Int y) -> in_range (Js.Int z) ->
        restoredVersion prev = inl (triple (Js.Int x) (Js.Int y) (Js.Int z)))
  /\ (forall w s r p prev v,
        heap s !! r = Some p ->
        previousVersion p = Some prev -> prev <> "" ->
        reads_exactly prev ->
        restoredVersion prev = inl v ->
        confirms w -> files_ok w -> remote_rollback_succeeds w ->
        exists p', project_after (run w (rollbackVersion r) s) r = Some p'
          /\ version p' = v /\ previousVersion p' = Some (version p))
  /\ (restoredVersion "1x.02.3" = inl "1.2.3" /\ "1.2.3" <> "1x.02.3").
Proof.
  split; [|split; [|split; [|split]]].
  - intros n rest _ Hstop Hhex. by apply parseInt_decimal.
  - intros n _. destruct (digits_spec n) as (ds & -> & Hne & <- & Hall & _).
    change (String "0" (Js.string_of_digits ds)) with (Js.string_of_digits (0%N :: ds)).
    rewrite <- (append_empty (Js.string_of_digits (0%N :: ds))).
    rewrite parseInt_digits; [| done | by constructor | done |].
    + unfold value. cbn [fold_left]. done.
    + unfold not_hex. by destruct ds.
  - intros prev s0 s1 s2 x y z Hsplit H0 H1 H2 Hx Hy Hz _ _ _.
    unfold restoredVersion. rewrite Hsplit. cbn [length Nat.eqb negb lookup list_lookup].
    unfold Js.or_default.
    apply truthy_nonempty in H0, H1, H2. rewrite H0, H1, H2, Hx, Hy, Hz. reflexivity.
  - intros w s r p prev v H Hprev Hne _ Hv Hc Hf Hr.
    apply truthy_nonempty in Hne.
    destruct (wp_run w _ _ _ _ (rollback_success w s r p prev v H Hprev Hne Hv Hc Hf Hr))
      as [(_ & _ & k & Hk) _].
    eexists. split; [exact Hk|]. by split.
  - split; [reflexivity|discriminate].
Qed.

Lemma C10_rollback_restores_the_rendering_witness :
  let p := site "2.0.0" (Some "1x.02.3") None "/srv" in
  stops "x" /\ Js.parseInt "1x" = Js.Int 1
  /\ Js.parseInt "02" = Js.Int 2
  /\ reads_exactly "1x.02.3"
  /\ exists p', project_after (run calm (rollbackVersion 0) (single p)) 0 = Some p'
       /\ version p' = "1.2.3" /\ previousVersion p' = Some "2.0.0".
Proof.
  intros p.
  destruct C10_rollback_restores_the_rendering_of_parsed_components
    as (Htail & Hzero & _ & Hop & _).
  assert (Hexact : reads_exactly "1x.02.3").
  { vm_compute. repeat split; discriminate. }
  split; [reflexivity|]. split; [|split; [|split; [exact Hexact|]]].
  - apply (Htail 1%N "x"); [unfold safe; cbn; discriminate|reflexivity|discriminate].
  - apply (Hzero 2%N). unfold safe; cbn; discriminate.
  - apply (Hop calm (single p) 0%nat p "1x.02.3" "1.2.3");
      [reflexivity|reflexivity|discriminate|exact Hexact|reflexivity
      |exact calm_confirms|exact calm_files_ok|exact calm_remote_rollback_succeeds].
Defined.

(** * Further properties of the operations *)

Lemma deploy_confined_run w s r p :
  heap s !! r = Some p ->
  working_on keeps_lastRollbackTime r p s (state_of (run w (deployProject r) s))
  /\ Forall (fun ob => deploy_event p (what ob)
                       /\ working_on keeps_lastRollbackTime r p s (seen ob))
       (trace_of (run w (deployProject r) s)).
Proof.
  intros H.
  apply (wp_run w (deployProject r) s
           (fun ev s' => deploy_event p ev /\ working_on keeps_lastRollbackTime r p s s')
           (fun _ s' => working_on keeps_lastRollbackTime r p s s')).
  apply confined_deployProject. by apply working_on_start.
Qed.

Lemma rollback_confined_run w s r p :
  heap s !! r = Some p ->
  working_on keeps_lastDeployTime r p s (state_of (run w (rollbackVersion r) s))
  /\ Forall (fun ob => rollback_event p (what ob)
                       /\ working_on keeps_lastDeployTime r p s (seen ob))
       (trace_of (run w (rollbackVersion r) s)).
Proof.
  intros H.
  apply (wp_run w (rollbackVersion r) s
           (fun ev s' => rollback_event p ev /\ working_on keeps_lastDeployTime r p s s')
           (fun _ s' => working_on keeps_lastDeployTime r p s s')).
  apply confined_rollbackVersion. by apply working_on_start.
Qed.

(** X1: a deploy or a rollback touches nothing but the object of its own
    project and the two guard entries of that project's id.  The project
    list, every other project object, the flag and the status line of
    every other id and both dialog forms are as they were, when the call
    ends and at every event in between, whatever the collaborators
    answer. *)
Theorem operations_touch_one_project w s r p :
  heap s !! r = Some p ->
  (untouched_elsewhere r (id p) s (state_of (run w (deployProject r) s))
   /\ Forall (fun ob => untouched_elsewhere r (id p) s (seen ob))
        (trace_of (run w (deployProject r) s)))
  /\ (untouched_elsewhere r (id p) s (state_of (run w (rollbackVersion r) s))
      /\ Forall (fun ob => untouched_elsewhere r (id p) s (seen ob))
           (trace_of (run w (rollbackVersion r) s))).
Proof.
  intros H.
  destruct (deploy_confined_run w s r p H) as [[Hd _] Hdt].
  destruct (rollback_confined_run w s r p H) as [[Hr _] Hrt].
  split; (split; [done|]).
  - eapply Forall_impl; [exact Hdt|]. by intros ob [_ [Hu _]].
  - eapply Forall_impl; [exact Hrt|]. by intros ob [_ [Hu _]].
Qed.

Lemma operations_touch_one_project_witness :
  let s := couple (site "1.0.0" None None "/srv") blog in
  heap s !! 1%nat = Some blog
  /\ heap (state_of (run offline (deployProject 1) s)) !! 0%nat
     = Some (site "1.0.0" None None "/srv")
  /\ isProjectDeploying (state_of (run calm (rollbackVersion 1) s)) "1714970000000" = false.
Proof.
  intros s.
  destruct (operations_touch_one_project offline s 1 blog eq_refl)
    as [[(_ & _ & _ & _ & _ & _ & Hheap & _) _] _].
  destruct (operations_touch_one_project calm s 1 blog eq_refl)
    as [_ [(_ & _ & _ & _ & _ & _ & _ & Hflag) _]].
  split; [reflexivity|]. split.
  - rewrite (Hheap 0%nat) by discriminate. reflexivity.
  - unfold isProjectDeploying.
    rewrite (proj1 (Hflag "1714970000000" ltac:(discriminate))). reflexivity.
Defined.

(** X2: of the project itself, a deploy can change only [version],
    [previousVersion] and [lastDeployTime], and a rollback only [version],
    [previousVersion] and [lastRollbackTime]: id, name, paths, build
    command, environment and server data are never written, on any exit
    path. *)
Theorem operations_write_only_version_fields w s r p :
  heap s !! r = Some p ->
  (exists q, project_after (run w (deployProject r) s) r = Some q
     /\ same_config q p /\ lastRollbackTime q = lastRollbackTime p)
  /\ (exists q, project_after (run w (rollbackVersion r) s) r = Some q
        /\ same_config q p /\ lastDeployTime q = lastDeployTime p).
Proof.
  intros H.
  destruct (deploy_confined_run w s r p H) as [[_ Hd] _].
  destruct (rollback_confined_run w s r p H) as [[_ Hr] _].
  by split.
Qed.

Lemma operations_write_only_version_fields_witness :
  let s := couple (site "1.0.0" None None "/srv") blog in
  heap s !! 1%nat = Some blog
  /\ exists q, project_after (run red_build (deployProject 1) s) 1 = Some q
       /\ same_config q blog /\ lastRollbackTime q = None.
Proof.
  intros s. split; [reflexivity|].
  exact (proj1 (operations_write_only_version_fields red_build s 1 blog eq_refl)).
Defined.

Lemma normalizedRemotePath_starts_with_slash p :
  Js.startsWith (normalizedRemotePath p) "/" = true.
Proof.
  unfold normalizedRemotePath.
  destruct (Js.startsWith (remotePath (serverInfo p)) "/") eqn:E; [exact E|reflexivity].
Qed.

(** X3: the only transfer a deploy makes is [deploy_project] and the only
    one a rollback makes is [rollback_project], each with the name, build
    output path, environment, host and credentials of the project and a
    remote path that starts with a slash.  A deploy with a non-empty
    remote path whose build succeeds makes its call.  A rollback does not
    check the remote path: once it is confirmed and the previous version
    has passed the check it makes its call whatever the remote path is,
    and for an empty one the call goes to ["/"].  The previous version
    ranges over the strings whose components the script reads exactly. *)
Theorem transfers_carry_the_project_and_a_rooted_path w s r p :
  heap s !! r = Some p ->
  Forall (fun ob => match what ob with
                    | Called (DeployRemote a) => a = transferArgs p
                    | Called (RollbackRemote _) => False
                    | _ => True
                    end) (trace_of (run w (deployProject r) s))
  /\ Forall (fun ob => match what ob with
                       | Called (RollbackRemote a) => a = transferArgs p
                       | Called (DeployRemote _) => False
                       | _ => True
                       end) (trace_of (run w (rollbackVersion r) s))
  /\ Js.startsWith (ta_remotePath (transferArgs p)) "/" = true
  /\ (remotePath (serverInfo p) = "" -> ta_remotePath (transferArgs p) = "/")
  /\ (remotePath (serverInfo p) <> "" -> build_succeeds w ->
      Called (DeployRemote (transferArgs p)) ∈ events_of (run w (deployProject r) s))
  /\ (forall prev,
        previousVersion p = Some prev -> prev <> "" ->
        reads_exactly prev -> (exists v, restoredVersion prev = inl v) -> confirms w ->
        Called (RollbackRemote (transferArgs p)) ∈ events_of (run w (rollbackVersion r) s)).
Proof.
  intros H.
  destruct (deploy_confined_run w s r p H) as [_ Hdt].
  destruct (rollback_confined_run w s r p H) as [_ Hrt].
  split; [|split; [|split; [|split; [|split]]]].
  - eapply Forall_impl; [exact Hdt|]. intros ob [He _].
    by destruct (what ob) as [[]|[]].
  - eapply Forall_impl; [exact Hrt|]. intros ob [He _].
    by destruct (what ob) as [[]|[]].
  - apply normalizedRemotePath_starts_with_slash.
  - intros Hempty. unfold transferArgs, normalizedRemotePath. cbn [ta_remotePath].
    by rewrite Hempty.
  - intros Hremote%truthy_nonempty Hbuild.
    by destruct (deploy_steps_performed w s r p H Hremote Hbuild).
  - intros prev Hprev Hne%truthy_nonempty _ [v Hv] Hc.
    exact (rollback_step_performed w s r p prev v H Hprev Hne Hv Hc).
Qed.

Lemma transfers_carry_the_project_witness :
  let p := site "1.0.1" (Some "1.0.0") None "" in
  heap (single p) !! 0%nat = Some p
  /\ remotePath (serverInfo p) = ""
  /\ ta_remotePath (transferArgs p) = "/"
  /\ Called (RollbackRemote (transferArgs p))
     ∈ events_of (run calm (rollbackVersion 0) (single p)).
Proof.
  intros p.
  destruct (transfers_carry_the_project_and_a_rooted_path calm (single p) 0 p eq_refl)
    as (_ & _ & _ & Hroot & _ & Hcall).
  split; [reflexivity|]. split; [reflexivity|]. split; [by apply Hroot|].
  apply (Hcall "1.0.0");
    [reflexivity|discriminate|vm_compute; repeat split; discriminate|by exists "1.0.0"|].
  by intros n text title.
Defined.

(** X4: the only process a deploy starts is [npm] (or [npm-windows]) with
    the arguments [run <script>] in the project directory, where the
    script is the stored build command without its first "npm run ", and
    it starts none when the build command is absent or empty; a rollback
    starts no process. *)
Theorem only_npm_run_is_executed w s r p :
  heap s !! r = Some p ->
  Forall (fun ob => forall program args cwd,
            what ob = Called (Execute program args cwd) ->
            Js.truthy_opt (buildCommand p) = true
            /\ (program = "npm" \/ program = "npm-windows")
            /\ args = ["run"; Js.remove_first "npm run " (default "" (buildCommand p))]
            /\ cwd = projectPath p)
    (trace_of (run w (deployProject r) s))
  /\ Forall (fun ob => forall program args cwd,
               what ob <> Called (Execute program args cwd))
       (trace_of (run w (rollbackVersion r) s)).
Proof.
  intros H.
  destruct (deploy_confined_run w s r p H) as [_ Hdt].
  destruct (rollback_confined_run w s r p H) as [_ Hrt].
  split.
  - eapply Forall_impl; [exact Hdt|]. intros ob [He _] program args cwd Hev.
    rewrite Hev in He. exact He.
  - eapply Forall_impl; [exact Hrt|]. intros ob [He _] program args cwd Hev.
    rewrite Hev in He. exact He.
Qed.

Lemma only_npm_run_is_executed_witness :
  let s := couple (site "1.0.0" None None "/srv") blog in
  heap s !! 1%nat = Some blog
  /\ filter (fun ev => is_execute ev = true) (events_of (run calm (deployProject 1) s))
     = [Called (Execute "npm" ["run"; "build:prod"] "/work/blog")]
  /\ Forall (fun ob => forall program args cwd,
               what ob = Called (Execute program args cwd) ->
               Js.truthy_opt (buildCommand blog) = true
               /\ (program = "npm" \/ program = "npm-windows")
               /\ args = ["run"; Js.remove_first "npm run " (default "" (buildCommand blog))]
               /\ cwd = projectPath blog)
       (trace_of (run calm (deployProject 1) s)).
Proof.
  intros s. split; [reflexivity|]. split; [vm_compute; reflexivity|].
  exact (proj1 (only_npm_run_is_executed calm s 1 blog eq_refl)).
Defined.

(** ** Versions across deploys and rollbacks *)

Lemma append_assoc (a b c : string) : (a ++ b) ++ c = a ++ (b ++ c).
Proof.
  induction a as [|x a IH]; [by rewrite !append_nil|]. by rewrite !append_cons, IH.
Qed.

Lemma scan_decimal ds rest :
  ds <> [] -> Forall (fun d => (d < 10)%N) ds -> stops rest ->
  Js.scan 10 (Js.string_of_digits ds ++ rest) None = Some (value ds).
Proof.
  intros Hne Hall Hstop. destruct ds as [|d ds]; [done|].
  inversion Hall as [|? ? Hd Hds]; subst.
  rewrite digits_cons, append_cons. cbn [Js.scan].
  rewrite (digit_val_char d Hd). cbn [default].
  rewrite scan_digits by done. by rewrite scan_stops.
Qed.

Lemma hex_prefix_decimal ds :
  Forall (fun d => (d < 10)%N) ds -> Js.hex_prefix (Js.string_of_digits ds) = false.
Proof.
  intros Hall. destruct ds as [|d [|d2 ds]]; [done|done|].
  inversion Hall as [|? ? _ Hds]; subst. inversion Hds as [|? ? Hd2 _]; subst.
  rewrite !digits_cons. unfold Js.hex_prefix.
  destruct (digit_char_plain d2 Hd2) as (_ & _ & _ & -> & -> & _).
  apply andb_false_r.
Qed.

Lemma parseInt_negative n :
  Js.parseInt (String "-" (Js.digits n)) = Js.Int (- Z.of_N n).
Proof.
  destruct (digits_spec n) as (ds & -> & Hne & <- & Hall & _).
  unfold Js.parseInt. cbn [Js.skip_space]. change (Js.is_space "-") with false.
  cbn [Js.startsWith]. change (Ascii.eqb "-" "-") with true. cbn [orb Js.tail].
  rewrite hex_prefix_decimal by done.
  rewrite <- (append_empty (Js.string_of_digits ds)).
  by rewrite scan_decimal.
Qed.

(** What a template literal renders, [parseInt] reads back. *)
Lemma parseInt_toString n : Js.parseInt (Js.toString n) = n.
Proof.
  destruct n as [|z]; [reflexivity|]. unfold Js.toString.
  destruct (Z.ltb_spec z 0).
  - rewrite parseInt_negative. f_equal. lia.
  - rewrite parseInt_digits_exact. f_equal. lia.
Qed.

Lemma truthy_toString n : Js.truthy (Js.toString n) = true.
Proof.
  destruct n as [|z]; [reflexivity|]. unfold Js.toString.
  destruct (z <? 0)%Z; [reflexivity|apply truthy_digits].
Qed.

Lemma toString_free n : free_of "." (Js.toString n).
Proof.
  destruct n as [|z]; [by repeat split|]. unfold Js.toString.
  destruct (z <? 0)%Z; [split; [reflexivity|]|]; apply digits_free.
Qed.

Lemma split_triple a b c :
  Js.split "." (triple a b c) = [Js.toString a; Js.toString b; Js.toString c].
Proof.
  unfold triple.
  change (Js.split "." (Js.toString a ++ String "." (Js.toString b ++ String "." (Js.toString c)))
          = [Js.toString a; Js.toString b; Js.toString c]).
  rewrite split_app by apply toString_free. rewrite split_app by apply toString_free.
  by rewrite split_free by apply toString_free.
Qed.

(** X5: the check of [rollbackVersion] reads back what the version bump
    renders.  A rendered triple of numbers is restored unchanged, and a
    triple with a [NaN] component, which the bump renders for a component
    it could not parse, is refused as malformed.  The numbers range over
    the integers that JavaScript represents exactly. *)
Theorem rollback_reads_back_what_the_bump_renders a b c :
  in_range a -> in_range b -> in_range c ->
  restoredVersion (triple a b c)
  = if Js.isNaN a || Js.isNaN b || Js.isNaN c then inr "版本号格式错误"
    else inl (triple a b c).
Proof.
  intros _ _ _. unfold restoredVersion. rewrite split_triple.
  cbn [length Nat.eqb negb lookup list_lookup]. unfold Js.or_default.
  by rewrite !truthy_toString, !parseInt_toString.
Qed.

Lemma rollback_reads_back_what_the_bump_renders_witness :
  in_range (Js.Int 3) /\ in_range Js.NaN
  /\ restoredVersion (bumpPatch "3.1.4") = inl "3.1.5"
  /\ restoredVersion (bumpPatch "3.x.4") = inr "版本号格式错误".
Proof.
  assert (R3 : in_range (Js.Int 3)) by (split; vm_compute; discriminate).
  assert (R1 : in_range (Js.Int 1)) by (split; vm_compute; discriminate).
  assert (R5 : in_range (Js.Int 5)) by (split; vm_compute; discriminate).
  split; [exact R3|]. split; [exact I|]. split.
  - exact (rollback_reads_back_what_the_bump_renders (Js.Int 3) (Js.Int 1) (Js.Int 5) R3 R1 R5).
  - exact (rollback_reads_back_what_the_bump_renders (Js.Int 3) Js.NaN (Js.Int 5) R3 I R5).
Defined.

Lemma split_four a b c rest :
  Js.split "." (dotted a b c ++ "." ++ rest)
  = Js.digits a :: Js.digits b :: Js.digits c :: Js.split "." rest.
Proof.
  rewrite dotted_eq.
  change (Js.split "."
            ((Js.digits a ++ String "." (Js.digits b ++ String "." (Js.digits c)))
               ++ String "." rest)
          = Js.digits a :: Js.digits b :: Js.digits c :: Js.split "." rest).
  rewrite append_assoc, append_cons, append_assoc, append_cons.
  by rewrite !split_app by apply digits_free.
Qed.

Lemma truthy_app s rest : Js.truthy s = true -> Js.truthy (s ++ rest) = true.
Proof. destruct s; [discriminate|]. by rewrite append_cons. Qed.

(** X6: the version bump reads the first three components only: a
    version with further components is bumped as if they were not there.
    The rollback check refuses such a string as [previousVersion]: a
    confirmed rollback shows the format error and awaits nothing else,
    so no remote call is made, and its [catch] block then exchanges the
    two fields, which leaves the project at the version with the further
    components.  The components range over the naturals that JavaScript
    represents exactly. *)
Theorem bump_drops_what_rollback_refuses a b c rest :
  safe a -> safe b -> safe c ->
  bumpPatch (dotted a b c ++ "." ++ rest) = dotted a b (c + 1)
  /\ restoredVersion (dotted a b c ++ "." ++ rest) = inr "版本号格式错误"
  /\ (forall w s r p,
        heap s !! r = Some p ->
        previousVersion p = Some (dotted a b c ++ "." ++ rest) ->
        confirms w -> dialogs_ok w ->
        events_of (run w (rollbackVersion r) s)
        = [Called (Ask "确定要回滚到上一个版本吗？" "确认回滚");
           Called (Message "回滚失败：Error: 版本号格式错误" "error")]
        /\ exists q, project_after (run w (rollbackVersion r) s) r = Some q
             /\ version q = dotted a b c ++ "." ++ rest
             /\ previousVersion q = Some (version p)).
Proof.
  intros _ _ _.
  assert (Hcheck : restoredVersion (dotted a b c ++ "." ++ rest) = inr "版本号格式错误").
  { unfold restoredVersion. rewrite split_four.
    pose proof (split_nonempty "." rest) as Hne.
    destruct (Js.split "." rest) as [|x l]; [done|]. reflexivity. }
  split; [|split; [exact Hcheck|]].
  - unfold bumpPatch. rewrite split_four. cbn [lookup list_lookup].
    unfold Js.or_default. rewrite !truthy_digits, !parseInt_digits_exact.
    cbn [Js.succ]. rewrite dotted_eq. unfold triple. rewrite !toString_nat.
    replace (Z.of_N c + 1)%Z with (Z.of_N (c + 1)) by lia. by rewrite toString_nat.
  - intros w s r p H Hprev Hc Hd.
    assert (Ht : Js.truthy (dotted a b c ++ "." ++ rest) = true)
      by apply truthy_app, truthy_dotted.
    destruct (rollback_malformed w s r p _ _ H Hprev Ht Hcheck Hc Hd)
      as (_ & Hev & Hq & _).
    split; [exact Hev|]. eexists. split; [exact Hq|].
    unfold swap_back. rewrite Hprev, Ht. by split.
Qed.

Lemma bump_drops_what_rollback_refuses_witness :
  let p := site "1.2.4" (Some "1.2.3.4") None "/srv" in
  safe 1 /\ bumpPatch "1.2.3.4" = "1.2.4"
  /\ restoredVersion "1.2.3.4" = inr "版本号格式错误"
  /\ existsb is_transfer (events_of (run calm (rollbackVersion 0) (single p))) = false
  /\ exists q, project_after (run calm (rollbackVersion 0) (single p)) 0 = Some q
       /\ version q = "1.2.3.4" /\ previousVersion q = Some "1.2.4".
Proof.
  intros p.
  assert (S1 : safe 1) by (unfold safe; cbn; discriminate).
  assert (S2 : safe 2) by (unfold safe; cbn; discriminate).
  assert (S3 : safe 3) by (unfold safe; cbn; discriminate).
  destruct (bump_drops_what_rollback_refuses 1 2 3 "4" S1 S2 S3) as (Hbump & Hcheck & Hrun).
  split; [exact S1|]. split; [exact Hbump|]. split; [exact Hcheck|].
  destruct (Hrun calm (single p) 0%nat p eq_refl eq_refl) as [Hev Hq].
  { by intros n text title. }
  { by intros n text kind. }
  split; [|exact Hq]. rewrite Hev. reflexivity.
Defined.

(** The exits of the transfer phase of a rollback, with the project each
    one leaves: before the remote call has succeeded the project is
    [swapped], after it the project is stamped as well. *)
Lemma wp_rollbackTransfer_exits w r p s v (Q : unit + exn -> state -> Prop) :
  heap s !! r = Some p ->
  (forall s' e n a,
      projects s' = projects s -> heap s' !! r = Some (swapped p v) ->
      respond w n (RollbackRemote a) = inr e ->
      Q (inr e) s') ->
  (forall s' e k n c n1 a,
      projects s' = projects s ->
      heap s' !! r = Some (with_lastRollbackTime (Some (tell w k NowISO)) (swapped p v)) ->
      respond w n1 (RollbackRemote a) = inl tt ->
      respond w n c = inr e -> local_event (Called c) = true ->
      Q (inr e) s') ->
  (forall s' k n f l n1 a,
      projects s' = projects s ->
      heap s' !! r = Some (with_lastRollbackTime (Some (tell w k NowISO)) (swapped p v)) ->
      respond w n1 (RollbackRemote a) = inl tt ->
      respond w n (WriteTextFile f (ProjectsJson l)) = inl tt ->
      Q (inl tt) s') ->
  wp w (rollbackTransfer r (version p) v) s (fun _ _ => True) Q.
Proof.
  intros H Hremote Hlocal Hok. unfold rollbackTransfer.
  do 2 wp_step. do 2 wp_step.
  wp_step. apply wp_ask; [done|]. intros n0. cbv beta iota.
  do 2 wp_step. wp_step.
  eapply wp_writeManifest; [solve_heap|done|].
  do 2 wp_step. do 2 wp_step. wp_step.
  apply wp_await; [done|]. intros n1.
  destruct (respond w n1 _) as [[]|e] eqn:E1.
  2: { eapply Hremote; [| |exact E1]; solve_state. }
  wp_step. apply wp_ask; [done|]. intros n2. cbv beta iota.
  do 2 wp_step.
  wp_step. apply wp_await; [done|]. intros n3.
  destruct (respond w n3 _) as [appData|e] eqn:E3.
  2: { eapply (Hlocal _ e n2); [| |exact E1|exact E3|reflexivity]; solve_state. }
  wp_step. apply wp_await; [done|]. intros n4.
  destruct (respond w n4 _) as [configDir|e] eqn:E4.
  2: { eapply (Hlocal _ e n2); [| |exact E1|exact E4|reflexivity]; solve_state. }
  wp_step. apply wp_await; [done|]. intros n5.
  destruct (respond w n5 _) as [configPath|e] eqn:E5.
  2: { eapply (Hlocal _ e n2); [| |exact E1|exact E5|reflexivity]; solve_state. }
  wp_step. apply wp_persist; [done|]. intros n6.
  destruct (respond w n6 _) as [[]|e] eqn:E6.
  2: { eapply (Hlocal _ e n2); [| |exact E1|exact E6|reflexivity]; solve_state. }
  wp_step. eapply (Hok _ n2); [| |exact E1|exact E6]; solve_state.
Qed.

(** A confirmed rollback that passes its check, followed to its end. *)
Lemma rollback_outcomes w s r p prev v :
  heap s !! r = Some p ->
  previousVersion p = Some prev -> Js.truthy prev = true ->
  restoredVersion prev = inl v ->
  confirms w -> dialogs_ok w ->
  wp w (rollbackVersion r) s (fun _ _ => True)
    (fun res s' =>
       res = inl tt /\ projects s' = projects s /\
       (remote_rollback_fails w ->
          heap s' !! r = Some (swap_back (swapped p v)))
       /\ (remote_rollback_succeeds w -> projects_writes_fail w ->
           exists k, heap s' !! r
                     = Some (swap_back (with_lastRollbackTime (Some (tell w k NowISO))
                                          (swapped p v))))).
Proof.
  intros H Hprev Htruthy Hv Hask Hdialog. unfold rollbackVersion.
  wp_step. apply wp_await; [done|]. intros n0. rewrite Hask. cbn [negb].
  wp_step. wp_step. unfold rollbackBody.
  do 2 wp_step. do 2 wp_step. do 2 wp_step. do 2 wp_step.
  rewrite Hprev, Htruthy, Hv. cbn [negb].
  eapply wp_rollbackTransfer_exits; [solve_heap| | |].
  - intros s' e n a G1 G2 E.
    eapply wp_rollbackRecover; [exact G2|done|]. intros n'. rewrite Hdialog.
    intros s2 F1 F2 F3. eapply wp_release; [exact F3|].
    split; [done|]. split; [solve_state|]. split.
    + intros _. solve_state.
    + intros Hs. rewrite Hs in E. discriminate.
  - intros s' e k n c n1 a G1 G2 E1 E Hc.
    eapply wp_rollbackRecover; [exact G2|done|]. intros n'. rewrite Hdialog.
    intros s2 F1 F2 F3. eapply wp_release; [exact F3|].
    split; [done|]. split; [solve_state|]. split.
    + intros Hf. destruct (Hf n1 a) as [e1 He1]. congruence.
    + intros _ _. exists k. solve_state.
  - intros s' k n f l n1 a G1 G2 E1 E. eapply wp_release; [exact G2|].
    split; [done|]. split; [solve_state|]. split.
    + intros Hf. destruct (Hf n1 a) as [e1 He1]. congruence.
    + intros _ Hw. destruct (Hw n f l) as [e He]. congruence.
Qed.

Lemma canonical_restored prev : canonical prev -> restoredVersion prev = inl prev.
Proof. intros (a & b & c & _ & _ & _ & ->). apply restoredVersion_dotted. Qed.

Lemma canonical_nonempty v : canonical v -> v <> "".
Proof.
  intros (a & b & c & _ & _ & _ & ->). apply truthy_nonempty, truthy_dotted.
Qed.

(** X7: when the remote host refuses a confirmed rollback, the [catch]
    block undoes the swap: [version] is what it was, [lastRollbackTime] is
    not set, and [previousVersion] holds the rendering of the parsed
    previous version; for a previous version of three decimal naturals
    the project is exactly as before the call.  The previous version
    ranges over the strings whose components the script reads exactly. *)
Theorem failed_remote_rollback_undoes_the_swap w s r p prev v :
  heap s !! r = Some p ->
  previousVersion p = Some prev -> prev <> "" ->
  reads_exactly prev -> restoredVersion prev = inl v ->
  version p <> "" ->
  confirms w -> dialogs_ok w -> remote_rollback_fails w ->
  exists q, project_after (run w (rollbackVersion r) s) r = Some q
    /\ version q = version p
    /\ previousVersion q = Some v
    /\ lastRollbackTime q = lastRollbackTime p
    /\ (canonical prev -> q = p).
Proof.
  intros H Hprev Hne _ Hv Hver Hc Hd Hf.
  apply truthy_nonempty in Hne, Hver.
  destruct (wp_run w _ _ _ _ (rollback_outcomes w s r p prev v H Hprev Hne Hv Hc Hd))
    as [(_ & _ & Hfail & _) _].
  eexists. split; [exact (Hfail Hf)|].
  unfold swap_back. cbn [swapped previousVersion version with_previousVersion with_version].
  rewrite Hver. cbn [version previousVersion lastRollbackTime with_previousVersion with_version].
  repeat split.
  intros Hcan. rewrite (canonical_restored prev Hcan) in Hv. injection Hv as <-.
  destruct p. cbn in *. by rewrite Hprev.
Qed.

Lemma offline_remote_rollback_fails : remote_rollback_fails offline.
Proof. intros n a. by exists (Rejected "connection refused"). Defined.

Lemma reads_exactly_1_0_0 : reads_exactly "1.0.0".
Proof. vm_compute. repeat split; discriminate. Defined.

Lemma failed_remote_rollback_undoes_the_swap_witness :
  let p := site "1.0.1" (Some "1.0.0") None "/srv" in
  heap (single p) !! 0%nat = Some p
  /\ reads_exactly "1.0.0"
  /\ exists q, project_after (run offline (rollbackVersion 0) (single p)) 0 = Some q
       /\ version q = "1.0.1" /\ previousVersion q = Some "1.0.0"
       /\ lastRollbackTime q = None.
Proof.
  intros p. split; [reflexivity|]. split; [exact reads_exactly_1_0_0|].
  destruct (failed_remote_rollback_undoes_the_swap offline (single p) 0 p "1.0.0" "1.0.0")
    as (q & Hq & Hv & Hp & Ht & _);
    [reflexivity|reflexivity|discriminate|exact reads_exactly_1_0_0|reflexivity|discriminate
    | |
    |exact offline_remote_rollback_fails|].
  - by intros n text title.
  - by intros n text kind.
  - exists q. by repeat split.
Defined.

(** X8: when the remote rollback has succeeded and [projects.json] cannot
    be written, the same [catch] block runs: the project shows its old
    [version] again, with the restored one in [previousVersion], although
    the remote call went through, and [lastRollbackTime] keeps the time
    that was set after that call.  The previous version ranges over the
    strings whose components the script reads exactly. *)
Theorem rollback_with_failed_final_write_swaps_back w s r p prev v :
  heap s !! r = Some p ->
  previousVersion p = Some prev -> prev <> "" ->
  reads_exactly prev -> restoredVersion prev = inl v ->
  version p <> "" ->
  confirms w -> dialogs_ok w -> remote_rollback_succeeds w -> projects_writes_fail w ->
  Called (RollbackRemote (transferArgs p)) ∈ events_of (run w (rollbackVersion r) s)
  /\ exists k q, project_after (run w (rollbackVersion r) s) r = Some q
       /\ version q = version p
       /\ previousVersion q = Some v
       /\ lastRollbackTime q = Some (tell w k NowISO).
Proof.
  intros H Hprev Hne _ Hv Hver Hc Hd Hr Hw.
  apply truthy_nonempty in Hne, Hver.
  split; [exact (rollback_step_performed w s r p prev v H Hprev Hne Hv Hc)|].
  destruct (wp_run w _ _ _ _ (rollback_outcomes w s r p prev v H Hprev Hne Hv Hc Hd))
    as [(_ & _ & _ & Hwrite) _].
  destruct (Hwrite Hr Hw) as [k Hk]. exists k. eexists. split; [exact Hk|].
  unfold swap_back.
  cbn [swapped previousVersion version with_previousVersion with_version
       with_lastRollbackTime].
  rewrite Hver. by repeat split.
Qed.

Lemma rollback_with_failed_final_write_witness :
  let p := site "1.0.1" (Some "1.0.0") None "/srv" in
  heap (single p) !! 0%nat = Some p
  /\ reads_exactly "1.0.0"
  /\ Called (RollbackRemote (transferArgs p))
     ∈ events_of (run locked_registry (rollbackVersion 0) (single p))
  /\ exists k q, project_after (run locked_registry (rollbackVersion 0) (single p)) 0 = Some q
       /\ version q = "1.0.1" /\ previousVersion q = Some "1.0.0"
       /\ lastRollbackTime q = Some (tell locked_registry k NowISO).
Proof.
  intros p. split; [reflexivity|]. split; [exact reads_exactly_1_0_0|].
  apply (rollback_with_failed_final_write_swaps_back locked_registry (single p) 0 p
           "1.0.0" "1.0.0");
    [reflexivity|reflexivity|discriminate|exact reads_exactly_1_0_0|reflexivity|discriminate
    | | | |].
  - by intros n text title.
  - by intros n text kind.
  - by intros n a.
  - intros n f l. by exists (Rejected "file is locked").
Defined.

(** X9: a deploy followed by a rollback, both successful, brings a
    project whose version is three decimal naturals back to that version;
    the bumped version moves into [previousVersion]. *)
Theorem deploy_then_rollback_returns_to_the_version w1 w2 s r p :
  heap s !! r = Some p ->
  canonical (version p) ->
  Js.truthy (remotePath (serverInfo p)) = true ->
  build_succeeds w1 -> upload_succeeds w1 ->
  confirms w2 -> files_ok w2 -> remote_rollback_succeeds w2 ->
  exists q,
    project_after
      (run w2 (rollbackVersion r) (state_of (run w1 (deployProject r) s))) r = Some q
    /\ version q = version p
    /\ previousVersion q = Some (bumpPatch (version p)).
Proof.
  intros H Hcan Hremote Hb Hu Hc Hf Hr.
  destruct (wp_run w1 _ _ _ _ (deploy_after_good_build w1 s r p H Hremote Hb))
    as [(_ & k & Hok & _) _].
  destruct (Hok Hu) as [_ H1].
  destruct (wp_run w2 _ _ _ _
              (rollback_success w2 _ r _ (version p) (version p) H1 eq_refl
                 (proj2 (truthy_nonempty _) (canonical_nonempty _ Hcan))
                 (canonical_restored _ Hcan) Hc Hf Hr))
    as [(_ & _ & k2 & H2) _].
  eexists. split; [exact H2|]. by split.
Qed.

Lemma deploy_then_rollback_witness :
  let p := site "1.0.0" None None "/srv" in
  heap (single p) !! 0%nat = Some p /\ canonical "1.0.0"
  /\ exists q,
       project_after
         (run calm (rollbackVersion 0) (state_of (run calm (deployProject 0) (single p)))) 0
       = Some q
       /\ version q = "1.0.0" /\ previousVersion q = Some "1.0.1".
Proof.
  intros p.
  assert (C0 : canonical "1.0.0").
  { exists 1%N, 0%N, 0%N. unfold safe. cbn. repeat split; discriminate. }
  split; [reflexivity|]. split; [exact C0|].
  apply (deploy_then_rollback_returns_to_the_version calm calm (single p) 0 p);
    [reflexivity|exact C0|reflexivity| |
    |exact calm_confirms|exact calm_files_ok|exact calm_remote_rollback_succeeds].
  - intros n program args cwd. by exists {| code := 0; stderr := "" |}.
  - by intros n a.
Defined.

Lemma readPatch_dotted a b c : readPatch (dotted a b c) = Js.Int (Z.of_N c).
Proof.
  unfold readPatch. rewrite dotted_eq, split_dotted. cbn [lookup list_lookup].
  unfold Js.or_default. by rewrite truthy_digits, parseInt_digits_exact.
Qed.

Lemma dotted_patch_inj a b c c' : dotted a b c = dotted a b c' -> c = c'.
Proof.
  intros E. apply (f_equal readPatch) in E. rewrite !readPatch_dotted in E.
  injection E as E. lia.
Qed.

(** X10: the rollback slot has one level.  After two successful deploys
    of a project at a.b.c the version is a.b.(c+2) and [previousVersion]
    holds a.b.(c+1), the result of the first deploy: the version the
    project started from is in neither field.  The components range over
    the naturals for which both increments are exact. *)
Theorem second_deploy_overwrites_the_rollback_slot w1 w2 s r p a b c :
  heap s !! r = Some p ->
  version p = dotted a b c -> safe a -> safe b -> safe (c + 1) ->
  Js.truthy (remotePath (serverInfo p)) = true ->
  build_succeeds w1 -> upload_succeeds w1 ->
  build_succeeds w2 -> upload_succeeds w2 ->
  exists q,
    project_after
      (run w2 (deployProject r) (state_of (run w1 (deployProject r) s))) r = Some q
    /\ version q = dotted a b (c + 2)
    /\ previousVersion q = Some (dotted a b (c + 1))
    /\ version q <> version p
    /\ previousVersion q <> Some (version p).
Proof.
  intros H Hv _ _ _ Hremote Hb1 Hu1 Hb2 Hu2.
  destruct (wp_run w1 _ _ _ _ (deploy_after_good_build w1 s r p H Hremote Hb1))
    as [(_ & k1 & Hok1 & _) _].
  destruct (Hok1 Hu1) as [_ H1].
  destruct (wp_run w2 _ _ _ _
              (deploy_after_good_build w2 _ r (bumped p (tell w1 k1 NowISO)) H1 Hremote Hb2))
    as [(_ & k2 & Hok2 & _) _].
  destruct (Hok2 Hu2) as [_ H2].
  eexists. split; [exact H2|].
  cbn [bumped version previousVersion with_lastDeployTime with_version with_previousVersion].
  rewrite Hv, !bumpPatch_dotted. replace (c + 1 + 1)%N with (c + 2)%N by lia.
  split; [done|]. split; [done|]. split.
  - intros E%dotted_patch_inj. lia.
  - intros [= E%dotted_patch_inj]. lia.
Qed.

Lemma second_deploy_overwrites_the_rollback_slot_witness :
  let p := site "1.0.0" None None "/srv" in
  heap (single p) !! 0%nat = Some p /\ version p = dotted 1 0 0 /\ safe (0 + 1)
  /\ exists q,
       project_after
         (run calm (deployProject 0) (state_of (run calm (deployProject 0) (single p)))) 0
       = Some q
       /\ version q = "1.0.2" /\ previousVersion q = Some "1.0.1".
Proof.
  intros p. split; [reflexivity|]. split; [reflexivity|].
  assert (S1 : safe 1) by (unfold safe; cbn; discriminate).
  assert (S0 : safe 0) by (unfold safe; cbn; discriminate).
  split; [exact S1|].
  assert (Hb : build_succeeds calm).
  { intros n program args cwd. by exists {| code := 0; stderr := "" |}. }
  assert (Hu : upload_succeeds calm) by (by intros n a).
  destruct (second_deploy_overwrites_the_rollback_slot calm calm (single p) 0 p 1 0 0
              eq_refl eq_refl S1 S0 S1 eq_refl Hb Hu Hb Hu) as (q & Hq & Hv & Hp & _).
  exists q. split; [exact Hq|]. split; [exact Hv|exact Hp].
Defined.

(** * The project list: [saveProject], [saveEdit], [openEditDialog], [deleteProject] *)

Lemma omap_insert_fresh (h : gmap nat ProjectConfig) k p (l : list nat) :
  k ∉ l -> omap (fun r => <[k := p]> h !! r) l = omap (fun r => h !! r) l.
Proof.
  induction l as [|r l IH]; [done|]. intros [Hr Hl]%not_elem_of_cons. cbn.
  rewrite lookup_insert_ne by done. by rewrite IH.
Qed.

Lemma omap_insert_at (h : gmap nat ProjectConfig) k p (l : list nat) i :
  k ∉ l -> (forall r, r ∈ l -> is_Some (h !! r)) -> (i < length l)%nat ->
  omap (fun r => <[k := p]> h !! r) (<[i := k]> l) = <[i := p]> (omap (fun r => h !! r) l).
Proof.
  revert i. induction l as [|r l IH]; intros i Hk Hv Hi; [cbn in Hi; lia|].
  apply not_elem_of_cons in Hk as [Hr Hl].
  destruct (Hv r) as [q Hq]; [by left|].
  destruct i as [|i]; cbn.
  - rewrite lookup_insert_eq, Hq. cbn. by rewrite omap_insert_fresh.
  - rewrite lookup_insert_ne by done. rewrite Hq. cbn. f_equal.
    apply IH; [done| |cbn in Hi; lia]. intros r' Hr'. apply Hv. by right.
Qed.

Lemma omap_valid (h : gmap nat ProjectConfig) (l : list nat) i :
  (forall r, r ∈ l -> is_Some (h !! r)) ->
  omap (fun r => h !! r) l !! i = l !! i ≫= (fun r => h !! r).
Proof.
  revert i. induction l as [|r l IH]; intros i Hv; [done|].
  destruct (Hv r) as [q Hq]; [by left|]. cbn. rewrite Hq.
  destruct i as [|i]; cbn; [done|]. apply IH. intros r' Hr'. apply Hv. by right.
Qed.

Lemma omap_valid_length (h : gmap nat ProjectConfig) (l : list nat) :
  (forall r, r ∈ l -> is_Some (h !! r)) -> length (omap (fun r => h !! r) l) = length l.
Proof.
  induction l as [|r l IH]; intros Hv; [done|].
  destruct (Hv r) as [q Hq]; [by left|]. cbn. rewrite Hq. cbn. f_equal.
  apply IH. intros r' Hr'. apply Hv. by right.
Qed.

Lemma well_formed_fresh s : well_formed s -> nextRef s ∉ projects s.
Proof. intros Hw Hin. destruct (Hw _ Hin) as [_ Hlt]. lia. Qed.

Lemma well_formed_valid s r : well_formed s -> r ∈ projects s -> is_Some (heap s !! r).
Proof. intros Hw Hin. by destruct (Hw _ Hin). Qed.

Lemma findIndex_first f h l k i :
  (forall r, r ∈ l -> is_Some (h !! r)) ->
  findIndex f h l k = Some i ->
  exists n q, i = (k + n)%nat /\ omap (fun r => h !! r) l !! n = Some q /\ f q = true
    /\ forall m q', (m < n)%nat -> omap (fun r => h !! r) l !! m = Some q' -> f q' = false.
Proof.
  revert k. induction l as [|r l IH]; intros k Hv; [done|].
  destruct (Hv r) as [q Hq]; [by left|]. cbn. rewrite Hq.
  destruct (f q) eqn:Hf.
  - intros [= <-]. exists 0%nat, q. cbn. repeat split; [lia|done|]. intros m q' Hm. lia.
  - intros Hi. destruct (IH (S k)) as (n & q' & -> & Hn & Hfq & Hbefore); [|done|].
    { intros r' Hr'. apply Hv. by right. }
    exists (S n), q'. cbn. repeat split; [lia|done|done|].
    intros [|m] q'' Hm; cbn; [by intros [= <-]|]. apply Hbefore. lia.
Qed.

Lemma findIndex_none f h l k :
  findIndex f h l k = None ->
  forall q, q ∈ omap (fun r => h !! r) l -> f q = false.
Proof.
  revert k. induction l as [|r l IH]; intros k; cbn; [intros _ q Hq; by apply elem_of_nil in Hq|].
  destruct (h !! r) as [q0|] eqn:Hq0; cbn.
  - destruct (f q0) eqn:Hf; [done|]. intros Hn q [->|Hq]%elem_of_cons; [done|]. by eapply IH.
  - intros Hn q Hq. by eapply IH.
Qed.

Lemma first_with_id_unique i l n q n' q' :
  first_with_id i l n q -> first_with_id i l n' q' -> n = n' /\ q = q'.
Proof.
  intros (H1 & H2 & H3) (H1' & H2' & H3').
  destruct (lt_eq_lt_dec n n') as [[Hlt| ->]|Hlt].
  - by destruct (H3' n q Hlt H1).
  - split; [done|]. congruence.
  - by destruct (H3 n' q' Hlt H1').
Qed.

Lemma keepOthers_listed i (h : gmap nat ProjectConfig) (l : list nat) :
  omap (fun r => h !! r) (keepOthers i h l)
  = List.filter (fun q => negb (String.eqb (id q) i)) (omap (fun r => h !! r) l).
Proof.
  unfold keepOthers. induction l as [|r l IH]; [done|]. cbn.
  destruct (h !! r) as [q|] eqn:Hq; cbn.
  - destruct (negb (String.eqb (id q) i)); cbn; [rewrite Hq; cbn|]; by rewrite IH.
  - exact IH.
Qed.

Lemma wp_report w text kind s O (Q : unit + exn -> state -> Prop) :
  O (Called (Message text kind)) s -> (forall r, Q r s) ->
  wp (A := unit) w (await (Message text kind)) s O Q.
Proof. intros HO HQ. apply (wp_await w (Message text kind)); [done|]. intros n. apply HQ. Qed.

Lemma saveProject_outcomes w s :
  Js.truthy (name (newProject s)) = true ->
  Js.truthy (path (newProject s)) = true ->
  validateBuildCommand (buildCommand (newProject s)) = true ->
  well_formed s -> config_ok w ->
  wp w saveProject s
    (fun ev s' => forall f l, ev = Called (WriteTextFile f (ProjectsJson l)) ->
        l = listed s'
        /\ exists k, l = (listed s ++ [with_id (tell w k DateNow) (newProject s)])%list)
    (fun _ s' => exists k,
        appended (with_id (tell w k DateNow) (newProject s)) s s'
        /\ (writes_ok w -> newProject s' = blankProject /\ showAddDialog s' = false)
        /\ (writes_fail w ->
            newProject s' = with_id (tell w k DateNow) (newProject s)
            /\ showAddDialog s' = showAddDialog s)).
Proof.
  intros Hn Hp Hc Hw (Hdir & Hjoin & Hex & Hmk). unfold saveProject. cbn [wp].
  rewrite Hn, Hp, Hc. cbn [negb orb andb]. rewrite andb_false_r.
  wp_step. wp_step.
  apply wp_await; [by intros f l [=]|]. intros n0. destruct (Hdir n0) as [appDir ->].
  wp_step. apply wp_await; [by intros f l [=]|]. intros n1.
  destruct (Hjoin n1 [appDir; "config"; "projects.json"]) as [configPath ->].
  wp_step. apply wp_await; [by intros f l [=]|]. intros n2.
  destruct (Hjoin n2 [appDir; "config"]) as [configDir ->].
  wp_step. apply wp_await; [by intros f l [=]|]. intros n3.
  destruct (Hex n3 configDir) as [dirExists ->].
  wp_step.
  match goal with
  | |- wp _ _ _ _ (fun r s' => match r with inl _ => @?K s' | inr _ => _ end) =>
      assert (Hcont : K s)
  end; cbv beta.
  2: { destruct dirExists; cbn [negb]; [exact Hcont|].
       apply wp_await; [by intros f l [=]|]. intros n. rewrite Hmk. exact Hcont. }
  wp_step. apply wp_ask; [by intros f l [=]|]. intros k. cbv beta iota.
  set (np := with_id (tell w k DateNow) (newProject s)).
  wp_step. wp_step. wp_step. cbn [wp alloc].
  cbn [set_forms newProject nextRef heap projects deployingProjects deployStatusMap
       editingProject showAddDialog showEditDialog].
  fold np.
  match goal with |- wp _ _ ?st _ _ => set (s1 := st) end.
  assert (Hl : listed s1 = (listed s ++ [np])%list).
  { subst s1. unfold listed. cbn [heap projects set_projects].
    rewrite omap_app, omap_insert_fresh by by apply well_formed_fresh.
    cbn. by rewrite lookup_insert_eq. }
  assert (Hwf : forall s', heap s' = heap s1 -> projects s' = projects s1 ->
                           nextRef s' = nextRef s1 -> well_formed s').
  { intros s' E1 E2 E3 r. rewrite E1, E2, E3. subst s1. cbn [heap projects nextRef set_projects].
    intros [Hr| ->%list_elem_of_singleton]%elem_of_app.
    - destruct (Hw r Hr) as [Hs Hlt]. rewrite lookup_insert_ne by lia. split; [done|lia].
    - rewrite lookup_insert_eq. split; [done|lia]. }
  assert (Happ : forall s', heap s' = heap s1 -> projects s' = projects s1 ->
                   nextRef s' = nextRef s1 -> editingProject s' = editingProject s ->
                   showEditDialog s' = showEditDialog s ->
                   deployingProjects s' = deployingProjects s ->
                   deployStatusMap s' = deployStatusMap s -> appended np s s').
  { intros s' E1 E2 E3 E4 E5 E6 E7. split; [|split; [|split; [by apply Hwf|done]]].
    - rewrite <- Hl. unfold listed. by rewrite E1, E2.
    - rewrite E1. subst s1. cbn [heap set_projects]. by rewrite lookup_insert_eq. }
  assert (Hnp : newProject s1 = np /\ showAddDialog s1 = showAddDialog s) by done.
  assert (Happ1 : appended np s s1) by by apply Happ.
  assert (Happ2 : appended np s
                    (set_forms blankProject (editingProject s1) false (showEditDialog s1) s1))
    by by apply Happ.
  clearbody s1.
  wp_step. apply wp_persist.
  { intros f l [= _ <-]. split; [done|]. by exists k. }
  intros n4. destruct (respond w n4 _) as [[]|e] eqn:E4.
  - wp_step. wp_step. apply wp_await; [by intros f l [=]|]. intros n5.
    assert (Hno : ~ writes_fail w).
    { intros Hf. destruct (Hf n4 configPath (ProjectsJson (listed s1))) as [e He]. congruence. }
    destruct (respond w n5 _) as [[]|e].
    + exists k. split; [exact Happ2|]. by split.
    + cbv beta iota. apply wp_report; [by intros f l [=]|]. intros _.
      exists k. split; [exact Happ2|]. by split.
  - cbv beta iota. apply wp_report; [by intros f l [=]|]. intros _.
    exists k. split; [exact Happ1|]. split; [|done].
    intros Hok. rewrite Hok in E4. discriminate.
Qed.

Lemma listed_length s : well_formed s -> length (listed s) = length (projects s).
Proof. intros Hw. apply omap_valid_length. intros r Hr. by apply well_formed_valid. Qed.

Lemma saveEdit_step s ep :
  editingProject s = Some ep -> well_formed s ->
  exists s1,
    (forall w O (Q : unit + exn -> state -> Prop) (k : unit -> prog unit),
        wp w (k tt) s1 O Q ->
        wp w (Get (fun s =>
                match editingProject s with
                | Some ep =>
                    match findIndex (fun p => String.eqb (id p) (id ep)) (heap s) (projects s) 0 with
                    | Some index =>
                        let '(r, s') := alloc ep s in
                        Put (set_projects <[index := r]> s') (Ret tt)
                    | None => Ret tt
                    end
                | None =>
                    match projects s with
                    | [] => Ret tt
                    | _ :: _ => Throw (TypeError "editingProject.value is null")
                    end
                end)) s O
          (fun r s' => match r with inl a => wp w (k a) s' O Q | inr e => Q (inr e) s' end))
    /\ edited ep s s1 /\ editingProject s1 = Some ep /\ showEditDialog s1 = showEditDialog s.
Proof.
  intros Hep Hw.
  destruct (findIndex (fun p => String.eqb (id p) (id ep)) (heap s) (projects s) 0)
    as [index|] eqn:Hfind.
  - exists (set_projects <[index := nextRef s]> (snd (alloc ep s))). split.
    { intros w O Q k Hk. cbn [wp]. rewrite Hep, Hfind. exact Hk. }
    apply findIndex_first in Hfind as (n & q & -> & Hn & Hq & Hbefore);
      [|intros r Hr; by apply well_formed_valid].
    apply String.eqb_eq in Hq.
    assert (Hlt : (n < length (projects s))%nat).
    { rewrite <- listed_length by done. by eapply lookup_lt_Some. }
    assert (Hfirst : first_with_id (id ep) (listed s) n q).
    { split; [done|]. split; [done|]. intros m q' Hm Hq'.
      apply String.eqb_neq. by eapply Hbefore. }
    assert (Hl : listed (set_projects <[(0 + n)%nat := nextRef s]> (snd (alloc ep s)))
                 = <[n := ep]> (listed s)).
    { unfold listed. cbn [heap projects set_projects alloc snd].
      apply omap_insert_at; [by apply well_formed_fresh| |done].
      intros r Hr. by apply well_formed_valid. }
    split; [|done]. split; [|split; [|split]].
    + intros n' q' Hfirst'. destruct (first_with_id_unique _ _ _ _ _ _ Hfirst Hfirst') as [<- _].
      exact Hl.
    + intros Hnone. destruct (Hnone q); [by eapply list_elem_of_lookup_2|done].
    + intros r Hr. cbn [heap projects nextRef set_projects alloc snd] in *.
      apply list_elem_of_lookup in Hr as [j Hj].
      destruct (decide (j = n)) as [->|Hne].
      * rewrite list_lookup_insert_eq in Hj by done. injection Hj as <-.
        rewrite lookup_insert_eq. split; [done|lia].
      * rewrite list_lookup_insert_ne in Hj by done.
        destruct (Hw r) as [Hs Hr]; [by eapply list_elem_of_lookup_2|].
        rewrite lookup_insert_ne by lia. split; [done|lia].
    + repeat split. intros r Hr. cbn [heap set_projects alloc snd].
      rewrite lookup_insert_ne by lia. done.
  - exists s. split.
    { intros w O Q k Hk. cbn [wp]. rewrite Hep, Hfind. exact Hk. }
    split; [|done]. split; [|done].
    intros n q (Hn & Hq & _).
    assert (Hf := findIndex_none _ _ _ _ Hfind q (list_elem_of_lookup_2 _ _ _ Hn)).
    cbv beta in Hf. apply String.eqb_neq in Hf. done.
Qed.

Lemma saveEdit_outcomes w s ep :
  editingProject s = Some ep -> well_formed s -> config_ok w ->
  wp w saveEdit s
    (fun ev s' => forall f l, ev = Called (WriteTextFile f (ProjectsJson l)) -> l = listed s')
    (fun _ s' =>
       edited ep s s'
       /\ (writes_ok w -> editingProject s' = None /\ showEditDialog s' = false)
       /\ (writes_fail w -> editingProject s' = Some ep /\ showEditDialog s' = showEditDialog s)).
Proof.
  intros Hep Hw (Hdir & Hjoin & _ & _).
  destruct (saveEdit_step s ep Hep Hw) as (s1 & Hstep & Hed & Hep1 & Hshow1).
  unfold saveEdit. cbn [wp]. rewrite Hep.
  wp_step. wp_step.
  apply wp_await; [by intros f l [=]|]. intros n0. destruct (Hdir n0) as [appDir ->].
  wp_step. apply wp_await; [by intros f l [=]|]. intros n1.
  destruct (Hjoin n1 [appDir; "config"; "projects.json"]) as [configPath ->].
  wp_step. apply Hstep.
  wp_step. apply wp_persist; [by intros f l [= _ <-]|].
  intros n2. destruct (respond w n2 _) as [[]|e] eqn:E2.
  - assert (Hno : ~ writes_fail w).
    { intros Hf. destruct (Hf n2 configPath (ProjectsJson (listed s1))) as [e He]. congruence. }
    assert (Hed' : edited ep s (set_forms (newProject s1) None (showAddDialog s1) false s1)).
    { destruct Hed as (H1 & H2 & H3 & H4 & H5 & H6 & H7 & H8).
      split; [exact H1|]. split; [exact H2|]. split; [exact H3|]. split; [exact H4|].
      split; [exact H5|]. split; [exact H6|]. split; [exact H7|exact H8]. }
    wp_step. wp_step. apply wp_await; [by intros f l [=]|]. intros n3.
    destruct (respond w n3 _) as [[]|e].
    + split; [exact Hed'|]. by split.
    + cbv beta iota. apply wp_report; [by intros f l [=]|]. intros _. split; [exact Hed'|]. by split.
  - cbv beta iota. apply wp_report; [by intros f l [=]|]. intros _. split; [exact Hed|]. split; [|done].
    intros Hok. rewrite Hok in E2. discriminate.
Qed.

Lemma deleteProject_outcomes w s r p :
  heap s !! r = Some p -> confirms w -> config_ok w ->
  wp w (deleteProject r) s
    (fun ev s' => forall f l, ev = Called (WriteTextFile f (ProjectsJson l)) ->
       l = List.filter (fun q => negb (String.eqb (id q) (id p))) (listed s))
    (fun _ s' => s' = set_projects (keepOthers (id p) (heap s)) s).
Proof.
  intros H Hc (Hdir & Hjoin & _ & _). unfold deleteProject.
  wp_step. apply wp_await; [by intros f l [=]|]. intros n. rewrite Hc. cbn [negb].
  wp_step. wp_step.
  apply wp_await; [by intros f l [=]|]. intros n0. destruct (Hdir n0) as [appDir ->].
  wp_step. apply wp_await; [by intros f l [=]|]. intros n1.
  destruct (Hjoin n1 [appDir; "config"; "projects.json"]) as [configPath ->].
  wp_step. wp_step. wp_step. wp_step. wp_step.
  apply wp_persist.
  { intros f l [= _ <-]. unfold listed. cbn [heap projects set_projects].
    apply keepOthers_listed. }
  intros n2. destruct (respond w n2 _) as [[]|e].
  - apply wp_await; [by intros f l [=]|]. intros n3.
    destruct (respond w n3 _) as [[]|e]; [done|].
    cbv beta iota. apply wp_report; [by intros f l [=]|]. by intros _.
  - cbv beta iota. apply wp_report; [by intros f l [=]|]. by intros _.
Qed.

(** ** Fixtures *)

Lemma single_well_formed p : well_formed (single p).
Proof.
  intros r Hr. apply list_elem_of_singleton in Hr as ->. cbn.
  rewrite lookup_singleton_eq. split; [by eexists|lia].
Defined.

Lemma adding_well_formed p np : well_formed (adding p np).
Proof. exact (single_well_formed p). Defined.

Lemma calm_config_ok : config_ok calm.
Proof.
  split; [|split; [|split]].
  - intros n. by eexists.
  - intros n parts. by eexists.
  - intros n d. by eexists.
  - by intros n d.
Defined.

Lemma calm_writes_ok : writes_ok calm.
Proof. by intros n f data. Defined.

Lemma read_only_disk_config_ok : config_ok read_only_disk.
Proof.
  split; [|split; [|split]].
  - intros n. by eexists.
  - intros n parts. by eexists.
  - intros n d. by eexists.
  - by intros n d.
Defined.

Lemma read_only_disk_writes_fail : writes_fail read_only_disk.
Proof. intros n f data. by eexists. Defined.

(** ** [saveProject] *)

(** X11: [saveProject] with a filled form and a valid build command
    pushes one copy of the form, with [Date.now()] as its id, to the end
    of the list and leaves the projects before it as they are; every
    write of [projects.json] carries that list; after a successful write
    the dialog is closed and the form is blank again. *)
Theorem saveProject_appends_a_stamped_copy w s :
  name (newProject s) <> "" -> path (newProject s) <> "" ->
  validateBuildCommand (buildCommand (newProject s)) = true ->
  well_formed s -> config_ok w -> writes_ok w ->
  (exists k,
     listed (state_of (run w saveProject s))
     = (listed s ++ [with_id (tell w k DateNow) (newProject s)])%list)
  /\ newProject (state_of (run w saveProject s)) = blankProject
  /\ showAddDialog (state_of (run w saveProject s)) = false
  /\ Forall (fun ob => forall f l,
               what ob = Called (WriteTextFile f (ProjectsJson l)) ->
               l = listed (seen ob)
               /\ exists k, l = (listed s ++ [with_id (tell w k DateNow) (newProject s)])%list)
       (trace_of (run w saveProject s)).
Proof.
  intros Hn Hp Hc Hw Hcfg Hok. apply truthy_nonempty in Hn, Hp.
  destruct (wp_run w _ _ _ _ (saveProject_outcomes w s Hn Hp Hc Hw Hcfg))
    as [(k & (Hl & _) & Hsucc & _) Htr].
  destruct (Hsucc Hok) as [Hform Hshow].
  split; [by exists k|]. split; [done|]. split; [done|exact Htr].
Qed.

Lemma saveProject_appends_a_stamped_copy_witness :
  let s := adding (site "1.0.0" None None "/srv") draft in
  listed (state_of (run calm saveProject s))
  = [site "1.0.0" None None "/srv"; with_id "1714979289000" draft]
  /\ (exists k,
        listed (state_of (run calm saveProject s))
        = (listed s ++ [with_id (tell calm k DateNow) (newProject s)])%list)
  /\ newProject (state_of (run calm saveProject s)) = blankProject.
Proof.
  intros s. split; [vm_compute; reflexivity|].
  destruct (saveProject_appends_a_stamped_copy calm s) as (Hl & Hf & _);
    [discriminate|discriminate|reflexivity|exact (adding_well_formed _ _)
    |exact calm_config_ok|exact calm_writes_ok|].
  by split.
Defined.

(** X12: when the write of [projects.json] fails, [saveProject] reports
    the failure but has already pushed the project: it stays in the list,
    the dialog stays open and the form keeps its content.  Saving again
    pushes a second copy, so a retry that succeeds stores the project
    twice. *)
Theorem retry_after_a_failed_save_stores_the_project_twice w1 w2 s :
  name (newProject s) <> "" -> path (newProject s) <> "" ->
  validateBuildCommand (buildCommand (newProject s)) = true ->
  well_formed s ->
  config_ok w1 -> writes_fail w1 -> config_ok w2 -> writes_ok w2 ->
  exists k1 k2,
    let first := with_id (tell w1 k1 DateNow) (newProject s) in
    let second := with_id (tell w2 k2 DateNow) (newProject s) in
    listed (state_of (run w1 saveProject s)) = (listed s ++ [first])%list
    /\ newProject (state_of (run w1 saveProject s)) = first
    /\ showAddDialog (state_of (run w1 saveProject s)) = showAddDialog s
    /\ listed (state_of (run w2 saveProject (state_of (run w1 saveProject s))))
       = (listed s ++ [first; second])%list.
Proof.
  intros Hn Hp Hc Hw Hcfg1 Hfail Hcfg2 Hok. apply truthy_nonempty in Hn, Hp.
  destruct (wp_run w1 _ _ _ _ (saveProject_outcomes w1 s Hn Hp Hc Hw Hcfg1))
    as [(k1 & (Hl1 & _ & Hw1 & _) & _ & Hkeep) _].
  destruct (Hkeep Hfail) as [Hform Hshow].
  cbv beta in Hl1, Hw1, Hform, Hshow.
  set (s1 := state_of (run w1 saveProject s)) in *.
  assert (Hn1 : Js.truthy (name (newProject s1)) = true) by by rewrite Hform.
  assert (Hp1 : Js.truthy (path (newProject s1)) = true) by by rewrite Hform.
  assert (Hc1 : validateBuildCommand (buildCommand (newProject s1)) = true) by by rewrite Hform.
  destruct (wp_run w2 _ _ _ _ (saveProject_outcomes w2 s1 Hn1 Hp1 Hc1 Hw1 Hcfg2))
    as [(k2 & (Hl2 & _) & _) _].
  exists k1, k2. cbv zeta. split; [done|]. split; [done|]. split; [done|].
  cbv beta in Hl2. rewrite Hl2, Hl1, Hform, <- app_assoc. reflexivity.
Qed.

Lemma retry_after_a_failed_save_witness :
  let s := adding (site "1.0.0" None None "/srv") draft in
  map name (listed (state_of (run calm saveProject
                                (state_of (run read_only_disk saveProject s)))))
  = ["site"; "docs"; "docs"]
  /\ exists k1 k2,
       listed (state_of (run calm saveProject (state_of (run read_only_disk saveProject s))))
       = (listed s ++ [with_id (tell read_only_disk k1 DateNow) (newProject s);
                       with_id (tell calm k2 DateNow) (newProject s)])%list.
Proof.
  intros s. split; [vm_compute; reflexivity|].
  destruct (retry_after_a_failed_save_stores_the_project_twice read_only_disk calm s)
    as (k1 & k2 & _ & _ & _ & H);
    [discriminate|discriminate|reflexivity|exact (adding_well_formed _ _)
    |exact read_only_disk_config_ok|exact read_only_disk_writes_fail
    |exact calm_config_ok|exact calm_writes_ok|].
  by exists k1, k2.
Defined.

(** X13: [saveProject] checks the form before it does anything else: with
    an empty name, an empty path or a build command that fails the
    validation it shows one error message, awaits nothing else and leaves
    the state as it was, whatever the collaborators answer. *)
Theorem saveProject_rejects_before_touching_anything w s :
  name (newProject s) = "" \/ path (newProject s) = ""
  \/ validateBuildCommand (buildCommand (newProject s)) = false ->
  state_of (run w saveProject s) = s
  /\ exists text, events_of (run w saveProject s) = [Called (Message text "error")].
Proof.
  intros H. unfold run, saveProject. cbn [exec].
  destruct (negb (Js.truthy (name (newProject s))) || negb (Js.truthy (path (newProject s))))
    eqn:Hfilled.
  - cbn. destruct (respond w 0 _) as [[]|e]; (split; [done|by eexists]).
  - apply orb_false_iff in Hfilled as [Hn%negb_false_iff Hp%negb_false_iff].
    apply truthy_nonempty in Hn, Hp.
    destruct H as [H|[H|H]]; [done|done|].
    assert (Ht : Js.truthy_opt (buildCommand (newProject s)) = true).
    { unfold validateBuildCommand in H.
      by destruct (Js.truthy_opt (buildCommand (newProject s))). }
    rewrite Ht, H. cbn. destruct (respond w 0 _) as [[]|e]; (split; [done|by eexists]).
Qed.

Lemma saveProject_rejects_before_touching_anything_witness :
  let s := adding (site "1.0.0" None None "/srv") tainted in
  state_of (run calm saveProject s) = s
  /\ exists text, events_of (run calm saveProject s) = [Called (Message text "error")].
Proof.
  intros s. apply (saveProject_rejects_before_touching_anything calm s).
  right. right. vm_compute. reflexivity.
Defined.

(** ** [saveEdit] and [openEditDialog] *)

(** X14: [saveEdit] replaces the first project that has the id of the
    edit form by a copy of the form and leaves every other position,
    later projects with the same id included, as it is; when no project
    has that id the list stays as it is.  Either way [projects.json] is
    written with the list in memory.  A successful write closes the
    dialog; after a failed one the dialog stays open although the list in
    memory already holds the edit. *)
Theorem saveEdit_replaces_the_first_project_with_the_id w s ep :
  editingProject s = Some ep -> well_formed s -> config_ok w ->
  (forall n q, first_with_id (id ep) (listed s) n q ->
     listed (state_of (run w saveEdit s)) = <[n := ep]> (listed s))
  /\ ((forall q, q ∈ listed s -> id q <> id ep) ->
      listed (state_of (run w saveEdit s)) = listed s)
  /\ (writes_ok w ->
      editingProject (state_of (run w saveEdit s)) = None
      /\ showEditDialog (state_of (run w saveEdit s)) = false)
  /\ (writes_fail w ->
      editingProject (state_of (run w saveEdit s)) = Some ep
      /\ showEditDialog (state_of (run w saveEdit s)) = showEditDialog s)
  /\ writes_the_list (trace_of (run w saveEdit s)).
Proof.
  intros Hep Hw Hcfg.
  destruct (wp_run w _ _ _ _ (saveEdit_outcomes w s ep Hep Hw Hcfg))
    as [((H1 & H2 & _) & Hok & Hfail) Htr].
  split; [exact H1|]. split; [exact H2|]. split; [exact Hok|]. split; [exact Hfail|].
  eapply Forall_impl; [exact Htr|]. intros ob Hob f l Hwhat. by eapply Hob.
Qed.

Lemma couple_well_formed p1 p2 : well_formed (couple p1 p2).
Proof.
  intros r Hr. apply elem_of_cons in Hr as [->|Hr].
  - cbn. split; [by eexists|lia].
  - apply list_elem_of_singleton in Hr as ->. cbn. split; [by eexists|lia].
Defined.

Lemma saveEdit_replaces_the_first_project_witness :
  let twin := site "1.0.0" None None "/srv" in
  let ep := site "9.9.9" None (Some "npm run build") "/srv/new" in
  let s := set_forms blankProject (Some ep) false true (couple twin twin) in
  listed (state_of (run calm saveEdit s)) = [ep; twin]
  /\ editingProject (state_of (run calm saveEdit s)) = None.
Proof.
  intros twin ep s.
  destruct (saveEdit_replaces_the_first_project_with_the_id calm s ep)
    as (Hfirst & _ & Hok & _);
    [reflexivity|exact (couple_well_formed twin twin)|exact calm_config_ok|].
  split.
  - apply (Hfirst 0%nat twin). split; [reflexivity|]. split; [reflexivity|].
    intros m q' Hm. lia.
  - exact (proj1 (Hok calm_writes_ok)).
Defined.

Lemma openEditDialog_run w s r p :
  heap s !! r = Some p ->
  state_of (run w (openEditDialog r) s)
  = set_forms (newProject s) (Some p) (showAddDialog s) true s.
Proof. intros H. unfold run, openEditDialog. cbn. by rewrite H. Qed.

Lemma listed_lookup s i r :
  well_formed s -> projects s !! i = Some r -> listed s !! i = heap s !! r.
Proof.
  intros Hw Hi. unfold listed. rewrite omap_valid, Hi; [done|].
  intros r' Hr'. by apply well_formed_valid.
Qed.

Lemma listed_lookup_inv s i q :
  well_formed s -> listed s !! i = Some q ->
  exists r, projects s !! i = Some r /\ heap s !! r = Some q.
Proof.
  intros Hw. unfold listed. rewrite omap_valid; [|intros r' Hr'; by apply well_formed_valid].
  destruct (projects s !! i) as [r|]; [|done]. cbn. intros H. by exists r.
Qed.

(** Saving the form [p] over a state in which the project behind [r],
    first of its id at position [i], has gone through an operation. *)
Lemma saveEdit_over_operation w K s1 s2 r p i :
  well_formed s1 -> editingProject s1 = Some p ->
  projects s1 !! i = Some r -> first_with_id (id p) (listed s1) i p ->
  working_on K r p s1 s2 -> config_ok w ->
  listed (state_of (run w saveEdit s2)) !! i = Some p
  /\ length (listed (state_of (run w saveEdit s2))) = length (listed s1).
Proof.
  intros Hw Hep Hi (Hp & _ & Hbefore)
    [(Hproj & Hnext & _ & Hep2 & _ & _ & Hheap & _) (q & Hq & (Hid & _) & _)] Hcfg.
  assert (Hr : heap s1 !! r = Some p) by by rewrite <- (listed_lookup s1 i r).
  assert (Hw2 : well_formed s2).
  { intros r' Hr'. rewrite Hproj in Hr'. destruct (Hw r' Hr') as [Hs Hlt].
    split; [|by rewrite Hnext].
    destruct (decide (r' = r)) as [->|Hne]; [by rewrite Hq|by rewrite Hheap]. }
  assert (Hfirst : first_with_id (id p) (listed s2) i q).
  { split; [|split; [done|]].
    - rewrite (listed_lookup s2 i r); [done|done|by rewrite Hproj].
    - intros m q' Hm Hq'.
      apply listed_lookup_inv in Hq' as (r' & Hm' & Hr'); [|done].
      rewrite Hproj in Hm'.
      destruct (decide (r' = r)) as [->|Hne].
      + intros _. eapply (Hbefore m p Hm); [|done].
        by rewrite (listed_lookup s1 m r).
      + apply (Hbefore m q' Hm). rewrite (listed_lookup s1 m r') by done.
        by rewrite <- Hheap. }
  destruct (wp_run w _ _ _ _ (saveEdit_outcomes w s2 p (eq_trans Hep2 Hep) Hw2 Hcfg))
    as [((H1 & _) & _) _].
  cbv beta in H1. rewrite (H1 i q Hfirst).
  assert (Hlt : (i < length (listed s2))%nat) by (destruct Hfirst; by eapply lookup_lt_Some).
  split; [by apply list_lookup_insert_eq|].
  rewrite length_insert, !listed_length, Hproj; done.
Qed.

(** X15: the edit form is a copy taken when the dialog is opened, and
    [saveEdit] stores that copy.  Saved at once it leaves the list as it
    is.  Saved after a deploy or a rollback of the same project that ran
    while the dialog was open, it puts the project back as it was when
    the dialog was opened: the version, [previousVersion] and the time
    stamp written by that operation are gone from the list, whatever the
    operation did. *)
Theorem saveEdit_stores_the_project_as_it_was_opened w1 w2 w3 s r p i :
  well_formed s -> projects s !! i = Some r ->
  first_with_id (id p) (listed s) i p -> config_ok w3 ->
  let opened := state_of (run w1 (openEditDialog r) s) in
  listed (state_of (run w3 saveEdit opened)) = listed s
  /\ listed (state_of (run w3 saveEdit (state_of (run w2 (deployProject r) opened)))) !! i
     = Some p
  /\ listed (state_of (run w3 saveEdit (state_of (run w2 (rollbackVersion r) opened)))) !! i
     = Some p.
Proof.
  intros Hw Hi Hfirst Hcfg opened.
  assert (Hr : heap s !! r = Some p).
  { rewrite <- (listed_lookup s i r) by done. by destruct Hfirst. }
  assert (Hopened : opened = set_forms (newProject s) (Some p) (showAddDialog s) true s)
    by by apply openEditDialog_run.
  assert (Hw1 : well_formed opened) by by rewrite Hopened.
  assert (Hl1 : listed opened = listed s) by by rewrite Hopened.
  assert (Hep : editingProject opened = Some p) by by rewrite Hopened.
  assert (Hi1 : projects opened !! i = Some r) by by rewrite Hopened.
  assert (Hr1 : heap opened !! r = Some p) by by rewrite Hopened.
  assert (Hfirst1 : first_with_id (id p) (listed opened) i p) by by rewrite Hl1.
  clearbody opened. split; [|split].
  - destruct (wp_run w3 _ _ _ _ (saveEdit_outcomes w3 opened p Hep Hw1 Hcfg))
      as [((H1 & _) & _) _].
    cbv beta in H1. rewrite (H1 i p Hfirst1), Hl1. apply list_insert_id. by destruct Hfirst.
  - destruct (deploy_confined_run w2 opened r p Hr1) as [Hwork _].
    by destruct (saveEdit_over_operation w3 _ opened _ r p i Hw1 Hep Hi1 Hfirst1 Hwork Hcfg).
  - destruct (rollback_confined_run w2 opened r p Hr1) as [Hwork _].
    by destruct (saveEdit_over_operation w3 _ opened _ r p i Hw1 Hep Hi1 Hfirst1 Hwork Hcfg).
Qed.

Lemma saveEdit_stores_the_project_as_it_was_opened_witness :
  let p := site "1.0.0" None None "/srv" in
  let opened := state_of (run calm (openEditDialog 0) (single p)) in
  option_map version (project_after (run calm (deployProject 0) opened) 0) = Some "1.0.1"
  /\ listed (state_of (run calm saveEdit (state_of (run calm (deployProject 0) opened))))
       !! 0%nat = Some p.
Proof.
  intros p opened. split; [vm_compute; reflexivity|].
  destruct (saveEdit_stores_the_project_as_it_was_opened calm calm calm (single p) 0 p 0)
    as (_ & H & _);
    [exact (single_well_formed p)|reflexivity| |exact calm_config_ok|exact H].
  split; [reflexivity|]. split; [reflexivity|]. intros m q' Hm. lia.
Defined.

(** ** [deleteProject] *)

Lemma filter_elem_of (f : ProjectConfig -> bool) l q :
  q ∈ List.filter f l <-> q ∈ l /\ f q = true.
Proof. rewrite !list_elem_of_In. apply filter_In. Qed.

(** X16: a confirmed [deleteProject] removes from the list every project
    that has the id of the one it was given, not only that object, and
    keeps the others in their order; the project objects, the flags and
    the forms are not touched.  It filters the list before it writes
    [projects.json] and has no undo: when the write fails the project is
    gone from the list in memory all the same. *)
Theorem deleteProject_removes_every_project_with_the_id w s r p :
  heap s !! r = Some p -> confirms w -> config_ok w ->
  listed (state_of (run w (deleteProject r) s))
  = List.filter (fun q => negb (String.eqb (id q) (id p))) (listed s)
  /\ (forall q, q ∈ listed (state_of (run w (deleteProject r) s))
                <-> q ∈ listed s /\ id q <> id p)
  /\ state_of (run w (deleteProject r) s) = set_projects (keepOthers (id p) (heap s)) s
  /\ Forall (fun ob => forall f l,
               what ob = Called (WriteTextFile f (ProjectsJson l)) ->
               l = List.filter (fun q => negb (String.eqb (id q) (id p))) (listed s))
       (trace_of (run w (deleteProject r) s)).
Proof.
  intros H Hc Hcfg.
  destruct (wp_run w _ _ _ _ (deleteProject_outcomes w s r p H Hc Hcfg)) as [Hs Htr].
  cbv beta in Hs. rewrite Hs.
  assert (Hl : listed (set_projects (keepOthers (id p) (heap s)) s)
               = List.filter (fun q => negb (String.eqb (id q) (id p))) (listed s)).
  { unfold listed. cbn [heap projects set_projects]. apply keepOthers_listed. }
  split; [exact Hl|]. split; [|split; [done|exact Htr]].
  intros q. rewrite Hl, filter_elem_of, negb_true_iff, String.eqb_neq. done.
Qed.

Lemma deleteProject_removes_every_project_witness :
  let twin := site "1.0.0" None None "/srv" in
  let s := {| heap := {[ 0%nat := twin; 1%nat := blog; 2%nat := twin ]}; nextRef := 3;
              projects := [0%nat; 1%nat; 2%nat];
              deployingProjects := ∅; deployStatusMap := ∅; newProject := blankProject;
              editingProject := None; showAddDialog := false; showEditDialog := false |} in
  listed s = [twin; blog; twin]
  /\ listed (state_of (run read_only_disk (deleteProject 2) s)) = [blog].
Proof.
  intros twin s. split; [reflexivity|].
  destruct (deleteProject_removes_every_project_with_the_id read_only_disk s 2 twin)
    as (H & _); [reflexivity| |exact read_only_disk_config_ok|].
  - by intros n text title.
  - rewrite H. reflexivity.
Defined.

(** X17: [deleteProject] and [rollbackVersion] ask before anything else,
    outside their [try] blocks.  Unless the answer is yes, the question
    is the only call they await and the state stays as it was: nothing is
    written, no flag is raised and no message is shown, also when the
    dialog itself fails. *)
Theorem unconfirmed_operations_change_nothing w s r :
  unconfirmed w ->
  (state_of (run w (deleteProject r) s) = s
   /\ events_of (run w (deleteProject r) s)
      = [Called (Ask "确定要删除该项目吗？" "确认删除")])
  /\ (state_of (run w (rollbackVersion r) s) = s
      /\ events_of (run w (rollbackVersion r) s)
         = [Called (Ask "确定要回滚到上一个版本吗？" "确认回滚")]).
Proof.
  intros Hno. split.
  - unfold run, deleteProject. cbn [bind await exec]. cbn [length].
    specialize (Hno 0%nat "确定要删除该项目吗？" "确认删除").
    by destruct (respond w 0 _) as [[]|e].
  - unfold run, rollbackVersion. cbn [bind await exec]. cbn [length].
    specialize (Hno 0%nat "确定要回滚到上一个版本吗？" "确认回滚").
    by destruct (respond w 0 _) as [[]|e].
Qed.

Lemma unconfirmed_operations_witness :
  let s := couple (site "1.0.0" None None "/srv") blog in
  (state_of (run hesitant (deleteProject 1) s) = s
   /\ events_of (run hesitant (deleteProject 1) s)
      = [Called (Ask "确定要删除该项目吗？" "确认删除")])
  /\ (state_of (run hesitant (rollbackVersion 1) s) = s
      /\ events_of (run hesitant (rollbackVersion 1) s)
         = [Called (Ask "确定要回滚到上一个版本吗？" "确认回滚")]).
Proof.
  intros s. apply (unconfirmed_operations_change_nothing hesitant s 1).
  intros n text title. discriminate.
Defined.

Lemma filter_all (f : ProjectConfig -> bool) l :
  (forall q, q ∈ l -> f q = true) -> List.filter f l = l.
Proof.
  induction l as [|q l IH]; intros Hall; [done|]. cbn.
  rewrite (Hall q) by by left. f_equal. apply IH. intros q' Hq'. apply Hall. by right.
Qed.

(** X18: saving a project and then deleting it brings the list back to
    what it was, provided the id that [Date.now()] gave to the new
    project is not the id of a project that was already in the list;
    whether the two writes of [projects.json] succeed plays no role. *)
Theorem saving_then_deleting_restores_the_list w1 w2 s :
  name (newProject s) <> "" -> path (newProject s) <> "" ->
  validateBuildCommand (buildCommand (newProject s)) = true ->
  well_formed s -> config_ok w1 ->
  (forall k q, q ∈ listed s -> id q <> tell w1 k DateNow) ->
  confirms w2 -> config_ok w2 ->
  listed (state_of (run w2 (deleteProject (nextRef s)) (state_of (run w1 saveProject s))))
  = listed s.
Proof.
  intros Hn Hp Hc Hw Hcfg1 Hfresh Hconf Hcfg2. apply truthy_nonempty in Hn, Hp.
  destruct (wp_run w1 _ _ _ _ (saveProject_outcomes w1 s Hn Hp Hc Hw Hcfg1))
    as [(k & (Hl & Hnew & _) & _) _].
  cbv beta in Hl, Hnew.
  destruct (wp_run w2 _ _ _ _ (deleteProject_outcomes w2 _ _ _ Hnew Hconf Hcfg2)) as [Hs _].
  cbv beta in Hs. rewrite Hs. unfold listed at 1. cbn [heap projects set_projects].
  rewrite keepOthers_listed. fold (listed (state_of (run w1 saveProject s))).
  rewrite Hl, List.filter_app. cbn [List.filter id with_id]. rewrite String.eqb_refl. cbn [negb].
  rewrite app_nil_r. apply filter_all. intros q Hq.
  apply negb_true_iff, String.eqb_neq. by apply Hfresh.
Qed.

Lemma saving_then_deleting_witness :
  let s := adding (site "1.0.0" None None "/srv") draft in
  listed (state_of (run calm (deleteProject 1) (state_of (run calm saveProject s))))
  = [site "1.0.0" None None "/srv"].
Proof.
  intros s.
  apply (saving_then_deleting_restores_the_list calm calm s);
    [discriminate|discriminate|reflexivity|exact (adding_well_formed _ _)
    |exact calm_config_ok| |exact calm_confirms|exact calm_config_ok].
  intros k q Hq. apply list_elem_of_singleton in Hq as ->. discriminate.
Defined.

(** * What reaches [projects.json] during a deploy or a rollback *)

Ltac no_write := by (unfold written; intros ? ? [=]).

Lemma writeManifest_written w r info label p s J (Q : unit + exn -> state -> Prop) :
  heap s !! r = Some p -> J s -> Q (inl tt) s ->
  wp w (writeManifest r info label) s (written J) Q.
Proof.
  intros H HJ HQ. unfold writeManifest.
  assert (Hh : forall e, wp w (ask (ConsoleError label e)) s (written J) Q).
  { intros e. apply wp_ask; [no_write|]. intros n. by destruct (tell w n _). }
  wp_step. wp_step. wp_step.
  wp_step. apply wp_await; [no_write|]. intros n1. destruct (respond w n1 _) as [versionPath|e]; [|apply Hh].
  wp_step. apply wp_await; [no_write|]. intros n2. destruct (respond w n2 _) as [[]|e]; [|apply Hh].
  wp_step. apply wp_await; [no_write|]. intros n3. destruct (respond w n3 _) as [appData|e]; [|apply Hh].
  wp_step. apply wp_await; [no_write|]. intros n4. destruct (respond w n4 _) as [configDir|e]; [|apply Hh].
  wp_step. apply wp_await; [no_write|]. intros n5. destruct (respond w n5 _) as [configPath|e]; [|apply Hh].
  apply wp_persist; [by intros f l [= _ <-]|]. intros n6. destruct (respond w n6 _) as [[]|e]; [done|apply Hh].
Qed.

Lemma runBuild_written w r p s J (Q : unit + exn -> state -> Prop) :
  heap s !! r = Some p ->
  (forall res s', heap s' = heap s -> Q res s') ->
  wp w (runBuild r) s (written J) Q.
Proof.
  intros H HQ. unfold runBuild. do 2 wp_step.
  destruct (buildCommand p) as [cmd|]; [|wp_step; by apply HQ].
  destruct (Js.truthy cmd); [|wp_step; by apply HQ].
  wp_step. wp_step. wp_step. wp_step. apply wp_ask; [no_write|]. intros n0. cbv beta iota zeta.
  wp_step. apply wp_await; [no_write|]. intros n1.
  destruct (respond w n1 _) as [out|e].
  - destruct (negb (code out =? 0)%Z); wp_step; by apply HQ.
  - wp_step. by apply HQ.
Qed.

Lemma deployTransfer_written w r p s (Q : unit + exn -> state -> Prop) :
  heap s !! r = Some p ->
  (forall res s', (exists q, heap s' !! r = Some q) -> Q res s') ->
  wp w (deployTransfer r) s (written (deploy_on_disk r p)) Q.
Proof.
  intros H HQ. unfold deployTransfer.
  do 2 wp_step. do 2 wp_step. do 2 wp_step. do 2 wp_step.
  wp_step. apply wp_ask; [no_write|]. intros n0. cbv beta iota.
  do 2 wp_step. wp_step.
  eapply writeManifest_written; [solve_heap| |].
  { eexists. split; [solve_heap|]. split; [done|]. split; [done|]. by intros _. }
  do 2 wp_step. wp_step. apply wp_ask; [no_write|]. intros n1. cbv beta iota.
  do 2 wp_step. do 2 wp_step. wp_step.
  apply wp_await; [no_write|]. intros n2.
  destruct (respond w n2 _) as [[]|e].
  - wp_step. apply HQ. eexists. solve_heap.
  - apply HQ. eexists. solve_heap.
Qed.

Lemma deployProject_written w s r p :
  heap s !! r = Some p ->
  wp w (deployProject r) s (written (deploy_on_disk r p)) (fun _ _ => True).
Proof.
  intros H. unfold deployProject.
  apply wp_try with (Qb := fun _ s' => exists q, heap s' !! r = Some q).
  - unfold deployBody. do 2 wp_step.
    destruct (Js.truthy (remotePath (serverInfo p))); cbn [negb].
    + do 2 wp_step. do 2 wp_step. wp_step.
      apply runBuild_written with p; [solve_heap|].
      intros [[]|e] s' Hs'.
      * apply deployTransfer_written; [rewrite Hs'; solve_heap|]. by intros res s2 Hq.
      * exists p. rewrite Hs'. solve_heap.
    + apply wp_await; [no_write|]. intros n. by exists p.
  - intros [] s' [q Hq]. by eapply wp_release.
  - intros e s' [q Hq]. eapply wp_deployRecover; [exact Hq|no_write|].
    intros n. destruct (respond w n _) as [[]|e'].
    + intros s2 _ _ Hq2. by eapply wp_release.
    + by eapply wp_release.
Qed.

Lemma rollbackTransfer_written w r p prev v s (Q : unit + exn -> state -> Prop) :
  heap s !! r = Some p -> previousVersion p = Some prev -> prev <> "" ->
  restoredVersion prev = inl v ->
  (forall res s', (exists q, heap s' !! r = Some q) -> Q res s') ->
  wp w (rollbackTransfer r (version p) v) s (written (rollback_on_disk r p)) Q.
Proof.
  intros H Hprev Hne Hv HQ. unfold rollbackTransfer.
  do 2 wp_step. do 2 wp_step.
  wp_step. apply wp_ask; [no_write|]. intros n0. cbv beta iota.
  do 2 wp_step. wp_step.
  eapply writeManifest_written; [solve_heap| |].
  { exists prev. eexists. split; [done|]. split; [done|]. split; [solve_heap|].
    split; [done|]. by intros _. }
  do 2 wp_step. do 2 wp_step. wp_step.
  apply wp_await; [no_write|]. intros n1.
  destruct (respond w n1 _) as [[]|e]; [|apply HQ; eexists; solve_heap].
  wp_step. apply wp_ask; [no_write|]. intros n2. cbv beta iota.
  do 2 wp_step.
  wp_step. apply wp_await; [no_write|]. intros n3.
  destruct (respond w n3 _) as [appData|e]; [|apply HQ; eexists; solve_heap].
  wp_step. apply wp_await; [no_write|]. intros n4.
  destruct (respond w n4 _) as [configDir|e]; [|apply HQ; eexists; solve_heap].
  wp_step. apply wp_await; [no_write|]. intros n5.
  destruct (respond w n5 _) as [configPath|e]; [|apply HQ; eexists; solve_heap].
  wp_step. apply wp_persist.
  { intros f l [= _ <-]. split; [done|].
    exists prev. eexists. split; [done|]. split; [done|]. split; [solve_heap|].
    split; [done|]. by intros _. }
  intros n6. destruct (respond w n6 _) as [[]|e]; [|apply HQ; eexists; solve_heap].
  wp_step. apply HQ. eexists. solve_heap.
Qed.

Lemma rollbackVersion_written w s r p :
  heap s !! r = Some p ->
  wp w (rollbackVersion r) s (written (rollback_on_disk r p)) (fun _ _ => True).
Proof.
  intros H. unfold rollbackVersion.
  wp_step. apply wp_await; [no_write|]. intros n.
  destruct (respond w n _) as [[]|e]; [|done|done]. cbn [negb].
  apply wp_try with (Qb := fun _ s' => exists q, heap s' !! r = Some q).
  - unfold rollbackBody. do 2 wp_step. do 2 wp_step. do 2 wp_step. do 2 wp_step.
    destruct (previousVersion p) as [prev|] eqn:Hprev; [|wp_step; eexists; solve_heap].
    destruct (Js.truthy prev) eqn:Ht; cbn [negb]; [|wp_step; eexists; solve_heap].
    cbv zeta. destruct (restoredVersion prev) as [v|msg] eqn:Hv; [|wp_step; eexists; solve_heap].
    eapply rollbackTransfer_written; [solve_heap|done|by apply truthy_nonempty|done|].
    by intros res s2 Hq.
  - intros [] s' [q Hq]. by eapply wp_release.
  - intros e s' [q Hq]. eapply wp_rollbackRecover; [exact Hq|no_write|].
    intros n'. destruct (respond w n' _) as [[]|e'].
    + intros s2 _ _ Hq2. by eapply wp_release.
    + by eapply wp_release.
Qed.

(** X19: whenever a deploy writes [projects.json], it writes the list in
    memory, and it does so between the version bump and the time stamp:
    the project has the old version in [previousVersion] and
    [lastDeployTime] as it was before the call, and its [version] is the
    bumped one (stated for a version that is bumped within the exact
    range of the numbers of the script).  This holds of every write, on
    every path and whatever the collaborators answer. *)
Theorem deploy_writes_the_list_before_the_upload w s r p :
  heap s !! r = Some p ->
  Forall (fun ob => forall f l,
            what ob = Called (WriteTextFile f (ProjectsJson l)) ->
            l = listed (seen ob)
            /\ exists q, heap (seen ob) !! r = Some q
                 /\ previousVersion q = Some (version p)
                 /\ lastDeployTime q = lastDeployTime p
                 /\ (bumps_exactly (version p) -> version q = bumpPatch (version p)))
    (trace_of (run w (deployProject r) s)).
Proof.
  intros H.
  exact (proj2 (wp_run w _ _ _ _ (deployProject_written w s r p H))).
Qed.

Lemma bumps_exactly_1_0_0 : bumps_exactly "1.0.0".
Proof. vm_compute. repeat split; discriminate. Defined.

Lemma deploy_writes_the_list_before_the_upload_witness :
  let p := site "1.0.0" None None "/srv" in
  let out := run offline (deployProject 0) (single p) in
  heap (single p) !! 0%nat = Some p
  /\ bumps_exactly (version p)
  /\ map (fun ob => map version (listed (seen ob)))
       (List.filter (fun ob => is_projects_write (what ob)) (trace_of out)) = [["1.0.1"]]
  /\ map version (listed (state_of out)) = ["1.0.0"]
  /\ Forall (fun ob => forall f l,
               what ob = Called (WriteTextFile f (ProjectsJson l)) ->
               l = listed (seen ob)
               /\ exists q, heap (seen ob) !! 0%nat = Some q
                    /\ previousVersion q = Some (version p)
                    /\ lastDeployTime q = lastDeployTime p
                    /\ (bumps_exactly (version p) -> version q = bumpPatch (version p)))
       (trace_of out).
Proof.
  intros p out. split; [reflexivity|]. split; [exact bumps_exactly_1_0_0|].
  split; [vm_compute; reflexivity|]. split; [vm_compute; reflexivity|].
  apply (deploy_writes_the_list_before_the_upload offline (single p) 0 p). reflexivity.
Defined.

(** X20: whenever a rollback writes [projects.json], before the remote
    call or after it, it writes the list in memory with the two versions
    of the project exchanged: the project had a non-empty previous
    version, [previousVersion] now holds the version the project had,
    and [version] is what the check made of the previous version (stated
    for a previous version that the script reads within the exact range
    of its numbers).  So a rollback of a project without a previous
    version writes nothing. *)
Theorem rollback_writes_the_list_with_the_versions_exchanged w s r p :
  heap s !! r = Some p ->
  Forall (fun ob => forall f l,
            what ob = Called (WriteTextFile f (ProjectsJson l)) ->
            l = listed (seen ob)
            /\ exists prev q,
                 previousVersion p = Some prev /\ prev <> ""
                 /\ heap (seen ob) !! r = Some q
                 /\ previousVersion q = Some (version p)
                 /\ (reads_exactly prev -> restoredVersion prev = inl (version q)))
    (trace_of (run w (rollbackVersion r) s)).
Proof.
  intros H.
  exact (proj2 (wp_run w _ _ _ _ (rollbackVersion_written w s r p H))).
Qed.

Lemma rollback_writes_the_list_with_the_versions_exchanged_witness :
  let p := site "1.0.1" (Some "1.0.0") None "/srv" in
  let out := run offline (rollbackVersion 0) (single p) in
  heap (single p) !! 0%nat = Some p
  /\ map (fun ob => map version (listed (seen ob)))
       (List.filter (fun ob => is_projects_write (what ob)) (trace_of out)) = [["1.0.0"]]
  /\ map version (listed (state_of out)) = ["1.0.1"]
  /\ Forall (fun ob => forall f l,
               what ob = Called (WriteTextFile f (ProjectsJson l)) ->
               l = listed (seen ob)
               /\ exists prev q,
                    previousVersion p = Some prev /\ prev <> ""
                    /\ heap (seen ob) !! 0%nat = Some q
                    /\ previousVersion q = Some (version p)
                    /\ (reads_exactly prev -> restoredVersion prev = inl (version q)))
       (trace_of out).
Proof.
  intros p out. split; [reflexivity|]. split; [vm_compute; reflexivity|].
  split; [vm_compute; reflexivity|].
  apply (rollback_writes_the_list_with_the_versions_exchanged offline (single p) 0 p).
  reflexivity.
Defined.

(** * From the validated command to the process that is run *)

(** X21: for a build command that [validateBuildCommand] accepts, the
    deploy runs [npm] (or [npm-windows]) with exactly the two arguments
    [run] and the script name of the command, and that name consists of
    word characters, colons and hyphens only. *)
Theorem validated_command_runs_its_script w s r p cmd :
  heap s !! r = Some p -> buildCommand p = Some cmd -> cmd <> "" ->
  validateBuildCommand (Some cmd) = true ->
  exists script,
    cmd = "npm run " ++ script /\ script <> ""
    /\ all_chars is_script_char script = true
    /\ Forall (fun ob => forall program args cwd,
                 what ob = Called (Execute program args cwd) ->
                 (program = "npm" \/ program = "npm-windows")
                 /\ args = ["run"; script] /\ cwd = projectPath p)
         (trace_of (run w (deployProject r) s)).
Proof.
  intros H Hcmd Hne Hvalid.
  apply validateBuildCommand_spec in Hvalid as [Hv|[Hv|(script & Hv & Hs & Hchars)]];
    [discriminate|congruence|].
  injection Hv as ->. exists script. split; [done|]. split; [done|]. split; [done|].
  destruct (deploy_confined_run w s r p H) as [_ Htr].
  eapply Forall_impl; [exact Htr|]. intros ob [Hev _] program args cwd Hwhat.
  rewrite Hwhat in Hev. cbn [deploy_event] in Hev. destruct Hev as (_ & Hprog & Hargs & Hcwd).
  split; [done|]. split; [|done].
  rewrite Hargs, Hcmd. reflexivity.
Qed.

Lemma validated_command_runs_its_script_witness :
  let s := couple (site "1.0.0" None None "/srv") blog in
  map (fun ob => what ob)
    (List.filter (fun ob => is_execute (what ob)) (trace_of (run calm (deployProject 1) s)))
  = [Called (Execute "npm" ["run"; "build:prod"] "/work/blog")]
  /\ exists script,
       "npm run build:prod" = "npm run " ++ script /\ script <> ""
       /\ all_chars is_script_char script = true
       /\ Forall (fun ob => forall program args cwd,
                    what ob = Called (Execute program args cwd) ->
                    (program = "npm" \/ program = "npm-windows")
                    /\ args = ["run"; script] /\ cwd = projectPath blog)
            (trace_of (run calm (deployProject 1) s)).
Proof.
  intros s. split; [vm_compute; reflexivity|].
  apply (validated_command_runs_its_script calm s 1 blog "npm run build:prod");
    [reflexivity|reflexivity|discriminate|vm_compute; reflexivity].
Defined.
